(** * AssetManager: the upload / delete lifecycle, registration and admin
    analytics of the Express backend, as a shallow embedding.

    The development follows the source files:
    - [routes/auth.js]    registration ([Auth.register]);
    - [routes/assets.js]  multer configuration, upload and owner delete
                          ([Assets.upload_route], [Assets.delete_route]);
    - [routes/admin.js]   admin delete and the visibility aggregate
                          ([Admin.delete_route], [Admin.visibility_route]);
    - [middleware/auth.js], [middleware/role.js]  the two gates;
    - the SQL schema      the [users] and [assets] tables ([Pg]).

    External services (PostgreSQL, S3, the local disk) are explicit state;
    what they may answer on their own account (an outage, the clock, the
    password hash) is read from an environment record [Env]. *)

From Stdlib Require Import List ZArith NArith Bool String Ascii Lia.
From Stdlib Require Import DecimalString Permutation Sorted.
Import ListNotations.

Set Warnings "-register-all".

(* ================================================================== *)
(** * JavaScript strings

    A JavaScript string is a sequence of 16-bit code units; [str] keeps them
    as numbers.  [lit] reads an ASCII literal of the source. *)

Module Js.

Definition str := list N.

Definition lit (s : string) : str :=
  map N_of_ascii (list_ascii_of_string s).

Fixpoint eqb (a b : str) : bool :=
  match a, b with
  | [], [] => true
  | x :: a', y :: b' => N.eqb x y && eqb a' b'
  | _, _ => false
  end.

(** [s.startsWith(p)], returning what follows the prefix. *)
Fixpoint strip_prefix (p s : str) : option str :=
  match p, s with
  | [], _ => Some s
  | x :: p', y :: s' => if N.eqb x y then strip_prefix p' s' else None
  | _ :: _, [] => None
  end.

(** [String(n)] for a non-negative integer. *)
Definition of_N (n : N) : str :=
  lit (NilZero.string_of_uint (N.to_uint n)).

(** [s.split(sep)] for a non-empty separator: [skip] counts the code units
    of a separator occurrence that are still to be dropped, [cur] is the
    current piece in reverse. *)
Fixpoint split_go (sep : str) (skip : nat) (cur s : str) : list str :=
  match s with
  | [] => [rev cur]
  | c :: s' =>
      match skip with
      | S k => split_go sep k cur s'
      | O =>
          match strip_prefix sep s with
          | Some _ => rev cur :: split_go sep (List.length sep - 1) [] s'
          | None => split_go sep 0 (c :: cur) s'
          end
      end
  end.

Definition split (sep s : str) : list str := split_go sep 0 [] s.

(** WhiteSpace and LineTerminator of ECMAScript, the code units that
    [String.prototype.trim] strips. *)
Definition is_space (c : N) : bool :=
  ((9 <=? c) && (c <=? 13) || (c =? 32) || (c =? 160) || (c =? 5760)
   || (8192 <=? c) && (c <=? 8202) || (c =? 8232) || (c =? 8233)
   || (c =? 8239) || (c =? 8287) || (c =? 12288) || (c =? 65279))%N.

Fixpoint trim_start (s : str) : str :=
  match s with
  | c :: s' => if is_space c then trim_start s' else s
  | [] => []
  end.

Definition trim_end (s : str) : str := rev (trim_start (rev s)).

Definition trim (s : str) : str := trim_end (trim_start s).

(** A string that neither begins nor ends with white space. *)
Definition trimmed (s : str) : Prop :=
  (forall c r, s = c :: r -> is_space c = false)
  /\ (forall c r, s = r ++ [c] -> is_space c = false).

(** [pieces.join(c)]: the pieces with the code unit [c] between them. *)
Definition join (c : N) (pieces : list str) : str :=
  match pieces with
  | [] => []
  | p :: rest => p ++ List.concat (map (cons c) rest)
  end.

(** [Boolean(s)] for a string. *)
Definition nonempty (s : str) : bool :=
  match s with [] => false | _ :: _ => true end.

End Js.

Import Js.

(* ================================================================== *)
(** * JSON values and [JSON.parse]

    A number keeps its lexeme: the JavaScript value is the double nearest
    to it, and the one fact the routes need of a number, whether it is
    zero, is decided exactly on the lexeme ([number_is_zero]). *)

Module Json.

Inductive json : Type :=
| JNull
| JBool (b : bool)
| JNum (lexeme : str)
| JStr (s : str)
| JArr (items : list json)
| JObj (members : list (str * json)).

Definition is_digit (c : N) : bool := ((48 <=? c) && (c <=? 57))%N.

(** JSON white space: space, tab, line feed, carriage return. *)
Definition is_ws (c : N) : bool :=
  ((c =? 32) || (c =? 9) || (c =? 10) || (c =? 13))%N.

Fixpoint skip_ws (s : str) : str :=
  match s with
  | c :: s' => if is_ws c then skip_ws s' else s
  | [] => []
  end.

Fixpoint take_digits (s : str) : str * str :=
  match s with
  | c :: s' =>
      if is_digit c then let (d, r) := take_digits s' in (c :: d, r)
      else ([], s)
  | [] => ([], [])
  end.

(** A number: an optional minus, an integer part without leading zero, an
    optional fraction and an optional exponent; each lexer returns the
    code units it read and the rest. *)
Definition lex_int (s : str) : option (str * str) :=
  match s with
  | 48%N :: r => Some ([48%N], r)
  | c :: r =>
      if is_digit c then let (d, r') := take_digits r in Some (c :: d, r')
      else None
  | [] => None
  end.

Definition lex_frac (s : str) : option (str * str) :=
  match s with
  | 46%N :: r =>
      match take_digits r with
      | ([], _) => None
      | (d, r') => Some (46%N :: d, r')
      end
  | _ => Some ([], s)
  end.

Definition lex_exp (s : str) : option (str * str) :=
  match s with
  | c :: r =>
      if ((c =? 101) || (c =? 69))%N then
        let (sign, r1) :=
          match r with
          | x :: r' => if ((x =? 43) || (x =? 45))%N then ([x], r') else ([], r)
          | [] => ([], r)
          end in
        match take_digits r1 with
        | ([], _) => None
        | (d, r2) => Some (c :: sign ++ d, r2)
        end
      else Some ([], s)
  | [] => Some ([], s)
  end.

Definition lex_number (s : str) : option (str * str) :=
  let (sign, r0) :=
    match s with
    | 45%N :: r => ([45%N], r)
    | _ => ([], s)
    end in
  match lex_int r0 with
  | None => None
  | Some (i, r1) =>
      match lex_frac r1 with
      | None => None
      | Some (f, r2) =>
          match lex_exp r2 with
          | None => None
          | Some (e, r3) => Some (sign ++ i ++ f ++ e, r3)
          end
      end
  end.

Definition hex_val (c : N) : option N :=
  (if (48 <=? c) && (c <=? 57) then Some (c - 48)
   else if (65 <=? c) && (c <=? 70) then Some (c - 55)
   else if (97 <=? c) && (c <=? 102) then Some (c - 87)
   else None)%N.

Definition hex4 (a b c d : N) : option N :=
  match hex_val a, hex_val b, hex_val c, hex_val d with
  | Some x, Some y, Some z, Some w => Some (((x * 16 + y) * 16 + z) * 16 + w)%N
  | _, _, _, _ => None
  end.

(** The code unit an escape stands for, after the backslash. *)
Definition escape (e : N) : option N :=
  (if e =? 34 then Some 34 else if e =? 92 then Some 92
   else if e =? 47 then Some 47 else if e =? 98 then Some 8
   else if e =? 102 then Some 12 else if e =? 110 then Some 10
   else if e =? 114 then Some 13 else if e =? 116 then Some 9
   else None)%N.

(** The characters of a string literal after its opening quote, up to and
    including the closing quote: an escape, or any code unit from U+0020
    on other than the quote and the backslash. *)
Fixpoint lex_chars (s : str) : option (str * str) :=
  match s with
  | [] => None
  | c :: r =>
      if (c =? 34)%N then Some ([], r)
      else if (c =? 92)%N then
        match r with
        | [] => None
        | e :: r1 =>
            if (e =? 117)%N then
              match r1 with
              | h1 :: h2 :: h3 :: h4 :: r2 =>
                  match hex4 h1 h2 h3 h4, lex_chars r2 with
                  | Some u, Some (t, r') => Some (u :: t, r')
                  | _, _ => None
                  end
              | _ => None
              end
            else
              match escape e, lex_chars r1 with
              | Some u, Some (t, r') => Some (u :: t, r')
              | _, _ => None
              end
        end
      else if (c <? 32)%N then None
      else
        match lex_chars r with
        | Some (t, r') => Some (c :: t, r')
        | None => None
        end
  end.

(** The rest of [s] after the code unit [c], when [s] begins with it. *)
Definition after (c : N) (s : str) : option str :=
  match s with
  | x :: r => if (x =? c)%N then Some r else None
  | [] => None
  end.

(** ** Values

    One layer of the grammar each, over the parsers of the layers below:
    [value_in] a value, [elements_in] the elements of an array from the
    first one to the closing bracket, [members_in] the members of an
    object from the first key to the closing brace. *)

Definition parser (A : Type) : Type := str -> option (A * str).

Definition value_in (elements : parser (list json))
    (members : parser (list (str * json))) : parser json :=
  fun s =>
    match s with
    | [] => None
    | c :: r =>
        if (c =? 110)%N then
          match strip_prefix (lit "ull") r with
          | Some r' => Some (JNull, r') | None => None end
        else if (c =? 116)%N then
          match strip_prefix (lit "rue") r with
          | Some r' => Some (JBool true, r') | None => None end
        else if (c =? 102)%N then
          match strip_prefix (lit "alse") r with
          | Some r' => Some (JBool false, r') | None => None end
        else if (c =? 34)%N then
          match lex_chars r with
          | Some (t, r') => Some (JStr t, r') | None => None end
        else if (c =? 91)%N then
          match after 93 (skip_ws r) with
          | Some r' => Some (JArr [], r')
          | None =>
              match elements (skip_ws r) with
              | Some (vs, r') => Some (JArr vs, r') | None => None end
          end
        else if (c =? 123)%N then
          match after 125 (skip_ws r) with
          | Some r' => Some (JObj [], r')
          | None =>
              match members (skip_ws r) with
              | Some (ms, r') => Some (JObj ms, r') | None => None end
          end
        else
          match lex_number s with
          | Some (n, r') => Some (JNum n, r') | None => None end
    end.

Definition elements_in (value : parser json) (elements : parser (list json))
    : parser (list json) :=
  fun s =>
    match value s with
    | None => None
    | Some (v, r) =>
        match after 93 (skip_ws r) with
        | Some r' => Some ([v], r')
        | None =>
            match after 44 (skip_ws r) with
            | None => None
            | Some r' =>
                match elements (skip_ws r') with
                | Some (vs, r'') => Some (v :: vs, r'') | None => None end
            end
        end
    end.

Definition members_in (value : parser json)
    (members : parser (list (str * json))) : parser (list (str * json)) :=
  fun s =>
    match after 34 s with
    | None => None
    | Some r =>
        match lex_chars r with
        | None => None
        | Some (k, r1) =>
            match after 58 (skip_ws r1) with
            | None => None
            | Some r2 =>
                match value (skip_ws r2) with
                | None => None
                | Some (v, r3) =>
                    match after 125 (skip_ws r3) with
                    | Some r4 => Some ([(k, v)], r4)
                    | None =>
                        match after 44 (skip_ws r3) with
                        | None => None
                        | Some r4 =>
                            match members (skip_ws r4) with
                            | Some (ms, r5) => Some ((k, v) :: ms, r5)
                            | None => None
                            end
                        end
                    end
                end
            end
        end
    end.

(** The three parsers, with one budget of nested calls. *)
Fixpoint value (fuel : nat) (s : str) {struct fuel} : option (json * str) :=
  match fuel with
  | O => None
  | S f => value_in (elements f) (members f) s
  end
with elements (fuel : nat) (s : str) {struct fuel}
    : option (list json * str) :=
  match fuel with
  | O => None
  | S f => elements_in (value f) (elements f) s
  end
with members (fuel : nat) (s : str) {struct fuel}
    : option (list (str * json) * str) :=
  match fuel with
  | O => None
  | S f => members_in (value f) (members f) s
  end.

(** [JSON.parse(s)]: [None] stands for the SyntaxError it throws.  The
    budget is never the reason of a failure ([parse_complete]). *)
Definition parse (s : str) : option json :=
  match value (2 * List.length s + 2) (skip_ws s) with
  | Some (v, r) => match skip_ws r with [] => Some v | _ :: _ => None end
  | None => None
  end.

(** A parser that succeeds leaves less than it was given. *)
Definition consumes {A} (p : parser A) : Prop :=
  forall s a r, p s = Some (a, r) -> List.length r < List.length s.

(** Where [p] succeeds, [p'] does the same as soon as [n] is twice what
    was read. *)
Definition refines {A} (n : nat) (p p' : parser A) : Prop :=
  forall s a r, p s = Some (a, r) ->
    2 * (List.length s - List.length r) <= n -> p' s = Some (a, r).

(** ** What the routes ask of a parsed value *)

Definition digits_value (d : str) : Z :=
  fold_left (fun a c => 10 * a + (Z.of_N c - 48))%Z d 0%Z.

(** The exponent part of a number lexeme, at the [e] if there is one. *)
Definition exponent_value (s : str) : Z :=
  match s with
  | _ :: 45%N :: d => (- digits_value d)%Z
  | _ :: 43%N :: d => digits_value d
  | _ :: d => digits_value d
  | [] => 0%Z
  end.

(** Whether the double nearest to a number lexeme is zero: the digits are
    all zero, or the value [d * 10^x] is at most [2^-1075], half the least
    positive double, which rounds to the even neighbour, zero. *)
Definition number_is_zero (lexeme : str) : bool :=
  let body := match lexeme with 45%N :: r => r | _ => lexeme end in
  let (i, r1) := take_digits body in
  let (f, r2) :=
    match r1 with
    | 46%N :: r => take_digits r
    | _ => ([], r1)
    end in
  let d := digits_value (i ++ f) in
  let x := (exponent_value r2 - Z.of_nat (List.length f))%Z in
  ((d =? 0) || (x <? 0) && (d * 2 ^ 1075 <=? 10 ^ (- x)))%Z.

(** [Boolean(v)], the test of [v ? a : b] and of [v || d]. *)
Definition truthy (v : json) : bool :=
  match v with
  | JNull => false
  | JBool b => b
  | JNum n => negb (number_is_zero n)
  | JStr s => nonempty s
  | JArr _ | JObj _ => true
  end.

(** The value of the last member named [k]: a repeated key overwrites. *)
Fixpoint last_member (k : str) (ms : list (str * json)) : option json :=
  match ms with
  | [] => None
  | (k', v) :: ms' =>
      match last_member k ms' with
      | Some v' => Some v'
      | None => if eqb k k' then Some v else None
      end
  end.

(** [v.public]: [None] is the TypeError of reading a property of [null];
    [Some None] is [undefined], which every value other than an object
    with that member answers. *)
Definition get_public (v : json) : option (option json) :=
  match v with
  | JNull => None
  | JObj ms => Some (last_member (lit "public") ms)
  | _ => Some None
  end.

(** A JSON text of the examples, written with ['] for the double quote. *)
Definition jlit (s : string) : str :=
  map (fun c => if (c =? 39)%N then 34%N else c) (lit s).

End Json.

Import Json.

(* ================================================================== *)
(** * Errors, responses and the environment *)

(** What a route can catch; only the message of an error is ever read.
    [Error] is a plain [new Error(message)]; [MulterError] is multer's own
    class, with its [code]. *)
Inductive exn : Type :=
| TypeError (message : string)
| DbError (message : string)
| S3Error (message : string)
| BcryptError (message : string)
| FsError (message : string)
| Error (message : string)
| MulterError (code : string) (message : string).

Definition exn_message (e : exn) : string :=
  match e with
  | TypeError m | DbError m | S3Error m | BcryptError m | FsError m
  | Error m | MulterError _ m => m
  end.

(** A value the database driver hands to JavaScript.  [VBig z] is a
    [bigint], which the driver delivers as the decimal string of [z]. *)
Inductive datum : Type :=
| VNull
| VNum (z : Z)
| VBig (z : Z)
| VStr (s : str)
| VJson (j : json)
| VDate (t : N).

(** A result row: the object whose properties are the selected columns. *)
Definition row := list (string * datum).

Fixpoint field (k : string) (r : row) : option datum :=
  match r with
  | [] => None
  | (k', v) :: r' => if String.eqb k k' then Some v else field k r'
  end.

(** The payload of a response.  [BUnhandled] is Express's final handler,
    reached through [next(err)] when no route caught the error. *)
Inductive Body : Type :=
| BMessage (message : string)
| BMessageUser (message : string) (user : row)
| BMessageAsset (message : string) (asset : row)
| BVisibility (public_files private_files : datum)
| BUnhandled (e : exn).

Record Response := { status : N; body : Body }.

(** The signed claims of a token, [{ id, role }]. *)
Record Claims := { c_id : option Z; c_role : option str }.

(** What the process reads from outside itself. *)
Record Env := {
  AWS_S3_BUCKET : option str;
  AWS_REGION : option str;
  upload_dir : str;                   (* path.join(__dirname, "../uploads") *)
  staged_at : N;                      (* Date.now() in multer's filename *)
  date_now : N;                       (* Date.now() in the upload handler *)
  current_timestamp : N;              (* CURRENT_TIMESTAMP of the database *)
  jwt_verify : str -> option Claims;  (* jwt.verify with JWT_SECRET *)
  bcrypt_hash : str -> N -> str;      (* bcrypt.hash(data, rounds) *)
  JSON_stringify : json -> str;       (* JSON.stringify *)
  db_fault : nat -> option string;    (* the n-th query fails to run *)
  s3_put_fault : option string;       (* the transfer fails: the network,
                                         the credentials, an unset bucket *)
  s3_delete_fault : option string     (* the DeleteObject call fails *)
}.

(** [`${process.env.X}`] *)
Definition env_text (v : option str) : str :=
  match v with Some s => s | None => lit "undefined" end.

(* ================================================================== *)
(** * The ledger: tables [users] and [assets] of the schema *)

Module Pg.

(** [users]: id SERIAL PRIMARY KEY, name VARCHAR(100), email VARCHAR(255)
    UNIQUE NOT NULL, password VARCHAR(255) NOT NULL, role VARCHAR(50)
    DEFAULT 'user', created_at TIMESTAMP DEFAULT CURRENT_TIMESTAMP. *)
Record User := {
  u_id : Z;
  u_name : option str;
  u_email : str;
  u_password : str;
  u_role : option str;
  u_created_at : option N
}.

(** [assets]: id UUID PRIMARY KEY, filename VARCHAR(255) NOT NULL, filepath
    TEXT NOT NULL, uploader_id INT REFERENCES users(id) ON DELETE CASCADE,
    size BIGINT, mimetype VARCHAR(100), tags TEXT, permissions JSON DEFAULT
    '{"public": false}', created_at TIMESTAMP DEFAULT CURRENT_TIMESTAMP. *)
Record Asset := {
  a_id : str;
  a_filename : str;
  a_filepath : str;
  a_uploader_id : option Z;
  a_size : option Z;
  a_mimetype : option str;
  a_tags : option str;
  a_permissions : option json;
  a_created_at : option N
}.

Record Db := {
  users : list User;
  users_id_seq : Z;        (* last value of the sequence behind users.id *)
  assets : list Asset
}.

Definition opt {A} (f : A -> datum) (o : option A) : datum :=
  match o with Some a => f a | None => VNull end.

(** [SELECT *] / [RETURNING *] on [users]. *)
Definition user_row (u : User) : row :=
  [ ("id", VNum (u_id u)); ("name", opt VStr (u_name u));
    ("email", VStr (u_email u)); ("password", VStr (u_password u));
    ("role", opt VStr (u_role u)); ("created_at", opt VDate (u_created_at u)) ]%string.

(** [SELECT *] / [RETURNING *] on [assets]. *)
Definition asset_row (a : Asset) : row :=
  [ ("id", VStr (a_id a)); ("filename", VStr (a_filename a));
    ("filepath", VStr (a_filepath a)); ("uploader_id", opt VNum (a_uploader_id a));
    ("size", opt VBig (a_size a)); ("mimetype", opt VStr (a_mimetype a));
    ("tags", opt VStr (a_tags a)); ("permissions", opt VJson (a_permissions a));
    ("created_at", opt VDate (a_created_at a)) ]%string.

(** The number of characters of a text: a surrogate pair is one. *)
Fixpoint char_length (s : str) : nat :=
  match s with
  | [] => 0
  | h :: t =>
      match t with
      | l :: t' =>
          if ((55296 <=? h) && (h <=? 56319) && (56320 <=? l) && (l <=? 57343))%N
          then S (char_length t') else S (char_length t)
      | [] => 1
      end
  end.

(** The text after the first [n] characters. *)
Fixpoint skip_chars (n : nat) (s : str) : str :=
  match n with
  | O => s
  | S n' =>
      match s with
      | [] => []
      | h :: t =>
          match t with
          | l :: t' =>
              if ((55296 <=? h) && (h <=? 56319) && (56320 <=? l) && (l <=? 57343))%N
              then skip_chars n' t' else skip_chars n' t
          | [] => []
          end
      end
  end.

(** A value assigned to a [VARCHAR(n)] column: a text of more than [n]
    characters is an error, unless the characters in excess are all
    spaces, which are cut off.  [None] is the error. *)
Definition varchar (n : nat) (v : option str) : option (option str) :=
  match v with
  | None => Some None
  | Some s =>
      let excess := skip_chars n s in
      if forallb (N.eqb 32) excess
      then Some (Some (firstn (List.length s - List.length excess) s))
      else None
  end.

(** An identifier as the database quotes it in a message. *)
Definition quoted (name : string) : string :=
  String (ascii_of_N 34) (name ++ String (ascii_of_N 34) EmptyString).

Definition too_long (n : string) : exn :=
  DbError ("value too long for type character varying(" ++ n ++ ")").

Definition not_null (column relation : string) : exn :=
  DbError ("null value in column " ++ quoted column ++ " of relation "
           ++ quoted relation ++ " violates not-null constraint").

Definition duplicate_key (constraint : string) : exn :=
  DbError ("duplicate key value violates unique constraint "
           ++ quoted constraint).

(** [x = $1] with a nullable parameter: never true of NULL. *)
Definition sql_eq_str (x : str) (p : option str) : bool :=
  match p with Some s => eqb x s | None => false end.

Definition sql_eq_int (x : option Z) (p : option Z) : bool :=
  match x, p with Some a, Some b => Z.eqb a b | _, _ => false end.

(** [SELECT * FROM users WHERE email = $1] *)
Definition select_users_by_email (email : option str) (d : Db) : list User :=
  filter (fun u => sql_eq_str (u_email u) email) (users d).

(** [INSERT INTO users (name, email, password, role) VALUES ($1, $2, $3, $4)
    RETURNING *].  The values are brought to the length of their columns
    first; a value that is too long fails the statement before the
    sequence is asked.  The id is then the sequence's next value, which
    stays spent when a constraint fails afterwards; created_at takes its
    default. *)
Definition insert_user (now : N) (name email password role : option str)
    (d : Db) : (exn + User) * Db :=
  match varchar 100 name with
  | None => (inl (too_long "100"), d)
  | Some name =>
  match varchar 255 email with
  | None => (inl (too_long "255"), d)
  | Some email =>
  match varchar 255 password with
  | None => (inl (too_long "255"), d)
  | Some password =>
  match varchar 50 role with
  | None => (inl (too_long "50"), d)
  | Some role =>
      let id := (users_id_seq d + 1)%Z in
      let d1 := {| users := users d; users_id_seq := id; assets := assets d |} in
      if (2147483647 <? id)%Z then (inl (DbError "integer out of range"), d1)
      else
        match email, password with
        | None, _ => (inl (not_null "email" "users"), d1)
        | _, None => (inl (not_null "password" "users"), d1)
        | Some e, Some p =>
            if existsb (fun u => Z.eqb (u_id u) id) (users d)
            then (inl (duplicate_key "users_pkey"), d1)
            else if existsb (fun u => eqb (u_email u) e) (users d)
            then (inl (duplicate_key "users_email_key"), d1)
            else
              let u := {| u_id := id; u_name := name; u_email := e;
                          u_password := p; u_role := role;
                          u_created_at := Some now |} in
              (inr u, {| users := users d ++ [u]; users_id_seq := id;
                         assets := assets d |})
        end
  end end end end.

(** The values an [INSERT INTO assets] proposes for the columns other than
    [created_at]: what the statement supplies for a column it lists, [None]
    being NULL, and for [id], which has no DEFAULT in the schema, [None]
    when the statement does not list it. *)
Record AssetValues := {
  i_id : option str;
  i_filename : option str;
  i_filepath : option str;
  i_mimetype : option str;
  i_uploader_id : option Z;
  i_size : option Z;
  i_tags : option str;
  i_permissions : option str       (* a JSON text, read by the json type *)
}.

(** [INSERT INTO assets (...) VALUES (...) RETURNING *]: the values are
    read into their column types and brought to the length of their
    columns, then NOT NULL, the primary key and the foreign key are
    checked. *)
Definition insert_asset (now : N) (v : AssetValues) (d : Db)
    : (exn + Asset) * Db :=
  match match i_permissions v with
        | None => Some None
        | Some t => option_map Some (parse t)
        end with
  | None => (inl (DbError "invalid input syntax for type json"), d)
  | Some perms =>
      match varchar 255 (i_filename v) with
      | None => (inl (too_long "255"), d)
      | Some filename =>
      match varchar 100 (i_mimetype v) with
      | None => (inl (too_long "100"), d)
      | Some mimetype =>
        match i_id v, filename, i_filepath v with
        | None, _, _ => (inl (not_null "id" "assets"), d)
        | _, None, _ => (inl (not_null "filename" "assets"), d)
        | _, _, None => (inl (not_null "filepath" "assets"), d)
        | Some id, Some fn, Some fp =>
            if existsb (fun a => eqb (a_id a) id) (assets d)
            then (inl (duplicate_key "assets_pkey"), d)
            else if match i_uploader_id v with
                    | Some u => negb (existsb (fun x => Z.eqb (u_id x) u) (users d))
                    | None => false
                    end
            then (inl (DbError
                         ("insert or update on table " ++ quoted "assets"
                          ++ " violates foreign key constraint "
                          ++ quoted "assets_uploader_id_fkey")), d)
            else
              let a := {| a_id := id; a_filename := fn; a_filepath := fp;
                          a_uploader_id := i_uploader_id v;
                          a_size := i_size v; a_mimetype := mimetype;
                          a_tags := i_tags v; a_permissions := perms;
                          a_created_at := Some now |} in
              (inr a, {| users := users d; users_id_seq := users_id_seq d;
                         assets := assets d ++ [a] |})
        end
      end end
  end.

(** [DELETE FROM assets WHERE <cond> RETURNING *]: one statement removes
    every row the condition holds of and returns them. *)
Definition delete_assets (cond : Asset -> bool) (d : Db) : list Asset * Db :=
  (filter cond (assets d),
   {| users := users d; users_id_seq := users_id_seq d;
      assets := filter (fun a => negb (cond a)) (assets d) |}).

(** [WHERE filename = $1 AND uploader_id = $2] *)
Definition owned_by (filename : str) (uploader : option Z) (a : Asset) : bool :=
  eqb (a_filename a) filename && sql_eq_int (a_uploader_id a) uploader.

(** [WHERE filename = $1] *)
Definition named (filename : str) (a : Asset) : bool :=
  eqb (a_filename a) filename.

(** ** The visibility aggregate *)

(** The text [json ->> key] extracts; an object or an array is extracted
    as its own text, of which only the opening bracket matters below. *)
Inductive extracted : Type :=
| XNull
| XText (t : str)
| XComposite.

(** [permissions ->> 'public'] on a [json] column: NULL unless the value is
    an object with that member and the member is not [null]. *)
Definition arrow_text (j : option json) (k : str) : extracted :=
  match j with
  | Some (JObj ms) =>
      match last_member k ms with
      | None | Some JNull => XNull
      | Some (JBool true) => XText (lit "true")
      | Some (JBool false) => XText (lit "false")
      | Some (JNum n) => XText n
      | Some (JStr t) => XText t
      | Some (JArr _) | Some (JObj _) => XComposite
      end
  | _ => XNull
  end.

Definition lower (c : N) : N :=
  (if (65 <=? c) && (c <=? 90) then c + 32 else c)%N.

(** C's [isspace] in the database's input functions. *)
Definition is_blank (c : N) : bool :=
  ((c =? 32) || (9 <=? c) && (c <=? 13))%N.

Fixpoint strip_blank (s : str) : str :=
  match s with
  | c :: s' => if is_blank c then strip_blank s' else s
  | [] => []
  end.

(** A non-empty prefix of [word], letter case apart. *)
Definition abbreviates (word : string) (t : str) : bool :=
  match t with
  | [] => false
  | _ :: _ =>
      match strip_prefix (map lower t) (lit word) with
      | Some _ => true
      | None => false
      end
  end.

(** [text::boolean]: blanks around the word are dropped; true, false, yes
    and no may be abbreviated, on and off down to two letters, and 1 and 0
    stand alone.  [None] is the error "invalid input syntax". *)
Definition bool_in (t : str) : option bool :=
  let w := rev (strip_blank (rev (strip_blank t))) in
  match map lower w with
  | 116%N :: _ => if abbreviates "true" w then Some true else None
  | 102%N :: _ => if abbreviates "false" w then Some false else None
  | 121%N :: _ => if abbreviates "yes" w then Some true else None
  | 110%N :: _ => if abbreviates "no" w then Some false else None
  | 111%N :: _ :: _ =>
      if abbreviates "on" w then Some true
      else if abbreviates "off" w then Some false else None
  | [49%N] => Some true
  | [48%N] => Some false
  | _ => None
  end.

Definition invalid_boolean : exn :=
  DbError "invalid input syntax for type boolean".

(** [(permissions ->> 'public')::boolean::int] of one row. *)
Definition public_int (a : Asset) : exn + option Z :=
  match arrow_text (a_permissions a) (lit "public") with
  | XNull => inr None
  | XComposite => inl invalid_boolean
  | XText t =>
      match bool_in t with
      | Some true => inr (Some 1%Z)
      | Some false => inr (Some 0%Z)
      | None => inl invalid_boolean
      end
  end.

(** [SUM(e)] over the rows: NULL when no row has a value that is not NULL;
    the first row whose expression fails aborts the statement. *)
Fixpoint sum_public (rows : list Asset) : exn + option Z :=
  match rows with
  | [] => inr None
  | a :: rest =>
      match public_int a with
      | inl e => inl e
      | inr x =>
          match sum_public rest with
          | inl e => inl e
          | inr acc =>
              inr match x, acc with
                  | Some n, Some m => Some (n + m)%Z
                  | Some n, None => Some n
                  | None, _ => acc
                  end
          end
      end
  end.

(** [COUNT( * )] *)
Definition count_assets (d : Db) : Z := Z.of_nat (List.length (assets d)).

(** [SELECT SUM(...) AS public_files, COUNT( * ) - SUM(...) AS private_files
    FROM assets]: an operand that is NULL makes the difference NULL. *)
Definition select_visibility (d : Db) : exn + (option Z * option Z) :=
  match sum_public (assets d) with
  | inl e => inl e
  | inr s =>
      inr (s, match s with
              | Some n => Some (count_assets d - n)%Z
              | None => None
              end)
  end.

End Pg.

(* ================================================================== *)
(** * The world of a request and the monad of a route *)

(** An object in the bucket. *)
Record S3Object := {
  o_key : str;
  o_size : N;
  o_content_type : str;
  o_acl : string
}.

(** The calls a request makes on its collaborators, oldest first. *)
Inductive Event : Type :=
| EvQuery (statement : string)
| EvStage (path : str)                  (* multer wrote the upload to disk *)
| EvS3Put (key : str) (acl : string)
| EvS3Delete (key : option str)
| EvUnlink (path : str).

Record World := {
  db : Pg.Db;
  bucket : list S3Object;
  disk : list str;                        (* the files that exist, by path *)
  queries : nat;                          (* queries sent so far *)
  trace : list Event
}.

Inductive Outcome (A : Type) : Type :=
| Return (a : A)
| Throw (e : exn).
Arguments Return {A} a.
Arguments Throw {A} e.

(** A computation of a route: it reads and writes the world and either
    returns or throws; what it wrote before a throw stays written. *)
Definition M (A : Type) : Type := World -> Outcome A * World.

Definition ret {A} (a : A) : M A := fun w => (Return a, w).

Definition throw {A} (e : exn) : M A := fun w => (Throw e, w).

Definition bind {A B} (m : M A) (k : A -> M B) : M B :=
  fun w =>
    match m w with
    | (Return a, w') => k a w'
    | (Throw e, w') => (Throw e, w')
    end.

(** [try { m } catch (error) { h error }] *)
Definition try_catch {A} (m : M A) (h : exn -> M A) : M A :=
  fun w =>
    match m w with
    | (Return a, w') => (Return a, w')
    | (Throw e, w') => h e w'
    end.

Declare Scope route_scope.
Delimit Scope route_scope with route.
Notation "x <- m ;; k" := (bind m (fun x => k))
  (at level 61, m at next level, right associativity) : route_scope.
Notation "m ;;; k" := (bind m (fun _ => k))
  (at level 61, right associativity) : route_scope.
Local Open Scope route_scope.

(** ** Updates of the world *)

Definition logged (e : Event) (w : World) : World :=
  {| db := db w; bucket := bucket w; disk := disk w;
     queries := queries w; trace := trace w ++ [e] |}.

(** A query has been sent. *)
Definition sent (statement : string) (w : World) : World :=
  {| db := db w; bucket := bucket w; disk := disk w;
     queries := S (queries w); trace := trace w ++ [EvQuery statement] |}.

Definition with_db (d : Pg.Db) (w : World) : World :=
  {| db := d; bucket := bucket w; disk := disk w;
     queries := queries w; trace := trace w |}.

Definition with_bucket (b : list S3Object) (w : World) : World :=
  {| db := db w; bucket := b; disk := disk w;
     queries := queries w; trace := trace w |}.

Definition with_disk (f : list str) (w : World) : World :=
  {| db := db w; bucket := bucket w; disk := f;
     queries := queries w; trace := trace w |}.

(** [await pool.query(statement, ...)]: the query reaches the database
    unless the environment says this one does not; [run] is the
    statement's effect on the tables. *)
Definition query {A} (env : Env) (statement : string)
    (run : Pg.Db -> (exn + A) * Pg.Db) : M A :=
  fun w =>
    match db_fault env (queries w) with
    | Some m => (Throw (DbError m), sent statement w)
    | None =>
        match run (db w) with
        | (inl e, d) => (Throw e, with_db d (sent statement w))
        | (inr a, d) => (Return a, with_db d (sent statement w))
        end
    end.

Definition remove_path (p : str) (l : list str) : list str :=
  filter (fun q => negb (eqb q p)) l.

Definition without_key (k : str) (b : list S3Object) : list S3Object :=
  filter (fun o => negb (eqb (o_key o) k)) b.

(** [fs.existsSync(path)] *)
Definition exists_sync (p : str) : M bool :=
  fun w => (Return (existsb (eqb p) (disk w)), w).

(** [fs.unlinkSync(path)] *)
Definition unlink_sync (p : str) : M unit :=
  fun w =>
    if existsb (eqb p) (disk w)
    then (Return tt, with_disk (remove_path p (disk w)) (logged (EvUnlink p) w))
    else (Throw (FsError "ENOENT: no such file or directory, unlink"),
          logged (EvUnlink p) w).

(** [await new Upload({ client, params }).done()]: the object is stored
    under its key, replacing an older one, unless the transfer fails. *)
Definition s3_upload (env : Env) (o : S3Object) : M unit :=
  fun w =>
    let w1 := logged (EvS3Put (o_key o) (o_acl o)) w in
    match s3_put_fault env with
    | Some m => (Throw (S3Error m), w1)
    | None => (Return tt, with_bucket (without_key (o_key o) (bucket w) ++ [o]) w1)
    end.

(** [await s3.send(new DeleteObjectCommand({ Bucket, Key }))]: a key that
    is [undefined] is refused by the client before any request; any other
    key, the empty one too, is sent; deleting a key that holds no object
    succeeds. *)
Definition s3_delete (env : Env) (key : option str) : M unit :=
  fun w =>
    let w1 := logged (EvS3Delete key) w in
    match key with
    | None =>
        (Throw (S3Error "No value provided for input HTTP label: Key."), w1)
    | Some k =>
        match s3_delete_fault env with
        | Some m => (Throw (S3Error m), w1)
        | None => (Return tt, with_bucket (without_key k (bucket w)) w1)
        end
    end.

(** multer's disk storage writes the incoming file under [path]. *)
Definition write_file (p : str) : M unit :=
  fun w => (Return tt,
            with_disk (remove_path p (disk w) ++ [p]) (logged (EvStage p) w)).

(** multer removes what it wrote when it aborts a request. *)
Definition remove_uploaded (p : str) : M unit :=
  fun w => (Return tt,
            with_disk (remove_path p (disk w)) (logged (EvUnlink p) w)).

(** A route ends with the response it sent; an error nobody caught reaches
    Express's final handler, which answers 500. *)
Definition respond (m : M Response) (w : World) : Response * World :=
  match m w with
  | (Return r, w') => (r, w')
  | (Throw e, w') => ({| status := 500; body := BUnhandled e |}, w')
  end.

Definition json_message (code : N) (m : string) : Response :=
  {| status := code; body := BMessage m |}.

(* ================================================================== *)
(** * middleware/auth.js and middleware/role.js *)

Module Middleware.

(** [authenticateToken]: the token is the second piece of the header split
    at spaces; [inl] is the response that ends the request, [inr] the
    claims stored in [req.user]. *)
Definition authenticateToken (env : Env) (authorization : option str)
    : Response + Claims :=
  let token :=
    match authorization with
    | None | Some [] => None
    | Some h => nth_error (split (lit " ") h) 1
    end in
  match token with
  | None | Some [] => inl (json_message 401 "Access denied. No token provided.")
  | Some t =>
      match jwt_verify env t with
      | None => inl (json_message 403 "Invalid token")
      | Some user => inr user
      end
  end.

(** [requireRole(...allowedRoles)] *)
Definition requireRole (allowedRoles : list str) (user : Claims)
    : option Response :=
  match c_role user with
  | None | Some [] => Some (json_message 401 "No role found")
  | Some role =>
      if existsb (eqb role) allowedRoles then None
      else Some (json_message 403 "Forbidden: insufficient role")
  end.

End Middleware.

(* ================================================================== *)
(** * routes/auth.js *)

Module Auth.

(** The JSON body of [POST /auth/register]; [role] is a member a client
    may add, which the route never reads. *)
Record RegisterBody := {
  name : option str;
  email : option str;
  password : option str;
  role : option str
}.

Definition select_user_statement : string :=
  "SELECT * FROM users WHERE email = $1".

Definition insert_user_statement : string :=
  "INSERT INTO users (name, email, password, role) VALUES ($1, $2, $3, $4) RETURNING *".

Definition register_handler (env : Env) (b : RegisterBody) : M Response :=
  try_catch
    (userExists <- query env select_user_statement
                     (fun d => (inr (Pg.select_users_by_email (email b) d), d)) ;;
     match userExists with
     | _ :: _ => ret (json_message 400 "User already exists")
     | [] =>
         hashedPassword <-
           match password b with
           | Some p => ret (bcrypt_hash env p 10)
           | None => throw (BcryptError "data and salt arguments required")
           end ;;
         newUser <- query env insert_user_statement
           (Pg.insert_user (current_timestamp env) (name b) (email b)
              (Some hashedPassword) (Some (lit "user"))) ;;
         ret {| status := 201;
                body := BMessageUser "User registered successfully"
                          (Pg.user_row newUser) |}
     end)
    (fun _ => ret (json_message 500 "Server error during registration")).

Definition register (env : Env) (b : RegisterBody) (w : World)
    : Response * World :=
  respond (register_handler env b) w.

(** The same body with another [role] member. *)
Definition with_role (r : option str) (b : RegisterBody) : RegisterBody :=
  {| name := name b; email := email b; password := password b; role := r |}.

End Auth.

(* ================================================================== *)
(** * routes/assets.js *)

Module Assets.

(** The part named [file] of a multipart request, as multer's parser
    hands it on: [originalname] is the base name the client sent,
    [mimetype] the media type of the part's Content-Type header, in lower
    case and without its parameters, [size] the number of bytes of the
    content. *)
Record FilePart := {
  originalname : str;
  mimetype : str;
  size : N
}.

Record UploadRequest := {
  up_authorization : option str;
  up_file : option FilePart;
  up_tags : option str;             (* req.body.tags *)
  up_permissions : option str       (* req.body.permissions *)
}.

(** [req.file] as the disk storage leaves it. *)
Record StagedFile := {
  f_filename : str;
  f_mimetype : str;
  f_path : str;
  f_size : N
}.

Definition allowed : list str :=
  [lit "image/jpeg"; lit "image/png"; lit "application/pdf"].

(** [limits.fileSize] *)
Definition fileSize : N := 5 * 1024 * 1024.

Definition fileFilter (file : FilePart) : exn + unit :=
  if negb (existsb (eqb (mimetype file)) allowed)
  then inl (Error "Only JPEG, PNG, and PDF files are allowed")
  else inr tt.

(** [filename] of the disk storage: [`${Date.now()}-${file.originalname}`]. *)
Definition staged_name (env : Env) (file : FilePart) : str :=
  of_N (staged_at env) ++ lit "-" ++ originalname file.

(** Where the disk storage puts the file: [destination] joined with
    [filename]. *)
Definition staged_path (env : Env) (file : FilePart) : str :=
  upload_dir env ++ lit "/" ++ staged_name env file.

(** [upload.single("file")]: the filter runs on the media type of the
    part before anything is written; the storage then writes the stream to disk, and a
    stream longer than the limit aborts the request, removing what was
    written. *)
Definition upload_single (env : Env) (part : option FilePart)
    : M (option StagedFile) :=
  match part with
  | None => ret None
  | Some file =>
      match fileFilter file with
      | inl e => throw e
      | inr _ =>
          let filename := staged_name env file in
          let path := staged_path env file in
          write_file path ;;;
          if (fileSize <? size file)%N then
            remove_uploaded path ;;;
            throw (MulterError "LIMIT_FILE_SIZE" "File too large")
          else
            ret (Some {| f_filename := filename; f_mimetype := mimetype file;
                         f_path := path; f_size := size file |})
      end
  end.

(** The tags of [req.body.tags]. *)
Definition parse_tags (tags : option str) : json :=
  match tags with
  | None | Some [] => JNull
  | Some t =>
      match parse t with
      | Some v => v
      | None => JArr (map JStr (filter nonempty (map trim (split (lit ",") t))))
      end
  end.

(** The permissions of [req.body.permissions], private by default. *)
Definition parse_permissions (permissions : option str) : json :=
  match permissions with
  | None | Some [] => JObj [(lit "public", JBool false)]
  | Some p =>
      match parse p with
      | Some v => v
      | None =>
          if eqb p (lit "public") then JObj [(lit "public", JBool true)]
          else JObj [(lit "public", JBool false)]
      end
  end.

Definition insert_statement : string :=
  "INSERT INTO assets (filename, filepath, mimetype, uploader_id, size, tags, permissions) VALUES ($1, $2, $3, $4, $5, $6, $7) RETURNING *".

Definition delete_statement : string :=
  "DELETE FROM assets WHERE filename = $1 AND uploader_id = $2 RETURNING *".

(** [error.message || d] *)
Definition or_default (m d : string) : string :=
  match m with EmptyString => d | _ => m end.

(** The parameters of the INSERT, [$1] to [$7]; the statement lists no
    [id]. *)
Definition insert_values (env : Env) (user : Claims) (f : StagedFile)
    (fileUrl : str) (tags permissions : json) : Pg.AssetValues :=
  {| Pg.i_id := None;
     Pg.i_filename := Some (f_filename f);
     Pg.i_filepath := Some fileUrl;
     Pg.i_mimetype := Some (f_mimetype f);
     Pg.i_uploader_id := c_id user;
     Pg.i_size := Some (Z.of_N (f_size f));
     Pg.i_tags := if truthy tags
                  then Some (JSON_stringify env tags) else None;
     Pg.i_permissions := Some (JSON_stringify env permissions) |}.

Definition upload_handler (env : Env) (user : Claims)
    (file : option StagedFile) (body_tags body_permissions : option str)
    : M Response :=
  try_catch
    (match file with
     | None =>
         throw (TypeError
           "Cannot destructure property 'filename' of 'req.file' as it is undefined.")
     | Some f =>
         let tags := parse_tags body_tags in
         let permissions := parse_permissions body_permissions in
         let s3Key := lit "uploads/" ++ of_N (date_now env) ++ lit "-"
                        ++ f_filename f in
         match get_public permissions with
         | None =>
             throw (TypeError "Cannot read properties of null (reading 'public')")
         | Some public =>
             let acl :=
               match public with
               | Some v => if truthy v then "public-read" else "private"
               | None => "private"
               end%string in
             s3_upload env {| o_key := s3Key; o_size := f_size f;
                              o_content_type := f_mimetype f;
                              o_acl := acl |} ;;;
             let fileUrl := lit "https://" ++ env_text (AWS_S3_BUCKET env)
                              ++ lit ".s3." ++ env_text (AWS_REGION env)
                              ++ lit ".amazonaws.com/" ++ s3Key in
             unlink_sync (f_path f) ;;;
             result <- query env insert_statement
               (Pg.insert_asset (current_timestamp env)
                  (insert_values env user f fileUrl tags permissions)) ;;
             ret {| status := 200;
                    body := BMessageAsset "✅ File uploaded successfully to S3"
                              (Pg.asset_row result) |}
         end
     end)
    (fun error =>
       ret (json_message 500 (or_default (exn_message error) "Error uploading file"))).

(** [router.post("/upload", authenticateToken, upload.single("file"), ...)] *)
Definition upload_route (env : Env) (req : UploadRequest) (w : World)
    : Response * World :=
  match Middleware.authenticateToken env (up_authorization req) with
  | inl r => (r, w)
  | inr user =>
      respond (file <- upload_single env (up_file req) ;;
               upload_handler env user file (up_tags req) (up_permissions req)) w
  end.

(** Whether the route made a transfer: a PutObject is among its calls. *)
Definition transfers (calls : list Event) : bool :=
  existsb (fun e => match e with EvS3Put _ _ => true | _ => false end) calls.

(** The claim of the specification about the tags, in its own words, of
    one upload in a world whose trace is empty: the tags the upload goes
    on with are the JSON array that was sent or, the input not being
    JSON, its tokens; an input of any other shape is not accepted, the
    upload is not carried out. *)
Definition tags_as_claimed (env : Env) (req : UploadRequest) (w : World)
    : Prop :=
  match up_tags req with
  | None | Some [] => True
  | Some t =>
      match parse t with
      | Some (JArr items) => parse_tags (Some t) = JArr items
      | Some _ => transfers (trace (snd (upload_route env req w))) = false
      | None =>
          parse_tags (Some t)
          = JArr (map JStr (filter nonempty (map trim (split (lit ",") t))))
      end
  end.

(** [fileUrl.split(".amazonaws.com/")[1]] *)
Definition key_of_locator (fileUrl : str) : option str :=
  nth_error (split (lit ".amazonaws.com/") fileUrl) 1.

Definition delete_handler (env : Env) (user : Claims) (filename : str)
    : M Response :=
  try_catch
    (rows <- query env delete_statement
       (fun d => let (r, d') :=
                   Pg.delete_assets (Pg.owned_by filename (c_id user)) d in
                 (inr r, d')) ;;
     match rows with
     | [] => ret (json_message 404 "File not found or not owned by user")
     | deletedFile :: _ =>
         let fileUrl := Pg.a_filepath deletedFile in
         let key := key_of_locator fileUrl in
         s3_delete env key ;;;
         ret (json_message 200 "🗑️ File deleted successfully from S3")
     end)
    (fun _ => ret (json_message 500 "Error deleting file")).

(** [router.delete("/:filename", authenticateToken, ...)] *)
Definition delete_route (env : Env) (authorization : option str)
    (filename : str) (w : World) : Response * World :=
  match Middleware.authenticateToken env authorization with
  | inl r => (r, w)
  | inr user => respond (delete_handler env user filename) w
  end.

End Assets.

(* ================================================================== *)
(** * routes/admin.js *)

Module Admin.

Definition delete_statement : string :=
  "DELETE FROM assets WHERE filename = $1 RETURNING *".

Definition visibility_statement : string :=
  "SELECT SUM((permissions ->> 'public')::boolean::int) AS public_files, COUNT(*) - SUM((permissions ->> 'public')::boolean::int) AS private_files FROM assets".

Definition delete_handler (env : Env) (filename : str) : M Response :=
  try_catch
    (r <- query env delete_statement
       (fun d => let (r, d') := Pg.delete_assets (Pg.named filename) d in
                 (inr r, d')) ;;
     match r with
     | [] => ret (json_message 404 "Asset not found")
     | first :: _ =>
         let filepath := Pg.a_filepath first in
         present <- (if nonempty filepath then exists_sync filepath
                     else ret false) ;;
         (if present then unlink_sync filepath else ret tt) ;;;
         ret {| status := 200;
                body := BMessageAsset "Asset deleted by admin"
                          (Pg.asset_row first) |}
     end)
    (fun _ => ret (json_message 500 "Error deleting asset")).

(** [router.delete("/assets/:filename", authenticateToken,
    requireRole("admin"), ...)] *)
Definition delete_route (env : Env) (authorization : option str)
    (filename : str) (w : World) : Response * World :=
  match Middleware.authenticateToken env authorization with
  | inl r => (r, w)
  | inr user =>
      match Middleware.requireRole [lit "admin"] user with
      | Some r => (r, w)
      | None => respond (delete_handler env filename) w
      end
  end.

(** [x || 0] on an aggregate the driver delivered. *)
Definition or_zero (x : option Z) : datum :=
  match x with Some z => VBig z | None => VNum 0 end.

Definition visibility_handler (env : Env) : M Response :=
  try_catch
    (result <- query env visibility_statement
       (fun d => (Pg.select_visibility d, d)) ;;
     ret {| status := 200;
            body := BVisibility (or_zero (fst result)) (or_zero (snd result)) |})
    (fun _ => ret (json_message 500 "Error fetching visibility stats")).

(** [router.get("/stats/visibility", authenticateToken,
    requireRole("admin"), ...)] *)
Definition visibility_route (env : Env) (authorization : option str)
    (w : World) : Response * World :=
  match Middleware.authenticateToken env authorization with
  | inl r => (r, w)
  | inr user =>
      match Middleware.requireRole [lit "admin"] user with
      | Some r => (r, w)
      | None => respond (visibility_handler env) w
      end
  end.

(** The number a count of the response stands for. *)
Definition count_of (v : datum) : option Z :=
  match v with
  | VBig z | VNum z => Some z
  | _ => None
  end.

End Admin.

(* ================================================================== *)
(** * A concrete deployment, for the examples *)

Module Example.

(** A serializer for the example environment: it writes a number by its
    lexeme and members as they stand, which is what [JSON.stringify] gives
    on the values the examples pass (no escapes, no repeated keys, numbers
    in their shortest form). *)
Fixpoint stringify (v : json) : str :=
  match v with
  | JNull => lit "null"
  | JBool true => lit "true"
  | JBool false => lit "false"
  | JNum n => n
  | JStr s => 34%N :: s ++ [34%N]
  | JArr items =>
      91%N :: (fix go (l : list json) : str :=
                 match l with
                 | [] => []
                 | [x] => stringify x
                 | x :: l' => stringify x ++ 44%N :: go l'
                 end) items ++ [93%N]
  | JObj ms =>
      123%N :: (fix go (l : list (str * json)) : str :=
                  match l with
                  | [] => []
                  | [(k, x)] => 34%N :: k ++ 34%N :: 58%N :: stringify x
                  | (k, x) :: l' =>
                      34%N :: k ++ 34%N :: 58%N :: stringify x ++ 44%N :: go l'
                  end) ms ++ [125%N]
  end.

(** Two accounts: the token [alice] is user 1, the token [root] is the
    administrator, user 2. *)
Definition verify (token : str) : option Claims :=
  if eqb token (lit "alice")
  then Some {| c_id := Some 1%Z; c_role := Some (lit "user") |}
  else if eqb token (lit "root")
  then Some {| c_id := Some 2%Z; c_role := Some (lit "admin") |}
  else None.

Definition env : Env := {|
  AWS_S3_BUCKET := Some (lit "vault");
  AWS_REGION := Some (lit "ap-south-1");
  upload_dir := lit "/srv/app/uploads";
  staged_at := 1700000000000;
  date_now := 1700000000005;
  current_timestamp := 1700000000009;
  jwt_verify := verify;
  bcrypt_hash := fun data rounds => lit "$2b$" ++ of_N rounds ++ lit "$" ++ data;
  JSON_stringify := stringify;
  db_fault := fun _ => None;
  s3_put_fault := None;
  s3_delete_fault := None
|}.

(** The same deployment while the object store refuses transfers. *)
Definition env_s3_down : Env := {|
  AWS_S3_BUCKET := AWS_S3_BUCKET env;
  AWS_REGION := AWS_REGION env;
  upload_dir := upload_dir env;
  staged_at := staged_at env;
  date_now := date_now env;
  current_timestamp := current_timestamp env;
  jwt_verify := jwt_verify env;
  bcrypt_hash := bcrypt_hash env;
  JSON_stringify := JSON_stringify env;
  db_fault := db_fault env;
  s3_put_fault := Some "connect ETIMEDOUT"%string;
  s3_delete_fault := None
|}.

Definition alice : Pg.User := {|
  Pg.u_id := 1; Pg.u_name := Some (lit "Alice");
  Pg.u_email := lit "alice@example.org";
  Pg.u_password := lit "$2b$10$secret";
  Pg.u_role := Some (lit "user"); Pg.u_created_at := Some 1600000000000%N |}.

Definition root : Pg.User := {|
  Pg.u_id := 2; Pg.u_name := Some (lit "Root");
  Pg.u_email := lit "root@example.org";
  Pg.u_password := lit "$2b$10$hunter2";
  Pg.u_role := Some (lit "admin"); Pg.u_created_at := Some 1600000000001%N |}.

Definition locator : str :=
  lit "https://vault.s3.ap-south-1.amazonaws.com/uploads/1690000000005-1690000000000-cat.png".

(** An asset of Alice's, as an upload would have recorded it. *)
Definition cat (permissions : json) : Pg.Asset := {|
  Pg.a_id := lit "3f2b8c1e-5d4a-4e6f-9a7b-0c1d2e3f4a5b";
  Pg.a_filename := lit "1690000000000-cat.png";
  Pg.a_filepath := locator;
  Pg.a_uploader_id := Some 1%Z;
  Pg.a_size := Some 10%Z;
  Pg.a_mimetype := Some (lit "image/png");
  Pg.a_tags := None;
  Pg.a_permissions := Some permissions;
  Pg.a_created_at := Some 1690000000009%N |}.

Definition cat_object : S3Object := {|
  o_key := lit "uploads/1690000000005-1690000000000-cat.png";
  o_size := 10; o_content_type := lit "image/png"; o_acl := "private" |}.

Definition empty : World := {|
  db := {| Pg.users := [alice; root]; Pg.users_id_seq := 2; Pg.assets := [] |};
  bucket := []; disk := []; queries := 0; trace := [] |}.

(** The world with Alice's asset in the ledger and its object stored. *)
Definition stocked (permissions : json) : World := {|
  db := {| Pg.users := [alice; root]; Pg.users_id_seq := 2;
           Pg.assets := [cat permissions] |};
  bucket := [cat_object]; disk := []; queries := 0; trace := [] |}.

Definition bearer (token : string) : option str :=
  Some (lit "Bearer " ++ lit token).

Definition jpeg : Assets.FilePart := {|
  Assets.originalname := lit "dog.jpg";
  Assets.mimetype := lit "image/jpeg";
  Assets.size := 10 |}.

(** Six mebibytes of plain text. *)
Definition notes : Assets.FilePart := {|
  Assets.originalname := lit "notes.txt";
  Assets.mimetype := lit "text/plain";
  Assets.size := 6 * 1024 * 1024 |}.

(** A JPEG of six mebibytes. *)
Definition poster : Assets.FilePart := {|
  Assets.originalname := lit "poster.jpg";
  Assets.mimetype := lit "image/jpeg";
  Assets.size := 6 * 1024 * 1024 |}.

Definition upload_of (file : Assets.FilePart) (tags permissions : option str)
    : Assets.UploadRequest := {|
  Assets.up_authorization := bearer "alice";
  Assets.up_file := Some file;
  Assets.up_tags := tags;
  Assets.up_permissions := permissions |}.

Definition newcomer : Auth.RegisterBody := {|
  Auth.name := Some (lit "Mallory");
  Auth.email := Some (lit "mallory@example.org");
  Auth.password := Some (lit "pw");
  Auth.role := Some (lit "admin") |}.

End Example.

(* ================================================================== *)
(** * The reading routes

    The routes below answer with what they read; their payload is a JSON
    object or an array of rows. *)

(** A member of a JSON object of a response: a literal of the source, a
    string, a value of the driver, a row. *)
Inductive item : Type :=
| IText (s : string)
| IStr (s : str)
| IDatum (d : datum)
| IRow (r : row).

Inductive Payload : Type :=
| PBody (b : Body)                        (* a payload of the routes above *)
| PObject (members : list (string * item))
| PRows (rows : list row).

Record Reply := { code : N; payload : Payload }.

(** A response of the gates or of a [catch] block, as a reply. *)
Definition reply_of (r : Response) : Reply :=
  {| code := status r; payload := PBody (body r) |}.

Definition answer (m : M Reply) (w : World) : Reply * World :=
  match m w with
  | (Return r, w') => (r, w')
  | (Throw e, w') => ({| code := 500; payload := PBody (BUnhandled e) |}, w')
  end.

Fixpoint member (k : string) (o : list (string * item)) : option item :=
  match o with
  | [] => None
  | (k', v) :: o' => if String.eqb k k' then Some v else member k o'
  end.

(** ** Queries that read *)

Module PgRead.

Import Pg.

(** Insertion into a list ordered by [le], and the sort it gives.  Rows
    with equal keys come in table order here; the database promises no
    order among them. *)
Fixpoint insert_by {A} (le : A -> A -> bool) (x : A) (l : list A) : list A :=
  match l with
  | [] => [x]
  | y :: l' => if le x y then x :: l else y :: insert_by le x l'
  end.

Fixpoint sort_by {A} (le : A -> A -> bool) (l : list A) : list A :=
  match l with
  | [] => []
  | x :: l' => insert_by le x (sort_by le l')
  end.

(** [ORDER BY created_at DESC]: the later first, NULL before all. *)
Definition newer (a b : Asset) : bool :=
  match a_created_at a, a_created_at b with
  | None, _ => true
  | Some _, None => false
  | Some x, Some y => (y <=? x)%N
  end.

(** [WHERE uploader_id = $1] *)
Definition uploaded_by (uploader : option Z) (a : Asset) : bool :=
  sql_eq_int (a_uploader_id a) uploader.

(** [SELECT * FROM assets WHERE uploader_id = $1 ORDER BY created_at DESC] *)
Definition select_assets_of (uploader : option Z) (d : Db) : list Asset :=
  sort_by newer (filter (uploaded_by uploader) (assets d)).

(** [SELECT * FROM assets ORDER BY created_at DESC] *)
Definition select_assets (d : Db) : list Asset :=
  sort_by newer (assets d).

(** [SELECT * FROM assets WHERE filename = $1 AND uploader_id = $2] *)
Definition select_asset (filename : str) (uploader : option Z) (d : Db)
    : list Asset :=
  filter (owned_by filename uploader) (assets d).

(** [SUM(e)]: the sum of the values that are not NULL, NULL without any. *)
Fixpoint sql_sum (l : list (option Z)) : option Z :=
  match l with
  | [] => None
  | x :: l' =>
      match x, sql_sum l' with
      | Some n, Some m => Some (n + m)%Z
      | Some n, None => Some n
      | None, s => s
      end
  end.

(** [COALESCE(x, 0)] *)
Definition coalesce0 (x : option Z) : Z :=
  match x with Some n => n | None => 0%Z end.

(** [SELECT COUNT( * ) AS total_files, COALESCE(SUM(size), 0) AS
    total_storage_bytes FROM assets WHERE uploader_id = $1] *)
Definition select_user_stats (uploader : option Z) (d : Db) : Z * Z :=
  let own := filter (uploaded_by uploader) (assets d) in
  (Z.of_nat (List.length own), coalesce0 (sql_sum (map a_size own))).

(** The bytes of a list of assets, a size that is NULL counting nothing. *)
Definition total_size (l : list Asset) : Z :=
  fold_right (fun a acc => (coalesce0 (a_size a) + acc)%Z) 0%Z l.

(** The order of a result: each row may stand before the next. *)
Definition ordered {A} (le : A -> A -> bool) (l : list A) : Prop :=
  Sorted (fun x y => le x y = true) l.

(** The columns [cols] of a row, in the order of the SELECT list. *)
Definition columns (cols : list string) (r : row) : row :=
  flat_map (fun c => match field c r with
                     | Some v => [(c, v)]
                     | None => []
                     end) cols.

(** [ORDER BY id] *)
Definition by_id (u v : User) : bool := (u_id u <=? u_id v)%Z.

(** [SELECT id, name, email, role, created_at FROM users ORDER BY id] *)
Definition select_users (d : Db) : list row :=
  map (fun u => columns ["id"; "name"; "email"; "role"; "created_at"]%string
                  (user_row u))
      (sort_by by_id (users d)).

(** [SELECT id, name, email, role FROM users WHERE id = $1] *)
Definition select_profile (id : option Z) (d : Db) : list row :=
  map (fun u => columns ["id"; "name"; "email"; "role"]%string (user_row u))
      (filter (fun u => sql_eq_int (Some (u_id u)) id) (users d)).

(** [SELECT COUNT( * ) AS total_users FROM users] *)
Definition count_users (d : Db) : Z := Z.of_nat (List.length (users d)).

(** The grouping key of the storage report: [u.id, u.name, u.email]. *)
Definition owner_key : Type := Z * option str * str.

Definition key_of (u : User) : owner_key := (u_id u, u_name u, u_email u).

Definition opt_eqb {A} (eq : A -> A -> bool) (x y : option A) : bool :=
  match x, y with
  | Some a, Some b => eq a b
  | None, None => true
  | _, _ => false
  end.

(** Equality of grouping keys: two NULLs are one group. *)
Definition key_eqb (k k' : owner_key) : bool :=
  let '(i, n, e) := k in
  let '(i', n', e') := k' in
  Z.eqb i i' && opt_eqb eqb n n' && eqb e e'.

(** [FROM users u LEFT JOIN assets a ON u.id = a.uploader_id], reduced to
    the columns the report reads: a user without assets gives one row
    whose [a.size] is NULL. *)
Definition group (d : Db) (u : User) : list (owner_key * option Z) :=
  match filter (uploaded_by (Some (u_id u))) (assets d) with
  | [] => [(key_of u, None)]
  | matches => map (fun a => (key_of u, a_size a)) matches
  end.

(** The join: the rows of every user, in table order. *)
Definition joined (d : Db) : list (owner_key * option Z) :=
  flat_map (group d) (users d).

(** The distinct keys, in order of first appearance. *)
Fixpoint distinct (l : list owner_key) : list owner_key :=
  match l with
  | [] => []
  | k :: l' => k :: filter (fun k' => negb (key_eqb k k')) (distinct l')
  end.

(** [ORDER BY total_storage_bytes DESC] *)
Definition heavier (x y : owner_key * Z) : bool := (snd y <=? snd x)%Z.

(** [SELECT u.id, u.name, u.email, COALESCE(SUM(a.size), 0) AS
    total_storage_bytes FROM users u LEFT JOIN assets a ON u.id =
    a.uploader_id GROUP BY u.id, u.name, u.email ORDER BY
    total_storage_bytes DESC] *)
Definition select_storage (d : Db) : list (owner_key * Z) :=
  let rows := joined d in
  sort_by heavier
    (map (fun k =>
            (k, coalesce0
                  (sql_sum (map snd (filter (fun r => key_eqb k (fst r)) rows)))))
         (distinct (map fst rows))).

(** A row of the report; the total is a [numeric], which the driver
    delivers, as it does a [bigint], as a decimal string. *)
Definition storage_row (r : owner_key * Z) : row :=
  let '(i, n, e, total) := r in
  [ ("id", VNum i); ("name", opt VStr n); ("email", VStr e);
    ("total_storage_bytes", VBig total) ]%string.

End PgRead.

(** ** What issues and checks credentials at login *)

Record Tokens := {
  bcrypt_compare : str -> str -> bool;   (* bcrypt.compare(data, hash) *)
  jwt_sign : Claims -> option str   (* jwt.sign(payload, JWT_SECRET, 1 hour);
                                       it throws when JWT_SECRET is unset *)
}.

(* ================================================================== *)
(** * routes/auth.js: login *)

Module Login.

Record LoginBody := {
  email : option str;
  password : option str
}.

Definition select_statement : string :=
  "SELECT * FROM users WHERE email = $1".

Definition invalid : Reply :=
  reply_of (json_message 400 "Invalid email or password").

Definition login_handler (env : Env) (tk : Tokens) (b : LoginBody) : M Reply :=
  try_catch
    (user <- query env select_statement
               (fun d => (inr (Pg.select_users_by_email (email b) d), d)) ;;
     match user with
     | [] => ret invalid
     | first :: _ =>
         validPassword <-
           match password b with
           | Some p => ret (bcrypt_compare tk p (Pg.u_password first))
           | None => throw (BcryptError "data and hash arguments required")
           end ;;
         if negb validPassword then ret invalid
         else
           token <-
             match jwt_sign tk {| c_id := Some (Pg.u_id first);
                                  c_role := Pg.u_role first |} with
             | Some t => ret t
             | None => throw (Error "secretOrPrivateKey must have a value")
             end ;;
           ret {| code := 200;
                  payload := PObject [("message", IText "Login successful");
                                      ("token", IStr token)]%string |}
     end)
    (fun _ => ret (reply_of (json_message 500 "Server error during login"))).

(** [router.post("/login", ...)] *)
Definition login (env : Env) (tk : Tokens) (b : LoginBody) (w : World)
    : Reply * World :=
  answer (login_handler env tk b) w.

End Login.

(* ================================================================== *)
(** * server.js: the profile *)

Module Server.

Definition profile_statement : string :=
  "SELECT id, name, email, role FROM users WHERE id = $1".

Definition profile_handler (env : Env) (user : Claims) : M Reply :=
  try_catch
    (rows <- query env profile_statement
               (fun d => (inr (PgRead.select_profile (c_id user) d), d)) ;;
     ret {| code := 200;
            payload :=
              PObject
                (("message", IText "Protected route accessed successfully")
                 :: match rows with
                    | first :: _ => [("user", IRow first)]
                    | [] => []          (* undefined: the member is left out *)
                    end)%string |})
    (fun _ => ret (reply_of (json_message 500 "Error fetching user profile"))).

(** [app.get("/profile", authenticateToken, ...)] *)
Definition profile (env : Env) (authorization : option str) (w : World)
    : Reply * World :=
  match Middleware.authenticateToken env authorization with
  | inl r => (reply_of r, w)
  | inr user => answer (profile_handler env user) w
  end.

End Server.

(* ================================================================== *)
(** * routes/assets.js: the reading routes *)

Module AssetReads.

Definition list_statement : string :=
  "SELECT * FROM assets WHERE uploader_id = $1 ORDER BY created_at DESC".

Definition stats_statement : string :=
  "SELECT COUNT(*) AS total_files, COALESCE(SUM(size), 0) AS total_storage_bytes FROM assets WHERE uploader_id = $1;".

Definition info_statement : string :=
  "SELECT * FROM assets WHERE filename = $1 AND uploader_id = $2".

Definition list_handler (env : Env) (user : Claims) : M Reply :=
  try_catch
    (result <- query env list_statement
                 (fun d => (inr (PgRead.select_assets_of (c_id user) d), d)) ;;
     ret {| code := 200; payload := PRows (map Pg.asset_row result) |})
    (fun _ => ret (reply_of (json_message 500 "Error fetching assets"))).

(** [router.get("/", authenticateToken, ...)] *)
Definition list_route (env : Env) (authorization : option str) (w : World)
    : Reply * World :=
  match Middleware.authenticateToken env authorization with
  | inl r => (reply_of r, w)
  | inr user => answer (list_handler env user) w
  end.

Definition stats_handler (env : Env) (user : Claims) : M Reply :=
  try_catch
    (result <- query env stats_statement
                 (fun d => (inr (PgRead.select_user_stats (c_id user) d), d)) ;;
     ret {| code := 200;
            payload := PObject
                         [("total_files", IDatum (VBig (fst result)));
                          ("total_storage_bytes", IDatum (VBig (snd result)))]%string |})
    (fun _ => ret (reply_of (json_message 500 "Error fetching user stats"))).

(** [router.get("/stats", authenticateToken, ...)] *)
Definition stats_route (env : Env) (authorization : option str) (w : World)
    : Reply * World :=
  match Middleware.authenticateToken env authorization with
  | inl r => (reply_of r, w)
  | inr user => answer (stats_handler env user) w
  end.

Definition info_handler (env : Env) (user : Claims) (filename : str)
    : M Reply :=
  try_catch
    (result <- query env info_statement
                 (fun d => (inr (PgRead.select_asset filename (c_id user) d), d)) ;;
     match result with
     | [] => ret (reply_of (json_message 404 "File not found or not owned by user"))
     | file :: _ =>
         ret {| code := 200;
                payload := PObject
                             [("message", IText "✅ File found");
                              ("file", IRow (Pg.asset_row file));
                              ("s3_url", IStr (Pg.a_filepath file))]%string |}
     end)
    (fun _ => ret (reply_of (json_message 500 "Error fetching file info"))).

(** The router compares a path with the paths of its routes without
    regard to the case of the letters A to Z. *)
Definition fold_case (c : N) : N :=
  (if (65 <=? c) && (c <=? 90) then c + 32 else c)%N.

(** Whether [GET /assets/<segment>] is a request for [/stats]. *)
Definition is_stats (segment : str) : bool :=
  eqb (map fold_case segment) (lit "stats").

(** [router.get("/:filename", authenticateToken, ...)] as a request
    [GET /assets/<filename>] reaches it, [filename] being the segment as
    it is written, without percent escapes.  The router tries its routes
    in the order of their registration: the empty segment is the path of
    [router.get("/")] and the segment stats that of [router.get("/stats")],
    both registered before, and they answer.  Of the two identical
    registrations of "/:filename" the first always answers, so the second
    never runs. *)
Definition info_route (env : Env) (authorization : option str)
    (filename : str) (w : World) : Reply * World :=
  match filename with
  | [] => list_route env authorization w
  | _ :: _ =>
      if is_stats filename then stats_route env authorization w
      else
        match Middleware.authenticateToken env authorization with
        | inl r => (reply_of r, w)
        | inr user => answer (info_handler env user filename) w
        end
  end.

(** [fileUrl] of the upload handler: the locator of the object stored
    under [s3Key]. *)
Definition file_url (env : Env) (s3Key : str) : str :=
  lit "https://" ++ env_text (AWS_S3_BUCKET env) ++ lit ".s3."
    ++ env_text (AWS_REGION env) ++ lit ".amazonaws.com/" ++ s3Key.

(** [s3Key] of the upload handler. *)
Definition s3_key (env : Env) (filename : str) : str :=
  lit "uploads/" ++ of_N (date_now env) ++ lit "-" ++ filename.

(** The separator at which the delete route cuts a locator. *)
Definition amazonaws : str := lit ".amazonaws.com/".

(** Whether no occurrence of [sep] in [a ++ t] begins within [a]. *)
Fixpoint clear_of (sep a t : str) : bool :=
  match a with
  | [] => true
  | _ :: a' =>
      match strip_prefix sep (a ++ t) with
      | Some _ => false
      | None => clear_of sep a' t
      end
  end.

End AssetReads.

(* ================================================================== *)
(** * routes/admin.js: the reading routes *)

Module AdminReads.

Definition users_statement : string :=
  "SELECT id, name, email, role, created_at FROM users ORDER BY id".

Definition assets_statement : string :=
  "SELECT * FROM assets ORDER BY created_at DESC".

Definition count_users_statement : string :=
  "SELECT COUNT(*) AS total_users FROM users".

Definition count_assets_statement : string :=
  "SELECT COUNT(*) AS total_assets FROM assets".

Definition storage_statement : string :=
  "SELECT u.id, u.name, u.email, COALESCE(SUM(a.size), 0) AS total_storage_bytes FROM users u LEFT JOIN assets a ON u.id = a.uploader_id GROUP BY u.id, u.name, u.email ORDER BY total_storage_bytes DESC;".

(** [authenticateToken, requireRole("admin")] before a handler. *)
Definition admin_only (env : Env) (authorization : option str)
    (handler : M Reply) (w : World) : Reply * World :=
  match Middleware.authenticateToken env authorization with
  | inl r => (reply_of r, w)
  | inr user =>
      match Middleware.requireRole [lit "admin"] user with
      | Some r => (reply_of r, w)
      | None => answer handler w
      end
  end.

Definition users_handler (env : Env) : M Reply :=
  try_catch
    (result <- query env users_statement
                 (fun d => (inr (PgRead.select_users d), d)) ;;
     ret {| code := 200; payload := PRows result |})
    (fun _ => ret (reply_of (json_message 500 "Error fetching users"))).

(** [router.get("/users", ...)] *)
Definition users_route (env : Env) (authorization : option str)
    : World -> Reply * World :=
  admin_only env authorization (users_handler env).

Definition assets_handler (env : Env) : M Reply :=
  try_catch
    (q <- query env assets_statement
            (fun d => (inr (PgRead.select_assets d), d)) ;;
     ret {| code := 200; payload := PRows (map Pg.asset_row q) |})
    (fun _ => ret (reply_of (json_message 500 "Error fetching assets"))).

(** [router.get("/assets", ...)] *)
Definition assets_route (env : Env) (authorization : option str)
    : World -> Reply * World :=
  admin_only env authorization (assets_handler env).

Definition count_users_handler (env : Env) : M Reply :=
  try_catch
    (result <- query env count_users_statement
                 (fun d => (inr (PgRead.count_users d), d)) ;;
     ret {| code := 200;
            payload := PObject [("total_users", IDatum (VBig result))]%string |})
    (fun _ => ret (reply_of (json_message 500 "Error fetching user stats"))).

(** [router.get("/stats/users", ...)] *)
Definition count_users_route (env : Env) (authorization : option str)
    : World -> Reply * World :=
  admin_only env authorization (count_users_handler env).

Definition count_assets_handler (env : Env) : M Reply :=
  try_catch
    (result <- query env count_assets_statement
                 (fun d => (inr (Pg.count_assets d), d)) ;;
     ret {| code := 200;
            payload := PObject [("total_assets", IDatum (VBig result))]%string |})
    (fun _ => ret (reply_of (json_message 500 "Error fetching asset stats"))).

(** [router.get("/stats/assets", ...)] *)
Definition count_assets_route (env : Env) (authorization : option str)
    : World -> Reply * World :=
  admin_only env authorization (count_assets_handler env).

Definition storage_handler (env : Env) : M Reply :=
  try_catch
    (result <- query env storage_statement
                 (fun d => (inr (PgRead.select_storage d), d)) ;;
     ret {| code := 200; payload := PRows (map PgRead.storage_row result) |})
    (fun _ => ret (reply_of (json_message 500 "Error fetching storage stats"))).

(** [router.get("/stats/storage", ...)] *)
Definition storage_route (env : Env) (authorization : option str)
    : World -> Reply * World :=
  admin_only env authorization (storage_handler env).

End AdminReads.

(* ================================================================== *)
(** * A deployment that issues tokens, for the examples *)

Module Demo.

(** A token names its role and its id. *)
Definition sign (c : Claims) : str :=
  lit "jwt." ++ match c_role c with Some r => r | None => [] end ++ lit "."
    ++ match c_id c with Some i => of_N (Z.to_N i) | None => [] end.

(** The next account the example table will hold: id 3, role user. *)
Definition mallory : Claims :=
  {| c_id := Some 3%Z; c_role := Some (lit "user") |}.

Definition verify (token : str) : option Claims :=
  if eqb token (sign mallory) then Some mallory else Example.verify token.

Definition tokens : Tokens := {|
  bcrypt_compare := fun data hash => eqb hash (bcrypt_hash Example.env data 10);
  jwt_sign := fun c => Some (sign c)
|}.

Definition env : Env := {|
  AWS_S3_BUCKET := AWS_S3_BUCKET Example.env;
  AWS_REGION := AWS_REGION Example.env;
  upload_dir := upload_dir Example.env;
  staged_at := staged_at Example.env;
  date_now := date_now Example.env;
  current_timestamp := current_timestamp Example.env;
  jwt_verify := verify;
  bcrypt_hash := bcrypt_hash Example.env;
  JSON_stringify := JSON_stringify Example.env;
  db_fault := db_fault Example.env;
  s3_put_fault := None;
  s3_delete_fault := None
|}.

(** A second asset of Alice's, older and without a size, and one of the
    administrator's. *)
Definition dog : Pg.Asset := {|
  Pg.a_id := lit "7a1d3c52-90ab-4cde-8f01-23456789abcd";
  Pg.a_filename := lit "1680000000000-dog.jpg";
  Pg.a_filepath := lit "https://vault.s3.ap-south-1.amazonaws.com/uploads/1680000000005-1680000000000-dog.jpg";
  Pg.a_uploader_id := Some 1%Z;
  Pg.a_size := None;
  Pg.a_mimetype := Some (lit "image/jpeg");
  Pg.a_tags := None;
  Pg.a_permissions := Some (JObj [(lit "public", JBool true)]);
  Pg.a_created_at := Some 1680000000009%N |}.

Definition plan : Pg.Asset := {|
  Pg.a_id := lit "c0ffee00-1234-4abc-9def-0123456789ab";
  Pg.a_filename := lit "1695000000000-plan.pdf";
  Pg.a_filepath := lit "https://vault.s3.ap-south-1.amazonaws.com/uploads/1695000000005-1695000000000-plan.pdf";
  Pg.a_uploader_id := Some 2%Z;
  Pg.a_size := Some 300%Z;
  Pg.a_mimetype := Some (lit "application/pdf");
  Pg.a_tags := None;
  Pg.a_permissions := Some (JObj [(lit "public", JBool false)]);
  Pg.a_created_at := Some 1695000000009%N |}.

Definition library : World := {|
  db := {| Pg.users := [Example.alice; Example.root]; Pg.users_id_seq := 2;
           Pg.assets := [dog; Example.cat (JObj [(lit "public", JBool false)]); plan] |};
  bucket := []; disk := []; queries := 0; trace := [] |}.

End Demo.

(* ================================================================== *)
(** * Facts about strings *)

Lemma eqb_refl (a : str) : eqb a a = true.
Proof.
  induction a as [|x a IH]; simpl; [reflexivity|].
  now rewrite N.eqb_refl, IH.
Qed.

Lemma eqb_eq (a b : str) : eqb a b = true <-> a = b.
Proof.
  split.
  - revert b; induction a as [|x a IH]; intros [|y b] H; simpl in H;
      try discriminate; [reflexivity|].
    apply andb_true_iff in H as [Hx Hab].
    apply N.eqb_eq in Hx. apply IH in Hab. now subst.
  - intros ->. apply eqb_refl.
Qed.

Lemma eqb_neq (a b : str) : eqb a b = false <-> a <> b.
Proof.
  rewrite <- eqb_eq. destruct (eqb a b); split; congruence.
Qed.

(* ================================================================== *)
(** * The budget of [JSON.parse] is never short *)

Section Budget.

Local Abbreviation len := (@List.length N).

Lemma skip_ws_length (s : str) : len (skip_ws s) <= len s.
Proof.
  induction s as [|c s IH]; simpl; [lia|].
  destruct (is_ws c); simpl; lia.
Qed.

Lemma strip_prefix_length (p s r : str) :
  strip_prefix p s = Some r -> len r <= len s.
Proof.
  revert s; induction p as [|x p IH]; intros [|y s]; simpl; intros H;
    try discriminate; try (injection H as <-; simpl; lia).
  destruct (N.eqb x y); [|discriminate]. apply IH in H. lia.
Qed.

Lemma after_length (c : N) (s r : str) :
  after c s = Some r -> len s = S (len r).
Proof.
  destruct s as [|x s]; simpl; [discriminate|].
  destruct (N.eqb x c); [|discriminate]. now intros [= ->].
Qed.

Lemma take_digits_length (s d r : str) :
  take_digits s = (d, r) -> len r <= len s.
Proof.
  revert d r; induction s as [|c s IH]; intros d r; simpl.
  - intros [= <- <-]. simpl; lia.
  - destruct (is_digit c).
    + destruct (take_digits s) as [d' r'] eqn:E. intros [= <- <-].
      specialize (IH _ _ eq_refl). lia.
    + intros [= <- <-]. simpl; lia.
Qed.

Lemma lex_int_length (s i r : str) :
  lex_int s = Some (i, r) -> len r < len s.
Proof.
  unfold lex_int. destruct s as [|c s]; [discriminate|].
  destruct (N.eq_dec c 48) as [-> | Hc].
  - intros [= <- <-]. simpl; lia.
  - assert (H : (if is_digit c
                 then let (d, r') := take_digits s in Some (c :: d, r')
                 else None) = Some (i, r) -> len r < len (c :: s)).
    { destruct (is_digit c); [|discriminate].
      destruct (take_digits s) as [d r'] eqn:E. intros [= <- <-].
      apply take_digits_length in E. simpl; lia. }
    destruct c as [|p]; [exact H|].
    repeat (destruct p as [p|p|]; try exact H); congruence.
Qed.

Lemma lex_frac_length (s f r : str) :
  lex_frac s = Some (f, r) -> len r <= len s.
Proof.
  unfold lex_frac. destruct s as [|c s]; [intros [= <- <-]; lia|].
  destruct (N.eq_dec c 46) as [-> | Hc].
  - destruct (take_digits s) as [[|d ds] r'] eqn:E; [discriminate|].
    intros [= <- <-]. apply take_digits_length in E. simpl; lia.
  - assert (H : Some (@nil N, c :: s) = Some (f, r) -> len r <= len (c :: s))
      by (intros [= <- <-]; lia).
    destruct c as [|p]; [exact H|].
    repeat (destruct p as [p|p|]; try exact H); congruence.
Qed.

Lemma exponent_sign_length (s sign r1 : str) :
  match s with
  | x :: r' => if ((x =? 43) || (x =? 45))%N then ([x], r') else ([], s)
  | [] => ([], s)
  end = (sign, r1) -> len r1 <= len s.
Proof.
  destruct s as [|x s']; [intros [= <- <-]; lia|].
  destruct ((x =? 43) || (x =? 45))%N; intros [= <- <-]; simpl; lia.
Qed.

Lemma lex_exp_length (s e r : str) :
  lex_exp s = Some (e, r) -> len r <= len s.
Proof.
  unfold lex_exp. destruct s as [|c s]; [intros [= <- <-]; lia|].
  destruct ((c =? 101) || (c =? 69))%N; [|intros [= <- <-]; lia].
  destruct (match s with
            | x :: r' => if ((x =? 43) || (x =? 45))%N then ([x], r') else ([], s)
            | [] => ([], s)
            end) as [sign r1] eqn:E.
  apply exponent_sign_length in E.
  destruct (take_digits r1) as [[|d ds] r2] eqn:E2; [discriminate|].
  intros [= <- <-]. apply take_digits_length in E2. simpl; lia.
Qed.

Lemma number_sign_length (s sign r0 : str) :
  match s with
  | 45%N :: r => ([45%N], r)
  | _ => ([], s)
  end = (sign, r0) -> len r0 <= len s.
Proof.
  destruct s as [|c s']; [intros [= <- <-]; lia|].
  destruct (N.eq_dec c 45) as [-> | Hc]; [intros [= <- <-]; simpl; lia|].
  assert (H : (@nil N, c :: s') = (sign, r0) -> len r0 <= len (c :: s'))
    by (intros [= <- <-]; lia).
  destruct c as [|p]; [exact H|].
  repeat (destruct p as [p|p|]; try exact H); congruence.
Qed.

Lemma lex_number_length (s n r : str) :
  lex_number s = Some (n, r) -> len r < len s.
Proof.
  unfold lex_number.
  destruct (match s with
            | 45%N :: r => ([45%N], r)
            | _ => ([], s)
            end) as [sign r0] eqn:E.
  apply number_sign_length in E.
  destruct (lex_int r0) as [[i r1]|] eqn:Ei; [|discriminate].
  destruct (lex_frac r1) as [[f r2]|] eqn:Ef; [|discriminate].
  destruct (lex_exp r2) as [[e r3]|] eqn:Ee; [|discriminate].
  intros [= <- <-].
  apply lex_int_length in Ei. apply lex_frac_length in Ef.
  apply lex_exp_length in Ee. lia.
Qed.

Lemma lex_chars_length (s t r : str) :
  lex_chars s = Some (t, r) -> len r < len s.
Proof.
  remember (len s) as n eqn:Hn.
  assert (Hle : len s <= n) by lia. clear Hn.
  revert s t r Hle.
  induction n as [|n IH]; intros [|c s] t r Hle; simpl in *;
    try discriminate; try lia.
  destruct (c =? 34)%N; [intros [= <- <-]; lia|].
  destruct (c =? 92)%N.
  - destruct s as [|e r1]; [discriminate|].
    destruct (e =? 117)%N.
    + destruct r1 as [|h1 [|h2 [|h3 [|h4 r2]]]]; try discriminate.
      destruct (hex4 h1 h2 h3 h4); [|discriminate].
      destruct (lex_chars r2) as [[t' r']|] eqn:E; [|discriminate].
      intros [= <- <-]. apply IH in E; simpl in *; lia.
    + destruct (escape e); [|discriminate].
      destruct (lex_chars r1) as [[t' r']|] eqn:E; [|discriminate].
      intros [= <- <-]. apply IH in E; simpl in *; lia.
  - destruct (c <? 32)%N; [discriminate|].
    destruct (lex_chars s) as [[t' r']|] eqn:E; [|discriminate].
    intros [= <- <-]. apply IH in E; lia.
Qed.

(** ** Each layer reads something *)

Lemma value_in_consumes el mem :
  consumes el -> consumes mem -> consumes (value_in el mem).
Proof.
  intros Hel Hmem [|c r] v rest; unfold value_in; [discriminate|].
  repeat match goal with
         | |- context [if ?b then _ else _] => destruct b
         end.
  - destruct (strip_prefix _ r) eqn:E; [|discriminate]. intros [= <- <-].
    apply strip_prefix_length in E. simpl; lia.
  - destruct (strip_prefix _ r) eqn:E; [|discriminate]. intros [= <- <-].
    apply strip_prefix_length in E. simpl; lia.
  - destruct (strip_prefix _ r) eqn:E; [|discriminate]. intros [= <- <-].
    apply strip_prefix_length in E. simpl; lia.
  - destruct (lex_chars r) as [[t r']|] eqn:E; [|discriminate].
    intros [= <- <-]. apply lex_chars_length in E. simpl; lia.
  - pose proof (skip_ws_length r) as Hws.
    destruct (after 93 (skip_ws r)) eqn:Ea.
    + intros [= <- <-]. apply after_length in Ea. simpl; lia.
    + destruct (el (skip_ws r)) as [[vs r']|] eqn:E; [|discriminate].
      intros [= <- <-]. apply Hel in E. simpl; lia.
  - pose proof (skip_ws_length r) as Hws.
    destruct (after 125 (skip_ws r)) eqn:Ea.
    + intros [= <- <-]. apply after_length in Ea. simpl; lia.
    + destruct (mem (skip_ws r)) as [[ms r']|] eqn:E; [|discriminate].
      intros [= <- <-]. apply Hmem in E. simpl; lia.
  - destruct (lex_number (c :: r)) as [[n r']|] eqn:E; [|discriminate].
    intros [= <- <-]. now apply lex_number_length in E.
Qed.

Lemma elements_in_consumes val el :
  consumes val -> consumes el -> consumes (elements_in val el).
Proof.
  intros Hval Hel s vs rest; unfold elements_in.
  destruct (val s) as [[v r]|] eqn:Ev; [|discriminate].
  apply Hval in Ev. pose proof (skip_ws_length r) as Hws.
  destruct (after 93 (skip_ws r)) eqn:Ea.
  - intros [= <- <-]. apply after_length in Ea. lia.
  - destruct (after 44 (skip_ws r)) as [r'|] eqn:Ec; [|discriminate].
    apply after_length in Ec. pose proof (skip_ws_length r') as Hws'.
    destruct (el (skip_ws r')) as [[vs' r'']|] eqn:E; [|discriminate].
    intros [= <- <-]. apply Hel in E. lia.
Qed.

Lemma members_in_consumes val mem :
  consumes val -> consumes mem -> consumes (members_in val mem).
Proof.
  intros Hval Hmem s ms rest; unfold members_in.
  destruct (after 34 s) as [r|] eqn:Eq; [|discriminate].
  apply after_length in Eq.
  destruct (lex_chars r) as [[k r1]|] eqn:Ek; [|discriminate].
  apply lex_chars_length in Ek. pose proof (skip_ws_length r1) as Hws1.
  destruct (after 58 (skip_ws r1)) as [r2|] eqn:Ec; [|discriminate].
  apply after_length in Ec. pose proof (skip_ws_length r2) as Hws2.
  destruct (val (skip_ws r2)) as [[v r3]|] eqn:Ev; [|discriminate].
  apply Hval in Ev. pose proof (skip_ws_length r3) as Hws3.
  destruct (after 125 (skip_ws r3)) eqn:Ea.
  - intros [= <- <-]. apply after_length in Ea. lia.
  - destruct (after 44 (skip_ws r3)) as [r4|] eqn:Em; [|discriminate].
    apply after_length in Em. pose proof (skip_ws_length r4) as Hws4.
    destruct (mem (skip_ws r4)) as [[ms' r5]|] eqn:E; [|discriminate].
    intros [= <- <-]. apply Hmem in E. lia.
Qed.

Lemma parsers_consume (f : nat) :
  consumes (value f) /\ consumes (elements f) /\ consumes (members f).
Proof.
  induction f as [|f (Hv & He & Hm)].
  - repeat split; intros s a r; discriminate.
  - repeat split.
    + exact (value_in_consumes _ _ He Hm).
    + exact (elements_in_consumes _ _ Hv He).
    + exact (members_in_consumes _ _ Hv Hm).
Qed.

(** ** Each layer needs no more budget than twice what it reads *)

Lemma value_in_refines g el el' mem mem' :
  consumes el -> consumes mem ->
  refines g el el' -> refines g mem mem' ->
  refines (S g) (value_in el mem) (value_in el' mem').
Proof.
  intros Cel Cmem Rel Rmem [|c r] v rest; unfold value_in; [discriminate|].
  repeat match goal with
         | |- context [if ?b then _ else _] => destruct b
         end; try (intros H _; exact H).
  - pose proof (skip_ws_length r) as Hws.
    destruct (after 93 (skip_ws r)) eqn:Ea; [intros H _; exact H|].
    destruct (el (skip_ws r)) as [[vs r']|] eqn:E; [|discriminate].
    intros [= <- <-] Hn. pose proof (Cel _ _ _ E) as Hc.
    rewrite (Rel _ _ _ E); [reflexivity | cbn [List.length] in Hn; lia].
  - pose proof (skip_ws_length r) as Hws.
    destruct (after 125 (skip_ws r)) eqn:Ea; [intros H _; exact H|].
    destruct (mem (skip_ws r)) as [[ms r']|] eqn:E; [|discriminate].
    intros [= <- <-] Hn. pose proof (Cmem _ _ _ E) as Hc.
    rewrite (Rmem _ _ _ E); [reflexivity | cbn [List.length] in Hn; lia].
Qed.

Lemma elements_in_refines g val val' el el' :
  consumes val -> consumes el ->
  refines g val val' -> refines g el el' ->
  refines (S g) (elements_in val el) (elements_in val' el').
Proof.
  intros Cval Cel Rval Rel s vs rest; unfold elements_in.
  destruct (val s) as [[v r]|] eqn:Ev; [|discriminate].
  pose proof (Cval _ _ _ Ev) as Hv. pose proof (skip_ws_length r) as Hws.
  destruct (after 93 (skip_ws r)) as [r'|] eqn:Ea.
  - intros [= <- <-] Hn. pose proof (after_length _ _ _ Ea) as Hb.
    rewrite (Rval _ _ _ Ev) by lia. now rewrite Ea.
  - destruct (after 44 (skip_ws r)) as [r'|] eqn:Ec; [|discriminate].
    pose proof (after_length _ _ _ Ec) as Hc.
    pose proof (skip_ws_length r') as Hws'.
    destruct (el (skip_ws r')) as [[vs' r'']|] eqn:E; [|discriminate].
    intros [= <- <-] Hn. pose proof (Cel _ _ _ E) as He.
    rewrite (Rval _ _ _ Ev) by lia. rewrite Ea, Ec.
    now rewrite (Rel _ _ _ E) by lia.
Qed.

Lemma members_in_refines g val val' mem mem' :
  consumes val -> consumes mem ->
  refines g val val' -> refines g mem mem' ->
  refines (S g) (members_in val mem) (members_in val' mem').
Proof.
  intros Cval Cmem Rval Rmem s ms rest; unfold members_in.
  destruct (after 34 s) as [r|] eqn:Eq; [|discriminate].
  pose proof (after_length _ _ _ Eq) as Hq.
  destruct (lex_chars r) as [[k r1]|] eqn:Ek; [|discriminate].
  pose proof (lex_chars_length _ _ _ Ek) as Hk.
  pose proof (skip_ws_length r1) as Hws1.
  destruct (after 58 (skip_ws r1)) as [r2|] eqn:Ec; [|discriminate].
  pose proof (after_length _ _ _ Ec) as Hc.
  pose proof (skip_ws_length r2) as Hws2.
  destruct (val (skip_ws r2)) as [[v r3]|] eqn:Ev; [|discriminate].
  pose proof (Cval _ _ _ Ev) as Hv. pose proof (skip_ws_length r3) as Hws3.
  destruct (after 125 (skip_ws r3)) as [r4|] eqn:Ea.
  - intros [= <- <-] Hn. pose proof (after_length _ _ _ Ea) as Hb.
    rewrite (Rval _ _ _ Ev) by lia. now rewrite Ea.
  - destruct (after 44 (skip_ws r3)) as [r4|] eqn:Em; [|discriminate].
    pose proof (after_length _ _ _ Em) as Hm.
    pose proof (skip_ws_length r4) as Hws4.
    destruct (mem (skip_ws r4)) as [[ms' r5]|] eqn:E; [|discriminate].
    intros [= <- <-] Hn. pose proof (Cmem _ _ _ E) as He.
    rewrite (Rval _ _ _ Ev) by lia. rewrite Ea, Em.
    now rewrite (Rmem _ _ _ E) by lia.
Qed.

(** What any budget [f] achieves, the budget [g] achieves as well once it
    is twice what was read. *)
Lemma parsers_refine (f : nat) :
  forall g,
    refines g (value f) (value g)
    /\ refines g (elements f) (elements g)
    /\ refines g (members f) (members g).
Proof.
  induction f as [|f IH]; intros g.
  - repeat split; intros s a r; discriminate.
  - destruct (parsers_consume f) as (Cv & Ce & Cm).
    destruct g as [|g].
    + destruct (parsers_consume (S f)) as (Cv' & Ce' & Cm').
      repeat split; intros s a r H Hn.
      * apply Cv' in H. lia.
      * apply Ce' in H. lia.
      * apply Cm' in H. lia.
    + destruct (IH g) as (Rv & Re & Rm). repeat split.
      * exact (value_in_refines g _ _ _ _ Ce Cm Re Rm).
      * exact (elements_in_refines g _ _ _ _ Cv Ce Rv Re).
      * exact (members_in_refines g _ _ _ _ Cv Cm Rv Rm).
Qed.

(** A text that any budget reads as one value, with nothing but white
    space after it, is parsed to that value: [parse] fails only on what
    the grammar refuses. *)
Lemma parse_complete (s : str) (f : nat) (v : json) (r : str) :
  value f (skip_ws s) = Some (v, r) -> skip_ws r = [] -> parse s = Some v.
Proof.
  intros H Hr. unfold parse.
  destruct (parsers_refine f (2 * len s + 2)) as (Rv & _ & _).
  pose proof (skip_ws_length s) as Hws.
  rewrite (Rv _ _ _ H) by lia. now rewrite Hr.
Qed.

End Budget.

(* ================================================================== *)
(** * Registration *)

(** A text within the length of its column is stored as it is. *)
Lemma char_length_pair (h l : N) (t : str) :
  Pg.char_length (h :: l :: t)
  = if ((55296 <=? h) && (h <=? 56319) && (56320 <=? l) && (l <=? 57343))%N
    then S (Pg.char_length t) else S (Pg.char_length (l :: t)).
Proof. reflexivity. Qed.

Lemma skip_chars_fits (n : nat) (s : str) :
  (Pg.char_length s <= n)%nat -> Pg.skip_chars n s = [].
Proof.
  revert s. induction n as [|n IH]; intros s Hs.
  - destruct s as [|h [|l t]]; [reflexivity | cbn in Hs; lia |].
    rewrite char_length_pair in Hs. revert Hs.
    destruct ((55296 <=? h) && (h <=? 56319) && (56320 <=? l) && (l <=? 57343))%N;
      intros Hs; lia.
  - destruct s as [|h [|l t]]; [reflexivity | reflexivity |].
    cbn [Pg.skip_chars]. rewrite char_length_pair in Hs. revert Hs.
    destruct ((55296 <=? h) && (h <=? 56319) && (56320 <=? l) && (l <=? 57343))%N;
      intros Hs; apply IH; lia.
Qed.

Lemma varchar_fits (n : nat) (s : str) :
  (Pg.char_length s <= n)%nat -> Pg.varchar n (Some s) = Some (Some s).
Proof.
  intros Hs. unfold Pg.varchar. cbv zeta. rewrite (skip_chars_fits n s Hs).
  cbn. now rewrite Nat.sub_0_r, firstn_all.
Qed.

Arguments Pg.varchar : simpl never.
Arguments Pg.insert_user : simpl never.

Section Register.

Variable env : Env.

(** What the INSERT of the route can do to the [users] table. *)
Lemma insert_user_cases now nm em pw rl d :
  let out := Pg.insert_user now nm em pw rl d in
  (exists e, fst out = inl e /\ Pg.users (snd out) = Pg.users d)
  \/ (exists u, fst out = inr u
               /\ Pg.users (snd out) = Pg.users d ++ [u]
               /\ Pg.varchar 50 rl = Some (Pg.u_role u)
               /\ Pg.varchar 255 pw = Some (Some (Pg.u_password u))).
Proof.
  unfold Pg.insert_user; cbv zeta.
  destruct (Pg.varchar 100 nm) as [nm'|]; [|cbn; eauto].
  destruct (Pg.varchar 255 em) as [em'|]; [|cbn; eauto].
  destruct (Pg.varchar 255 pw) as [pw'|]; [|cbn; eauto].
  destruct (Pg.varchar 50 rl) as [rl'|]; [|cbn; eauto].
  repeat match goal with
         | |- context [if ?c then _ else _] => destruct c
         | |- context [match ?x with Some _ => _ | None => _ end] => destruct x
         end; cbn; eauto 8.
Qed.

(** The route, outcome by outcome: a response other than 201 leaves the
    table as it was; 201 comes with exactly one new row, which the
    response carries whole. *)
Lemma register_cases (b : Auth.RegisterBody) (w : World) :
  let out := Auth.register env b w in
  (status (fst out) <> 201%N /\ Pg.users (db (snd out)) = Pg.users (db w))
  \/ (exists p u,
        Auth.password b = Some p
        /\ fst out = {| status := 201;
                        body := BMessageUser "User registered successfully"
                                  (Pg.user_row u) |}
        /\ Pg.users (db (snd out)) = Pg.users (db w) ++ [u]
        /\ Pg.u_role u = Some (lit "user")
        /\ Pg.varchar 255 (Some (bcrypt_hash env p 10))
           = Some (Some (Pg.u_password u))).
Proof.
  unfold Auth.register, respond, Auth.register_handler, try_catch, bind, query.
  cbn.
  destruct (db_fault env (queries w)) as [m|]; cbn.
  { left; split; [discriminate | reflexivity]. }
  destruct (Pg.select_users_by_email (Auth.email b) (db w)); cbn.
  2:{ left; split; [discriminate | reflexivity]. }
  destruct (Auth.password b) as [p|]; cbn.
  2:{ left; split; [discriminate | reflexivity]. }
  destruct (db_fault env (S (queries w))) as [m|]; cbn.
  { left; split; [discriminate | reflexivity]. }
  pose proof (insert_user_cases (current_timestamp env) (Auth.name b)
                (Auth.email b) (Some (bcrypt_hash env p 10))
                (Some (lit "user")) (db w)) as H.
  cbv zeta in H.
  destruct (Pg.insert_user _ _ _ _ _ (db w)) as [[e|u] d]; cbn in *.
  - left; split; [discriminate|].
    destruct H as [(e' & _ & H) | (u & H & _)]; [exact H | discriminate].
  - right. exists p, u.
    destruct H as [(e' & H & _) | (u' & H & Hu & Hr & Hp)]; [discriminate|].
    injection H as <-.
    assert (Hrole : Some (Pg.u_role u) = Some (Some (lit "user")))
      by (rewrite <- Hr; now vm_compute).
    injection Hrole as Hrole.
    repeat split; auto.
Qed.

End Register.

(** C10: every row that [POST /auth/register] adds to [users] has the role
    "user", which is not "admin", whatever the request body holds; the
    [role] member of the body has no influence on the route at all. *)
Theorem register_assigns_role_user
    (env : Env) (b : Auth.RegisterBody) (w : World) :
  let out := Auth.register env b w in
  (forall u, In u (Pg.users (db (snd out))) ->
     In u (Pg.users (db w))
     \/ (Pg.u_role u = Some (lit "user") /\ Pg.u_role u <> Some (lit "admin")))
  /\ (forall r, Auth.register env (Auth.with_role r b) w = out).
Proof.
  cbv zeta. split.
  - intros u Hu.
    destruct (register_cases env b w) as [[_ H] | (p & u' & _ & _ & H & Hr & _)];
      rewrite H in Hu; [now left|].
    apply in_app_or in Hu as [Hu | [<- | []]]; [now left|].
    right. rewrite Hr. split; [reflexivity | discriminate].
  - intros r. reflexivity.
Qed.

(** Registration does succeed: the example request, which asks for the
    role "admin", is answered 201 and adds one row. *)
Example register_newcomer :
  let out := Auth.register Example.env Example.newcomer Example.empty in
  status (fst out) = 201%N
  /\ map Pg.u_role (Pg.users (db (snd out)))
     = [Some (lit "user"); Some (lit "admin"); Some (lit "user")].
Proof. vm_compute. split; reflexivity. Qed.

(** Every 201 of the route carries the new row whole: its [password]
    member is the hash as it was stored, which is the hash itself when it
    is within the 255 characters of the column, as a bcrypt hash is. *)
Lemma register_created_exposes_hash
    (env : Env) (b : Auth.RegisterBody) (w : World) :
  let out := Auth.register env b w in
  status (fst out) = 201%N ->
  exists p user stored,
    Auth.password b = Some p
    /\ body (fst out) = BMessageUser "User registered successfully" user
    /\ Pg.varchar 255 (Some (bcrypt_hash env p 10)) = Some (Some stored)
    /\ field "password" user = Some (VStr stored)
    /\ ((Pg.char_length (bcrypt_hash env p 10) <= 255)%nat ->
        stored = bcrypt_hash env p 10).
Proof.
  cbv zeta. intros H.
  destruct (register_cases env b w) as [[Hn _] | (p & u & Hp & Hr & _ & _ & Hh)];
    [contradiction|].
  exists p, (Pg.user_row u), (Pg.u_password u). rewrite Hr. cbn.
  repeat split; auto.
  intros Hlen. rewrite (varchar_fits _ _ Hlen) in Hh. now injection Hh.
Qed.

(** C1: on the example request the route answers 201 and the [user] of the
    response has a [password] member, the stored hash. *)
Theorem register_response_carries_password :
  let out := Auth.register Example.env Example.newcomer Example.empty in
  status (fst out) = 201%N
  /\ exists user,
       body (fst out) = BMessageUser "User registered successfully" user
       /\ field "password" user
          = Some (VStr (bcrypt_hash Example.env (lit "pw") 10)).
Proof.
  cbv zeta. split; [now vm_compute|].
  eexists. split; now vm_compute.
Qed.

(* ================================================================== *)
(** * Deleting an asset *)

Lemma filter_none {A} (f : A -> bool) (l : list A) :
  (forall a, In a l -> f a = false) -> filter f l = [].
Proof.
  induction l as [|x l IH]; intros H; simpl; [reflexivity|].
  rewrite (H x (or_introl eq_refl)). apply IH. intros a Ha. apply H. now right.
Qed.

Lemma filter_all {A} (f : A -> bool) (l : list A) :
  (forall a, In a l -> f a = true) -> filter f l = l.
Proof.
  induction l as [|x l IH]; intros H; simpl; [reflexivity|].
  rewrite (H x (or_introl eq_refl)). f_equal. apply IH.
  intros a Ha. apply H. now right.
Qed.

(** A DELETE whose condition holds of no row returns nothing and leaves
    the tables as they were. *)
Lemma delete_assets_none (cond : Pg.Asset -> bool) (d : Pg.Db) :
  (forall a, In a (Pg.assets d) -> cond a = false) ->
  Pg.delete_assets cond d = ([], d).
Proof.
  intros H. unfold Pg.delete_assets.
  rewrite (filter_none cond _ H).
  rewrite filter_all by (intros a Ha; now rewrite (H a Ha)).
  now destruct d.
Qed.

(** After a DELETE no remaining row satisfies its condition. *)
Lemma delete_assets_removes (cond : Pg.Asset -> bool) (d : Pg.Db) (a : Pg.Asset) :
  In a (Pg.assets (snd (Pg.delete_assets cond d))) -> cond a = false.
Proof.
  cbn. intros H. apply filter_In in H as [_ H].
  now apply negb_true_iff in H.
Qed.

Arguments Assets.key_of_locator : simpl never.

Section Delete.

Variable env : Env.

(** The owner route when the statement removes nothing. *)
Lemma delete_route_no_match auth filename user w :
  Middleware.authenticateToken env auth = inr user ->
  db_fault env (queries w) = None ->
  (forall a, In a (Pg.assets (db w)) ->
     Pg.owned_by filename (c_id user) a = false) ->
  Assets.delete_route env auth filename w
  = (json_message 404 "File not found or not owned by user",
     sent Assets.delete_statement w).
Proof.
  intros Hauth Hdb Hnone.
  unfold Assets.delete_route. rewrite Hauth.
  unfold respond, Assets.delete_handler, try_catch, bind, query.
  rewrite Hdb, (delete_assets_none _ _ Hnone). cbn.
  unfold with_db, sent. cbn. reflexivity.
Qed.

(** Whatever the owner route answers, once its statement ran no row of
    that name and owner is left. *)
Lemma delete_route_leaves_no_match auth filename user w :
  Middleware.authenticateToken env auth = inr user ->
  db_fault env (queries w) = None ->
  forall a, In a (Pg.assets (db (snd (Assets.delete_route env auth filename w)))) ->
    Pg.owned_by filename (c_id user) a = false.
Proof.
  intros Hauth Hdb a.
  unfold Assets.delete_route. rewrite Hauth.
  unfold respond, Assets.delete_handler, try_catch, bind, query.
  rewrite Hdb.
  pose proof (delete_assets_removes (Pg.owned_by filename (c_id user)) (db w) a) as H.
  destruct (Pg.delete_assets _ (db w)) as [[|first rest] d]; cbn in *; [exact H|].
  unfold s3_delete.
  destruct (Assets.key_of_locator (Pg.a_filepath first)) as [k|]; cbn;
    try exact H.
  destruct (s3_delete_fault env); cbn; exact H.
Qed.

(** The owner route, when it answers 200: the statement removed at least
    one row, a DeleteObject was issued for the key read from the first
    row's locator, the object of that key is gone from the bucket, and the
    response is a bare message. *)
Lemma owner_delete_success auth filename user w :
  Middleware.authenticateToken env auth = inr user ->
  let out := Assets.delete_route env auth filename w in
  status (fst out) = 200%N ->
  exists first rest key,
    filter (Pg.owned_by filename (c_id user)) (Pg.assets (db w)) = first :: rest
    /\ Assets.key_of_locator (Pg.a_filepath first) = Some key
    /\ trace (snd out)
       = trace w ++ [EvQuery Assets.delete_statement; EvS3Delete (Some key)]
    /\ bucket (snd out) = without_key key (bucket w)
    /\ body (fst out) = BMessage "🗑️ File deleted successfully from S3".
Proof.
  intros Hauth. cbv zeta.
  unfold Assets.delete_route. rewrite Hauth.
  unfold respond, Assets.delete_handler, try_catch, bind, query.
  destruct (db_fault env (queries w)); cbn; [discriminate|].
  destruct (filter _ (Pg.assets (db w))) as [|first rest]; cbn; [discriminate|].
  unfold s3_delete.
  destruct (Assets.key_of_locator (Pg.a_filepath first)) as [k|] eqn:Hkey;
    cbn; try discriminate.
  destruct (s3_delete_fault env); cbn; [discriminate|].
  intros _. exists first, rest, k.
  rewrite <- app_assoc. repeat split; auto.
Qed.

(** The admin route never addresses the object store: the bucket is as it
    was, and the calls it adds to the trace are its one statement and, at
    most, an unlink of a local file. *)
Lemma admin_delete_spares_bucket auth filename w :
  let out := Admin.delete_route env auth filename w in
  bucket (snd out) = bucket w
  /\ exists calls,
       trace (snd out) = trace w ++ calls
       /\ forall e, In e calls ->
            e = EvQuery Admin.delete_statement \/ exists p, e = EvUnlink p.
Proof.
  cbv zeta. unfold Admin.delete_route.
  destruct (Middleware.authenticateToken env auth) as [r|user]; cbn.
  { split; [reflexivity|]. exists []. rewrite app_nil_r. split; [reflexivity|]. intros e []. }
  destruct (Middleware.requireRole _ user); cbn.
  { split; [reflexivity|]. exists []. rewrite app_nil_r. split; [reflexivity|]. intros e []. }
  unfold respond, Admin.delete_handler, try_catch, bind, query.
  destruct (db_fault env (queries w)); cbn.
  { split; [reflexivity|]. eexists [_]. split; [reflexivity|].
    intros e [<- | []]. now left. }
  destruct (filter _ (Pg.assets (db w))) as [|first rest]; cbn.
  { split; [reflexivity|]. eexists [_]. split; [reflexivity|].
    intros e [<- | []]. now left. }
  unfold exists_sync, unlink_sync.
  destruct (nonempty (Pg.a_filepath first)); cbn.
  2:{ split; [reflexivity|]. eexists [_]. split; [reflexivity|].
      intros e [<- | []]. now left. }
  destruct (existsb (eqb (Pg.a_filepath first)) (disk w)) eqn:Hex; cbn.
  2:{ split; [reflexivity|]. eexists [_]. split; [reflexivity|].
      intros e [<- | []]. now left. }
  rewrite Hex; cbn.
  split; [reflexivity|]. eexists [_; _]. rewrite <- app_assoc.
  split; [reflexivity|].
  intros e [<- | [<- | []]]; [now left | right; eauto].
Qed.

(** The admin route, when it answers 200, echoes the first removed row. *)
Lemma admin_delete_success auth filename w :
  let out := Admin.delete_route env auth filename w in
  status (fst out) = 200%N ->
  exists first rest,
    filter (Pg.named filename) (Pg.assets (db w)) = first :: rest
    /\ body (fst out) = BMessageAsset "Asset deleted by admin" (Pg.asset_row first)
    /\ Pg.assets (db (snd out))
       = filter (fun a => negb (Pg.named filename a)) (Pg.assets (db w)).
Proof.
  cbv zeta. unfold Admin.delete_route.
  destruct (Middleware.authenticateToken env auth) as [r|user] eqn:Hauth.
  { unfold Middleware.authenticateToken in Hauth.
    repeat match type of Hauth with
           | context [match ?x with _ => _ end] => destruct x
           end; inversion Hauth; cbn; discriminate. }
  destruct (Middleware.requireRole _ user) as [r|] eqn:Hrole.
  { unfold Middleware.requireRole in Hrole.
    repeat match type of Hrole with
           | context [match ?x with _ => _ end] => destruct x
           end; inversion Hrole; cbn; discriminate. }
  unfold respond, Admin.delete_handler, try_catch, bind, query.
  destruct (db_fault env (queries w)); cbn; [discriminate|].
  destruct (filter _ (Pg.assets (db w))) as [|first rest] eqn:Hf; cbn;
    [discriminate|].
  unfold exists_sync, unlink_sync.
  destruct (nonempty (Pg.a_filepath first)); cbn.
  - destruct (existsb (eqb (Pg.a_filepath first)) (disk w)) eqn:Hex; cbn;
      [rewrite Hex; cbn|]; intros _; exists first, rest; auto.
  - intros _; exists first, rest; auto.
Qed.

End Delete.

(** C7: a delete by a requester of whom no ledger row holds both the file
    name and the owner id (the asset is someone else's, or is already
    gone) is answered 404 "not found", never 403; the one call the route
    makes is the conditional DELETE statement, and ledger, bucket and disk
    are as they were. *)
Theorem owner_delete_not_found
    (env : Env) (auth : option str) (filename : str) (user : Claims) (w : World) :
  Middleware.authenticateToken env auth = inr user ->
  db_fault env (queries w) = None ->
  (forall a, In a (Pg.assets (db w)) ->
     Pg.owned_by filename (c_id user) a = false) ->
  Assets.delete_route env auth filename w
  = (json_message 404 "File not found or not owned by user",
     sent Assets.delete_statement w)
  /\ status (fst (Assets.delete_route env auth filename w)) <> 403%N.
Proof.
  intros Hauth Hdb Hnone.
  rewrite (delete_route_no_match env auth filename user w Hauth Hdb Hnone).
  split; [reflexivity | discriminate].
Qed.

(** The administrator, who owns nothing, asks the owner route to delete
    Alice's file. *)
Lemma owner_delete_not_found_witness :
  let w := Example.stocked (JObj []) in
  let name := lit "1690000000000-cat.png" in
  Pg.a_filename (Example.cat (JObj [])) = name
  /\ Assets.delete_route Example.env (Example.bearer "root") name w
     = (json_message 404 "File not found or not owned by user",
        sent Assets.delete_statement w).
Proof.
  split; [reflexivity|].
  apply (owner_delete_not_found Example.env (Example.bearer "root")
           (lit "1690000000000-cat.png")
           {| c_id := Some 2%Z; c_role := Some (lit "admin") |}
           (Example.stocked (JObj []))).
  - reflexivity.
  - reflexivity.
  - intros a [<- | []]. reflexivity.
Defined.

(** A second delete of the same file by the same requester finds nothing:
    whatever the first call answered, the statement it ran left no row of
    that name and owner. *)
Lemma owner_delete_twice
    (env : Env) (auth : option str) (filename : str) (user : Claims) (w : World) :
  Middleware.authenticateToken env auth = inr user ->
  db_fault env (queries w) = None ->
  let once := Assets.delete_route env auth filename w in
  db_fault env (queries (snd once)) = None ->
  fst (Assets.delete_route env auth filename (snd once))
  = json_message 404 "File not found or not owned by user".
Proof.
  intros Hauth Hdb once Hdb2.
  rewrite (delete_route_no_match env auth filename user (snd once) Hauth Hdb2).
  - reflexivity.
  - apply (delete_route_leaves_no_match env auth filename user w Hauth Hdb).
Qed.

(** C2: the administrator deletes Alice's file through the admin route.
    The route answers 200 and the ledger row is gone, but the only call
    made is the DELETE statement and the object is still in the bucket. *)
Theorem admin_delete_leaves_object :
  let w := Example.stocked (JObj []) in
  let out := Admin.delete_route Example.env (Example.bearer "root")
               (lit "1690000000000-cat.png") w in
  status (fst out) = 200%N
  /\ Pg.assets (db (snd out)) = []
  /\ trace (snd out) = [EvQuery Admin.delete_statement]
  /\ bucket (snd out) = [Example.cat_object]
  /\ Assets.key_of_locator (Pg.a_filepath (Example.cat (JObj [])))
     = Some (o_key Example.cat_object).
Proof. vm_compute. repeat split; reflexivity. Qed.

(** C3: Alice, the owner, deletes the file.  The route answers 200 and the row is
    gone, and the response is the bare message: it has no [asset]. *)
Theorem owner_delete_echoes_nothing :
  let w := Example.stocked (JObj []) in
  let out := Assets.delete_route Example.env (Example.bearer "alice")
               (lit "1690000000000-cat.png") w in
  status (fst out) = 200%N
  /\ Pg.assets (db (snd out)) = []
  /\ body (fst out) = BMessage "🗑️ File deleted successfully from S3".
Proof. vm_compute. repeat split; reflexivity. Qed.

(* ================================================================== *)
(** * Uploading an asset *)

Lemma remove_path_not_in (p : str) (l : list str) : ~ In p (remove_path p l).
Proof.
  unfold remove_path. intros H. apply filter_In in H as [_ H].
  now rewrite eqb_refl in H.
Qed.

Lemma existsb_eqb_in (p : str) (l : list str) :
  existsb (eqb p) l = true <-> In p l.
Proof.
  rewrite existsb_exists. split.
  - intros (x & Hx & Heq). apply eqb_eq in Heq. now subst.
  - intros H. exists p. split; [assumption | apply eqb_refl].
Qed.

(** The INSERT of the upload route lists no [id], the schema gives the
    column no default, and the primary key takes no NULL: whatever the
    other values, the statement fails and the table is as it was. *)
Lemma insert_asset_without_id (now : N) (v : Pg.AssetValues) (d : Pg.Db) :
  Pg.i_id v = None ->
  exists e, Pg.insert_asset now v d = (inl e, d).
Proof.
  intros Hid. unfold Pg.insert_asset. rewrite Hid.
  repeat match goal with
         | |- context [if ?c then _ else _] => destruct c
         | |- context [match ?x with Some _ => _ | None => _ end] => destruct x
         end; eauto.
Qed.

Arguments Assets.staged_path : simpl never.
Arguments Assets.staged_name : simpl never.
Arguments Assets.parse_permissions : simpl never.
Arguments Assets.parse_tags : simpl never.
Arguments Pg.insert_asset : simpl never.
Arguments Assets.fileSize : simpl never.

Section Upload.

Variable env : Env.

(** No request to the upload route ever adds a row to [assets] or is
    answered 200. *)
Lemma upload_never_inserts (req : Assets.UploadRequest) (w : World) :
  let out := Assets.upload_route env req w in
  Pg.assets (db (snd out)) = Pg.assets (db w) /\ status (fst out) <> 200%N.
Proof.
  cbv zeta. unfold Assets.upload_route.
  destruct (Middleware.authenticateToken env _) as [r|user] eqn:Hauth.
  { split; [reflexivity|].
    unfold Middleware.authenticateToken in Hauth.
    repeat match type of Hauth with
           | context [match ?x with _ => _ end] => destruct x
           end; inversion Hauth; cbn; discriminate. }
  unfold respond, bind, Assets.upload_single.
  destruct (Assets.up_file req) as [file|]; cbn.
  2:{ split; [reflexivity | discriminate]. }
  destruct (Assets.fileFilter file); cbn.
  { split; [reflexivity | discriminate]. }
  unfold bind, write_file.
  destruct (Assets.fileSize <? Assets.size file)%N; cbn.
  { split; [reflexivity | discriminate]. }
  unfold Assets.upload_handler, try_catch; cbn.
  destruct (get_public _); cbn.
  2:{ split; [reflexivity | discriminate]. }
  unfold bind, s3_upload; cbn.
  destruct (s3_put_fault env); cbn.
  { split; [reflexivity | discriminate]. }
  unfold unlink_sync; cbn.
  destruct (existsb _ _); cbn.
  2:{ split; [reflexivity | discriminate]. }
  unfold query; cbn.
  destruct (db_fault env (queries w)); cbn.
  { split; [reflexivity | discriminate]. }
  match goal with
  | |- context [Pg.insert_asset ?n ?v ?d] =>
      destruct (insert_asset_without_id n v d eq_refl) as [e ->]
  end.
  cbn. split; [reflexivity | discriminate].
Qed.

(** When the transfer fails the route answers 500 with ledger and bucket
    as they were, and returns without unlinking: the staged file is still
    on disk, the last call made being the failed transfer. *)
Lemma upload_transfer_failure
    (req : Assets.UploadRequest) (w : World) (user : Claims)
    (file : Assets.FilePart) (m : string) :
  Middleware.authenticateToken env (Assets.up_authorization req) = inr user ->
  Assets.up_file req = Some file ->
  existsb (eqb (Assets.mimetype file)) Assets.allowed = true ->
  (Assets.size file <= Assets.fileSize)%N ->
  get_public (Assets.parse_permissions (Assets.up_permissions req)) <> None ->
  s3_put_fault env = Some m ->
  let out := Assets.upload_route env req w in
  fst out = json_message 500 (Assets.or_default m "Error uploading file")
  /\ db (snd out) = db w
  /\ bucket (snd out) = bucket w
  /\ In (Assets.staged_path env file) (disk (snd out))
  /\ exists acl,
       trace (snd out)
       = trace w ++ [EvStage (Assets.staged_path env file);
                     EvS3Put (lit "uploads/" ++ of_N (date_now env) ++ lit "-"
                                ++ Assets.staged_name env file) acl].
Proof.
  intros Hauth Hfile Htype Hsize Hperm Hs3. cbv zeta.
  unfold Assets.upload_route. rewrite Hauth, Hfile.
  unfold respond, bind, Assets.upload_single, Assets.fileFilter.
  rewrite Htype. cbn.
  unfold bind, write_file.
  apply N.ltb_ge in Hsize. rewrite Hsize. cbn.
  unfold Assets.upload_handler, try_catch; cbn.
  destruct (get_public _) as [public|]; [|contradiction]. cbn.
  unfold bind, s3_upload. rewrite Hs3. cbn.
  repeat split.
  - apply in_or_app. right. now left.
  - eexists. rewrite <- app_assoc. reflexivity.
Qed.

End Upload.

(** The same values with an identifier are inserted: the table gains the
    row. *)
Example insert_asset_with_id :
  let values := {| Pg.i_id := Some (lit "0b0e7a52-6f0c-4c58-9d6e-2f1f3c1d9a10");
                   Pg.i_filename := Some (lit "1700000000000-dog.jpg");
                   Pg.i_filepath := Some Example.locator;
                   Pg.i_mimetype := Some (lit "image/jpeg");
                   Pg.i_uploader_id := Some 1%Z;
                   Pg.i_size := Some 10%Z;
                   Pg.i_tags := None;
                   Pg.i_permissions := Some (jlit "{'public':false}") |} in
  let out := Pg.insert_asset 1700000000009 values (db Example.empty) in
  map Pg.a_id (Pg.assets (snd out)) = [lit "0b0e7a52-6f0c-4c58-9d6e-2f1f3c1d9a10"]
  /\ map Pg.a_permissions (Pg.assets (snd out))
     = [Some (JObj [(lit "public", JBool false)])].
Proof. vm_compute. split; reflexivity. Qed.

(** C5: Alice uploads a ten-byte JPEG while every service is up.  The
    transfer succeeds and the staged file is unlinked, then the INSERT,
    which supplies no [id], fails on the primary key's NOT NULL: the route
    answers 500, no asset exists, and the object stays in the bucket. *)
Theorem upload_assigns_no_identifier :
  let req := Example.upload_of Example.jpeg (Some (lit "a,b,c")) None in
  let out := Assets.upload_route Example.env req Example.empty in
  fst out = json_message 500
              ("null value in column " ++ Pg.quoted "id" ++ " of relation "
               ++ Pg.quoted "assets" ++ " violates not-null constraint")
  /\ Pg.assets (db (snd out)) = []
  /\ map o_key (bucket (snd out))
     = [lit "uploads/1700000000005-1700000000000-dog.jpg"]
  /\ disk (snd out) = [].
Proof. vm_compute. repeat split; reflexivity. Qed.

(** C4: Alice uploads the same file while the object store refuses the
    transfer.  The route answers 500 and no asset is recorded, but the
    staged copy is still on disk. *)
Theorem failed_transfer_leaves_staged_file :
  let req := Example.upload_of Example.jpeg (Some (lit "a,b,c")) None in
  let out := Assets.upload_route Example.env_s3_down req Example.empty in
  fst out = json_message 500 "connect ETIMEDOUT"
  /\ Pg.assets (db (snd out)) = []
  /\ bucket (snd out) = []
  /\ disk (snd out) = [lit "/srv/app/uploads/1700000000000-dog.jpg"].
Proof. vm_compute. repeat split; reflexivity. Qed.

Lemma remove_path_incl (p q : str) (l : list str) :
  In q (remove_path p l) -> In q l.
Proof. unfold remove_path. intros H. now apply filter_In in H. Qed.

(** An authenticated upload whose media type is not one of image/jpeg,
    image/png, application/pdf, or whose content is longer than 5 MiB, is
    turned down by multer before the handler runs: no query is sent and
    no transfer is attempted, ledger and bucket are as they were, and no
    file is on disk that was not there before.  A wrong type is turned
    down before anything at all is done; an oversized file of an allowed
    type was being written and is removed again.  The refusal is the
    error that multer passes on, which nothing in the application
    catches: Express's final handler answers it with 500. *)
Lemma upload_rejected_before_io
    (env : Env) (req : Assets.UploadRequest) (w : World) (user : Claims)
    (file : Assets.FilePart) :
  Middleware.authenticateToken env (Assets.up_authorization req) = inr user ->
  Assets.up_file req = Some file ->
  existsb (eqb (Assets.mimetype file)) Assets.allowed = false
  \/ (5 * 1024 * 1024 < Assets.size file)%N ->
  let out := Assets.upload_route env req w in
  (exists e, fst out = {| status := 500; body := BUnhandled e |}
             /\ (e = Error "Only JPEG, PNG, and PDF files are allowed"
                 \/ e = MulterError "LIMIT_FILE_SIZE" "File too large"))
  /\ db (snd out) = db w
  /\ bucket (snd out) = bucket w
  /\ queries (snd out) = queries w
  /\ (forall p, In p (disk (snd out)) -> In p (disk w))
  /\ (exists calls,
        trace (snd out) = trace w ++ calls
        /\ forall c, In c calls -> exists p, c = EvStage p \/ c = EvUnlink p)
  /\ (existsb (eqb (Assets.mimetype file)) Assets.allowed = false ->
      snd out = w)
  /\ (existsb (eqb (Assets.mimetype file)) Assets.allowed = true ->
      ~ In (Assets.staged_path env file) (disk (snd out))).
Proof.
  intros Hauth Hfile Hbad. cbv zeta.
  unfold Assets.upload_route. rewrite Hauth, Hfile.
  unfold respond, bind, Assets.upload_single, Assets.fileFilter.
  destruct (existsb (eqb (Assets.mimetype file)) Assets.allowed) eqn:Htype; cbn.
  - destruct Hbad as [Hbad | Hbig]; [discriminate|].
    unfold bind, write_file.
    change (5 * 1024 * 1024)%N with Assets.fileSize in Hbig.
    apply N.ltb_lt in Hbig. rewrite Hbig. cbn.
    repeat split; try discriminate.
    + eexists. split; [reflexivity | now right].
    + intros p Hp. pose proof Hp as Hq. apply remove_path_incl in Hp.
      apply in_app_or in Hp as [Hp | [<- | []]].
      * now apply remove_path_incl in Hp.
      * exfalso. revert Hq. apply remove_path_not_in.
    + eexists [_; _]. rewrite <- app_assoc. split; [reflexivity|].
      intros c [<- | [<- | []]]; eauto.
    + intros _. apply remove_path_not_in.
  - repeat split; auto; try discriminate.
    + eexists. split; [reflexivity | now left].
    + exists []. rewrite app_nil_r. split; [reflexivity | intros c []].
Qed.

(** C6: Alice sends six mebibytes of text/plain, and then a JPEG of six
    mebibytes.  Each upload is turned down before any transfer and any
    query, and nothing is left on disk; but the refusal is the plain
    error of the filter, or multer's error for the size, answered by
    Express's final handler with 500: the status with which the route
    answers a transfer that failed, not the refusal of a validation. *)
Theorem upload_rejection_is_answered_500 :
  let bad_type := Assets.upload_route Example.env
                    (Example.upload_of Example.notes None None) Example.empty in
  let too_big := Assets.upload_route Example.env
                   (Example.upload_of Example.poster None None) Example.empty in
  let store_down := Assets.upload_route Example.env_s3_down
                      (Example.upload_of Example.jpeg None None) Example.empty in
  fst bad_type
  = {| status := 500;
       body := BUnhandled (Error "Only JPEG, PNG, and PDF files are allowed") |}
  /\ snd bad_type = Example.empty
  /\ fst too_big
     = {| status := 500;
          body := BUnhandled (MulterError "LIMIT_FILE_SIZE" "File too large") |}
  /\ disk (snd too_big) = [] /\ bucket (snd too_big) = []
  /\ Pg.assets (db (snd too_big)) = [] /\ queries (snd too_big) = 0
  /\ status (fst store_down) = 500%N.
Proof. vm_compute. repeat split; reflexivity. Qed.

(* ================================================================== *)
(** * Parsing the tags *)

Section Trim.

Lemma trim_start_head (s : str) (c : N) (r : str) :
  trim_start s = c :: r -> is_space c = false.
Proof.
  induction s as [|x s IH]; simpl; [discriminate|].
  destruct (is_space x) eqn:Hx; [exact IH|].
  intros H. injection H as <- _. exact Hx.
Qed.

Lemma trim_start_split (s : str) :
  exists p, s = p ++ trim_start s /\ forallb is_space p = true.
Proof.
  induction s as [|x s (p & Hp & Hs)]; simpl.
  - now exists [].
  - destruct (is_space x) eqn:Hx.
    + exists (x :: p). simpl. rewrite Hx, Hs. now rewrite <- Hp.
    + now exists [].
Qed.

Lemma trim_end_last (s : str) (c : N) (r : str) :
  trim_end s = r ++ [c] -> is_space c = false.
Proof.
  unfold trim_end. intros H.
  apply (f_equal (@rev N)) in H. rewrite rev_involutive, rev_app_distr in H.
  simpl in H. exact (trim_start_head _ _ _ H).
Qed.

Lemma trim_end_split (s : str) :
  exists q, s = trim_end s ++ q /\ forallb is_space q = true.
Proof.
  unfold trim_end.
  destruct (trim_start_split (rev s)) as (p & Hp & Hs).
  exists (rev p). split.
  - rewrite <- rev_app_distr, <- Hp. now rewrite rev_involutive.
  - rewrite forallb_forall in *. intros x Hx. apply Hs. now apply in_rev.
Qed.

(** [trim] takes white space, and nothing else, from both ends. *)
Lemma trim_split (s : str) :
  exists p q, s = p ++ trim s ++ q
              /\ forallb is_space p = true /\ forallb is_space q = true.
Proof.
  destruct (trim_start_split s) as (p & Hp & Hps).
  destruct (trim_end_split (trim_start s)) as (q & Hq & Hqs).
  exists p, q. unfold trim. now rewrite <- Hq, <- Hp.
Qed.

(** What [trim] returns has no white space left at either end. *)
Lemma trim_trimmed (s : str) : trimmed (trim s).
Proof.
  split; intros c r H.
  - destruct (trim_end_split (trim_start s)) as (q & Hq & _).
    unfold trim in H. rewrite H in Hq.
    exact (trim_start_head s c (r ++ q) Hq).
  - exact (trim_end_last _ _ _ H).
Qed.

End Trim.

Section Split.

Variable c : N.

Lemma strip_prefix_single (x : N) (s : str) :
  strip_prefix [c] (x :: s) = if N.eqb c x then Some s else None.
Proof. reflexivity. Qed.

(** Splitting at a single code unit: the pieces are free of it, there is
    at least one, and joined with it they give the string back. *)
Lemma split_go_single (s cur : str) :
  ~ In c cur ->
  exists p ps,
    split_go [c] 0 cur s = p :: ps
    /\ join c (p :: ps) = rev cur ++ s
    /\ Forall (fun piece => ~ In c piece) (p :: ps).
Proof.
  revert cur. induction s as [|x s IH]; intros cur Hcur.
  - exists (rev cur), []. simpl. repeat split.
    constructor; [|constructor]. now rewrite <- in_rev.
  - cbn [split_go]. rewrite strip_prefix_single.
    destruct (N.eqb_spec c x) as [<- | Hx].
    + destruct (IH [] (fun H => H)) as (p & ps & Hsplit & Hjoin & Hfree).
      cbn [List.length Nat.sub]. rewrite Hsplit.
      exists (rev cur), (p :: ps). repeat split.
      * simpl in *. now rewrite Hjoin.
      * constructor; [now rewrite <- in_rev | exact Hfree].
    + destruct (IH (x :: cur)) as (p & ps & Hsplit & Hjoin & Hfree).
      { intros [H | H]; [now symmetry in H | contradiction]. }
      exists p, ps. repeat split; try assumption.
      rewrite Hjoin. simpl. now rewrite <- app_assoc.
Qed.

Lemma split_single (s : str) :
  join c (split [c] s) = s /\ Forall (fun piece => ~ In c piece) (split [c] s).
Proof.
  destruct (split_go_single s [] (fun H => H)) as (p & ps & Hsplit & Hjoin & Hfree).
  unfold split. rewrite Hsplit. now split.
Qed.

End Split.

Lemma filter_nonempty (l : list str) :
  Forall (fun k => k <> []) (filter nonempty l).
Proof.
  apply Forall_forall. intros k Hk. apply filter_In in Hk as [_ Hk].
  now destruct k.
Qed.

(** The fallback of the tags: the tokens are exactly the non-empty trims
    of the pieces between the commas. *)
Lemma tags_tokens (t : str) :
  let pieces := split (lit ",") t in
  let tokens := filter nonempty (map trim pieces) in
  join 44 pieces = t
  /\ Forall (fun piece => ~ In 44%N piece) pieces
  /\ Forall (fun k => k <> [] /\ trimmed k /\ exists piece, In piece pieces /\ k = trim piece) tokens.
Proof.
  cbv zeta. change (lit ",") with [44%N].
  destruct (split_single 44 t) as [Hjoin Hfree].
  repeat split; try assumption.
  apply Forall_forall. intros k Hk. apply filter_In in Hk as [Hin Hk].
  apply in_map_iff in Hin as (piece & <- & Hpiece).
  repeat split.
  - now destruct (trim piece).
  - apply trim_trimmed.
  - apply trim_trimmed.
  - now exists piece.
Qed.

(** C8, as amended: what an upload passes to the INSERT as its tags.  An
    absent or empty input gives NULL.  Otherwise whatever value
    [JSON.parse] yields is taken as it is, array or not, and passed on as
    its JSON text, unless it is falsy (null, false, zero, the empty
    string), which gives NULL.  Only when [JSON.parse] fails the input is
    cut at the commas, the pieces are trimmed and the empty ones dropped,
    and the tokens are passed on as the text of their array. *)
Theorem upload_takes_any_json_as_tags
    (env : Env) (user : Claims) (f : Assets.StagedFile) (fileUrl : str)
    (permissions : json) (tags : option str) :
  let values := Assets.insert_values env user f fileUrl
                  (Assets.parse_tags tags) permissions in
  match tags with
  | None | Some [] => Pg.i_tags values = None
  | Some t =>
      match parse t with
      | Some v =>
          Assets.parse_tags tags = v
          /\ Pg.i_tags values
             = if truthy v then Some (JSON_stringify env v) else None
      | None =>
          exists pieces,
            join 44 pieces = t
            /\ Forall (fun piece => ~ In 44%N piece) pieces
            /\ Forall (fun k => k <> [] /\ trimmed k)
                 (filter nonempty (map trim pieces))
            /\ Assets.parse_tags tags
               = JArr (map JStr (filter nonempty (map trim pieces)))
            /\ Pg.i_tags values
               = Some (JSON_stringify env
                         (JArr (map JStr (filter nonempty (map trim pieces)))))
      end
  end.
Proof.
  cbv zeta. destruct tags as [[|x t]|]; try reflexivity.
  unfold Assets.insert_values, Assets.parse_tags. cbn [Pg.i_tags].
  destruct (parse (x :: t)) as [v|]; [split; reflexivity|].
  destruct (tags_tokens (x :: t)) as (Hjoin & Hfree & Htok).
  exists (split (lit ",") (x :: t)). repeat split; try assumption.
  eapply Forall_impl; [|exact Htok]. cbn. intros k (H1 & H2 & _). now split.
Qed.

(** C8 as first stated fails.  Alice uploads a JPEG with the tags 123, a
    text that is JSON but no array: the route takes the number 123 as the
    tags and goes on to the transfer; the input is neither an array, nor
    cut at commas, nor refused. *)
Lemma tags_number_is_accepted :
  let req := Example.upload_of Example.jpeg (Some (lit "123")) None in
  Assets.parse_tags (Assets.up_tags req) = JNum (lit "123")
  /\ Assets.transfers
       (trace (snd (Assets.upload_route Example.env req Example.empty)))
     = true
  /\ ~ Assets.tags_as_claimed Example.env req Example.empty.
Proof.
  cbv zeta. split; [now vm_compute|]. split; [now vm_compute|].
  intros H. vm_compute in H. discriminate.
Qed.

(** What the INSERT gets for some inputs: the text of the value, and NULL
    for a value that is falsy. *)
Example tags_values :
  let tags_of t :=
    Pg.i_tags (Assets.insert_values Example.env
                 {| c_id := Some 1%Z; c_role := Some (lit "user") |}
                 {| Assets.f_filename := lit "1700000000000-dog.jpg";
                    Assets.f_mimetype := lit "image/jpeg";
                    Assets.f_path := lit "/srv/app/uploads/1700000000000-dog.jpg";
                    Assets.f_size := 10 |}
                 Example.locator (Assets.parse_tags (Some t))
                 (JObj [(lit "public", JBool false)])) in
  tags_of (lit "123") = Some (lit "123")
  /\ tags_of (lit "0") = None
  /\ tags_of (lit "false") = None
  /\ tags_of (lit "null") = None
  /\ tags_of (jlit "''") = None
  /\ tags_of (lit "[]") = Some (lit "[]")
  /\ tags_of (lit "a, b") = Some (jlit "['a','b']").
Proof. vm_compute. repeat split; reflexivity. Qed.

Example tags_examples :
  Assets.parse_tags (Some (lit "a, b,,c ")) = JArr [JStr (lit "a"); JStr (lit "b"); JStr (lit "c")]
  /\ Assets.parse_tags (Some (jlit "['x', 'y']")) = JArr [JStr (lit "x"); JStr (lit "y")]
  /\ Assets.parse_tags (Some (lit "123")) = JNum (lit "123")
  /\ Assets.parse_tags (Some (jlit "{'a': true}")) = JObj [(lit "a", JBool true)]
  /\ Assets.parse_tags (Some (jlit "'x'")) = JStr (lit "x")
  /\ Assets.parse_tags (Some (lit "null")) = JNull.
Proof. vm_compute. repeat split; reflexivity. Qed.

(* ================================================================== *)
(** * The visibility aggregate *)

Section Visibility.

(** [SUM] is NULL exactly when every row's expression is NULL. *)
Lemma sum_public_null (rows : list Pg.Asset) :
  Pg.sum_public rows = inr None <->
  forall a, In a rows -> Pg.public_int a = inr None.
Proof.
  induction rows as [|a rows IH]; simpl.
  - split; [intros _ x [] | reflexivity].
  - destruct (Pg.public_int a) as [e|[n|]] eqn:Ha.
    + split; [discriminate|]. intros H.
      specialize (H a (or_introl eq_refl)). congruence.
    + split.
      * destruct (Pg.sum_public rows) as [e|[m|]]; discriminate.
      * intros H. specialize (H a (or_introl eq_refl)). congruence.
    + destruct (Pg.sum_public rows) as [e|[m|]].
      * split; [discriminate|]. intros H.
        assert (Hr : @inl exn (option Z) e = inr None)
          by (apply IH; intros x Hx; apply H; now right).
        discriminate.
      * split; [discriminate|]. intros H.
        assert (Hr : @inr exn (option Z) (Some m) = inr None)
          by (apply IH; intros x Hx; apply H; now right).
        discriminate.
      * split; [|reflexivity]. intros _ x [<- | Hx]; [exact Ha|].
        now apply IH.
Qed.

(** The two columns of the statement: when the sum is not NULL they add up
    to the number of rows; when it is NULL both are NULL. *)
Lemma select_visibility_columns (d : Pg.Db) (p q : option Z) :
  Pg.select_visibility d = inr (p, q) ->
  match p, q with
  | Some n, Some m => (n + m = Pg.count_assets d)%Z
  | None, None => forall a, In a (Pg.assets d) -> Pg.public_int a = inr None
  | _, _ => False
  end.
Proof.
  unfold Pg.select_visibility.
  destruct (Pg.sum_public (Pg.assets d)) as [e|[n|]] eqn:Hs; [discriminate| |];
    intros H; injection H as <- <-.
  - lia.
  - now apply sum_public_null.
Qed.

(** A ledger whose rows all lack a [public] flag is reported as holding no
    file at all, public or private. *)
Lemma visibility_of_unflagged (env : Env) (auth : option str) (user : Claims)
    (w : World) :
  Middleware.authenticateToken env auth = inr user ->
  Middleware.requireRole [lit "admin"] user = None ->
  db_fault env (queries w) = None ->
  (forall a, In a (Pg.assets (db w)) -> Pg.public_int a = inr None) ->
  fst (Admin.visibility_route env auth w)
  = {| status := 200; body := BVisibility (VNum 0) (VNum 0) |}.
Proof.
  intros Hauth Hrole Hdb Hnull.
  unfold Admin.visibility_route. rewrite Hauth, Hrole.
  unfold respond, Admin.visibility_handler, try_catch, bind, query.
  rewrite Hdb. unfold Pg.select_visibility.
  apply sum_public_null in Hnull. rewrite Hnull. reflexivity.
Qed.

(** When some row has a flag and every flag reads as a boolean, the route
    reports the sum and its complement, which add up to the row count. *)
Lemma visibility_adds_up (env : Env) (auth : option str) (user : Claims)
    (w : World) (n : Z) :
  Middleware.authenticateToken env auth = inr user ->
  Middleware.requireRole [lit "admin"] user = None ->
  db_fault env (queries w) = None ->
  Pg.sum_public (Pg.assets (db w)) = inr (Some n) ->
  exists m,
    fst (Admin.visibility_route env auth w)
    = {| status := 200; body := BVisibility (VBig n) (VBig m) |}
    /\ (n + m = Pg.count_assets (db w))%Z.
Proof.
  intros Hauth Hrole Hdb Hsum.
  exists (Pg.count_assets (db w) - n)%Z. split; [|lia].
  unfold Admin.visibility_route. rewrite Hauth, Hrole.
  unfold respond, Admin.visibility_handler, try_catch, bind, query.
  rewrite Hdb. unfold Pg.select_visibility. rewrite Hsum. reflexivity.
Qed.

End Visibility.

(** C9: the ledger holds one asset, whose permissions are the object
    without members.  The aggregate reports no public and no private file,
    which add up to 0, while the asset count is 1. *)
Theorem visibility_misses_unflagged_asset :
  let w := Example.stocked (JObj []) in
  let out := Admin.visibility_route Example.env (Example.bearer "root") w in
  fst out = {| status := 200; body := BVisibility (VNum 0) (VNum 0) |}
  /\ Admin.count_of (VNum 0) = Some 0%Z
  /\ Pg.count_assets (db w) = 1%Z.
Proof. vm_compute. repeat split; reflexivity. Qed.

(** On the ledgers the specification names the aggregate is right: empty,
    all public, all private. *)
Example visibility_examples :
  let run w := body (fst (Admin.visibility_route Example.env (Example.bearer "root") w)) in
  run Example.empty = BVisibility (VNum 0) (VNum 0)
  /\ run (Example.stocked (JObj [(lit "public", JBool true)]))
     = BVisibility (VBig 1) (VBig 0)
  /\ run (Example.stocked (JObj [(lit "public", JBool false)]))
     = BVisibility (VBig 0) (VBig 1).
Proof. vm_compute. repeat split; reflexivity. Qed.

(* ================================================================== *)
(** * Splitting at a separator *)

Section SplitAt.

Variable sep : str.

Lemma strip_prefix_app (b : str) : strip_prefix sep (sep ++ b) = Some b.
Proof.
  induction sep as [|c p IH]; simpl; [reflexivity|].
  now rewrite N.eqb_refl.
Qed.

(** Code units still to be dropped are dropped unread. *)
Lemma split_go_skip (x s cur : str) :
  split_go sep (List.length x) cur (x ++ s) = split_go sep 0 cur s.
Proof. induction x as [|c x IH]; simpl; [reflexivity | exact IH]. Qed.

(** At an occurrence of the separator the current piece ends. *)
Lemma split_go_match (b cur : str) :
  sep <> [] ->
  split_go sep 0 cur (sep ++ b) = rev cur :: split_go sep 0 [] b.
Proof.
  intros Hsep. pose proof (strip_prefix_app b) as Hp.
  destruct sep as [|c p] eqn:E; [contradiction|].
  cbn [app split_go]. cbn [app] in Hp. rewrite Hp.
  cbn [List.length Nat.sub]. rewrite Nat.sub_0_r, <- E.
  now rewrite split_go_skip.
Qed.

(** Where no occurrence begins, the code units join the current piece. *)
Lemma split_go_clear (a t cur : str) :
  AssetReads.clear_of sep a t = true ->
  split_go sep 0 cur (a ++ t) = split_go sep 0 (rev a ++ cur) t.
Proof.
  revert cur. induction a as [|c a IH]; intros cur H; [reflexivity|].
  cbn [AssetReads.clear_of app] in H. cbn [app split_go]. revert H.
  destruct (strip_prefix sep (c :: a ++ t)); [discriminate|]. intros H.
  rewrite (IH (c :: cur) H). simpl. now rewrite <- app_assoc.
Qed.

(** A string with one occurrence of the separator splits in two. *)
Lemma split_once (a b : str) :
  sep <> [] ->
  AssetReads.clear_of sep a (sep ++ b) = true ->
  AssetReads.clear_of sep b [] = true ->
  split sep (a ++ sep ++ b) = [a; b].
Proof.
  intros Hsep Ha Hb. unfold split.
  rewrite (split_go_clear a (sep ++ b) [] Ha), app_nil_r.
  rewrite (split_go_match b (rev a) Hsep), rev_involutive.
  rewrite <- (app_nil_r b) at 1.
  rewrite (split_go_clear b [] [] Hb), app_nil_r.
  simpl. now rewrite rev_involutive.
Qed.

(** A string without the separator is one piece. *)
Lemma split_none (b : str) :
  AssetReads.clear_of sep b [] = true -> split sep b = [b].
Proof.
  intros Hb. unfold split. rewrite <- (app_nil_r b) at 1.
  rewrite (split_go_clear b [] [] Hb), app_nil_r.
  simpl. now rewrite rev_involutive.
Qed.

End SplitAt.

(** A string in which a code unit does not occur has no occurrence of it
    as a separator. *)
Lemma clear_of_single (c : N) (a t : str) :
  ~ In c a -> AssetReads.clear_of [c] a t = true.
Proof.
  induction a as [|x a IH]; intros H; [reflexivity|].
  cbn [AssetReads.clear_of app strip_prefix].
  destruct (N.eqb_spec c x) as [-> | Hx].
  - exfalso. apply H. now left.
  - apply IH. intros Hin. apply H. now right.
Qed.

(* ================================================================== *)
(** * The credential gate *)

(** The gate on a header of two words. *)
Lemma authenticate_header (env : Env) (scheme token : str) :
  ~ In 32%N scheme -> ~ In 32%N token -> token <> [] ->
  Middleware.authenticateToken env (Some (scheme ++ 32%N :: token))
  = match jwt_verify env token with
    | Some user => inr user
    | None => inl (json_message 403 "Invalid token")
    end.
Proof.
  intros Hs Ht Hne. unfold Middleware.authenticateToken.
  change (lit " ") with [32%N].
  change (scheme ++ 32%N :: token) with (scheme ++ [32%N] ++ token).
  rewrite split_once;
    [| discriminate | now apply clear_of_single | now apply clear_of_single].
  destruct (scheme ++ [32%N] ++ token) eqn:E.
  { destruct scheme; discriminate. }
  cbn [nth_error]. destruct token as [|c t]; [contradiction|].
  reflexivity.
Qed.

(** X1: the gate reads the token after the first space of the header and
    never looks at the word before it: for any scheme word and any token
    free of spaces, the outcome is that of verifying the token, the claims
    when it verifies and 403 "Invalid token" when it does not. *)
Theorem authenticate_any_scheme (env : Env) (scheme token : str) :
  ~ In 32%N scheme -> ~ In 32%N token -> token <> [] ->
  Middleware.authenticateToken env (Some (scheme ++ 32%N :: token))
  = match jwt_verify env token with
    | Some user => inr user
    | None => inl (json_message 403 "Invalid token")
    end.
Proof. exact (authenticate_header env scheme token). Qed.

(** The token of Alice under the scheme word Basic. *)
Lemma authenticate_any_scheme_witness :
  Middleware.authenticateToken Example.env (Some (lit "Basic alice"))
  = inr {| c_id := Some 1%Z; c_role := Some (lit "user") |}.
Proof.
  apply (authenticate_any_scheme Example.env (lit "Basic") (lit "alice")).
  - cbn. intuition discriminate.
  - cbn. intuition discriminate.
  - discriminate.
Defined.

(** X2: without a header, with a header that has no space, or with one
    that ends at its first space, the gate answers 401 and no token is
    verified. *)
Theorem authenticate_without_token (env : Env) (h : str) :
  ~ In 32%N h ->
  let refused := inl (json_message 401 "Access denied. No token provided.") in
  Middleware.authenticateToken env None = refused
  /\ Middleware.authenticateToken env (Some h) = refused
  /\ Middleware.authenticateToken env (Some (h ++ [32%N])) = refused.
Proof.
  intros Hh. cbv zeta. unfold Middleware.authenticateToken.
  change (lit " ") with [32%N]. repeat split.
  - destruct h as [|c h']; [reflexivity|].
    rewrite split_none by now apply clear_of_single. reflexivity.
  - replace (h ++ [32%N]) with (h ++ [32%N] ++ []) by reflexivity.
    rewrite split_once;
      [| discriminate | now apply clear_of_single | reflexivity].
    destruct (h ++ [32%N] ++ []) eqn:E; [destruct h; discriminate|].
    reflexivity.
Qed.

Lemma authenticate_without_token_witness :
  Middleware.authenticateToken Example.env (Some (lit "Bearer"))
  = inl (json_message 401 "Access denied. No token provided.")
  /\ Middleware.authenticateToken Example.env (Some (lit "Bearer "))
     = inl (json_message 401 "Access denied. No token provided.").
Proof.
  destruct (authenticate_without_token Example.env (lit "Bearer")) as (_ & H1 & H2).
  - cbn. intuition discriminate.
  - split; [exact H1 | exact H2].
Defined.

(** X3: a request that the credential gate refuses is answered with the
    gate's refusal by every protected route, and the world is untouched:
    no query, no transfer, no file. *)
Theorem protected_routes_need_token
    (env : Env) (auth : option str) (refusal : Response) (w : World) :
  Middleware.authenticateToken env auth = inl refusal ->
  (forall req, Assets.up_authorization req = auth ->
     Assets.upload_route env req w = (refusal, w))
  /\ (forall filename,
        Assets.delete_route env auth filename w = (refusal, w)
        /\ Admin.delete_route env auth filename w = (refusal, w)
        /\ AssetReads.info_route env auth filename w = (reply_of refusal, w))
  /\ Admin.visibility_route env auth w = (refusal, w)
  /\ Server.profile env auth w = (reply_of refusal, w)
  /\ AssetReads.list_route env auth w = (reply_of refusal, w)
  /\ AssetReads.stats_route env auth w = (reply_of refusal, w)
  /\ AdminReads.users_route env auth w = (reply_of refusal, w)
  /\ AdminReads.assets_route env auth w = (reply_of refusal, w)
  /\ AdminReads.count_users_route env auth w = (reply_of refusal, w)
  /\ AdminReads.count_assets_route env auth w = (reply_of refusal, w)
  /\ AdminReads.storage_route env auth w = (reply_of refusal, w).
Proof.
  intros H.
  unfold Assets.upload_route, Assets.delete_route, Admin.delete_route,
    AssetReads.info_route, Admin.visibility_route, Server.profile,
    AssetReads.list_route, AssetReads.stats_route, AdminReads.users_route,
    AdminReads.assets_route, AdminReads.count_users_route,
    AdminReads.count_assets_route, AdminReads.storage_route,
    AdminReads.admin_only.
  rewrite H. repeat split.
  - intros req ->. now rewrite H.
  - destruct filename as [|c filename]; [reflexivity|].
    now destruct (AssetReads.is_stats (c :: filename)).
Qed.

(** A request without an Authorization header. *)
Lemma protected_routes_need_token_witness :
  Server.profile Example.env None (Example.stocked (JObj []))
  = (reply_of (json_message 401 "Access denied. No token provided."),
     Example.stocked (JObj []))
  /\ AdminReads.users_route Example.env None (Example.stocked (JObj []))
     = (reply_of (json_message 401 "Access denied. No token provided."),
        Example.stocked (JObj [])).
Proof.
  destruct (protected_routes_need_token Example.env None
              (json_message 401 "Access denied. No token provided.")
              (Example.stocked (JObj [])) eq_refl)
    as (_ & _ & _ & Hp & _ & _ & Hu & _).
  split; [exact Hp | exact Hu].
Defined.

(** The role gate lets a role through exactly when it is in the list. *)
Lemma requireRole_admin (user : Claims) :
  c_role user <> Some (lit "admin") ->
  Middleware.requireRole [lit "admin"] user
  = Some match c_role user with
         | None | Some [] => json_message 401 "No role found"
         | Some (_ :: _) => json_message 403 "Forbidden: insufficient role"
         end.
Proof.
  intros H. unfold Middleware.requireRole.
  destruct (c_role user) as [[|c role]|]; try reflexivity.
  cbn [existsb]. rewrite orb_false_r.
  destruct (eqb (c :: role) (lit "admin")) eqn:E; [|reflexivity].
  apply eqb_eq in E. now rewrite E in H.
Qed.

(** The admin routes before a role that is not "admin". *)
Lemma admin_routes_refuse
    (env : Env) (auth : option str) (user : Claims) (w : World) :
  Middleware.authenticateToken env auth = inr user ->
  c_role user <> Some (lit "admin") ->
  let refusal :=
    match c_role user with
    | None | Some [] => json_message 401 "No role found"
    | Some (_ :: _) => json_message 403 "Forbidden: insufficient role"
    end in
  (forall filename, Admin.delete_route env auth filename w = (refusal, w))
  /\ Admin.visibility_route env auth w = (refusal, w)
  /\ AdminReads.users_route env auth w = (reply_of refusal, w)
  /\ AdminReads.assets_route env auth w = (reply_of refusal, w)
  /\ AdminReads.count_users_route env auth w = (reply_of refusal, w)
  /\ AdminReads.count_assets_route env auth w = (reply_of refusal, w)
  /\ AdminReads.storage_route env auth w = (reply_of refusal, w).
Proof.
  intros Hauth Hrole. cbv zeta.
  unfold Admin.delete_route, Admin.visibility_route, AdminReads.users_route,
    AdminReads.assets_route, AdminReads.count_users_route,
    AdminReads.count_assets_route, AdminReads.storage_route,
    AdminReads.admin_only.
  rewrite Hauth, (requireRole_admin user Hrole). repeat split.
Qed.

(** X4: a verified token whose role is not "admin" is turned away by every
    admin route, with 403 when it names another role and with 401 when it
    names none, and the world is untouched. *)
Theorem admin_routes_need_admin
    (env : Env) (auth : option str) (user : Claims) (w : World) :
  Middleware.authenticateToken env auth = inr user ->
  c_role user <> Some (lit "admin") ->
  let refusal :=
    match c_role user with
    | None | Some [] => json_message 401 "No role found"
    | Some (_ :: _) => json_message 403 "Forbidden: insufficient role"
    end in
  (forall filename, Admin.delete_route env auth filename w = (refusal, w))
  /\ Admin.visibility_route env auth w = (refusal, w)
  /\ AdminReads.users_route env auth w = (reply_of refusal, w)
  /\ AdminReads.assets_route env auth w = (reply_of refusal, w)
  /\ AdminReads.count_users_route env auth w = (reply_of refusal, w)
  /\ AdminReads.count_assets_route env auth w = (reply_of refusal, w)
  /\ AdminReads.storage_route env auth w = (reply_of refusal, w).
Proof. exact (admin_routes_refuse env auth user w). Qed.

(** Alice, whose role is "user", asks for the list of users. *)
Lemma admin_routes_need_admin_witness :
  AdminReads.users_route Example.env (Example.bearer "alice")
    (Example.stocked (JObj []))
  = (reply_of (json_message 403 "Forbidden: insufficient role"),
     Example.stocked (JObj [])).
Proof.
  destruct (admin_routes_need_admin Example.env (Example.bearer "alice")
              {| c_id := Some 1%Z; c_role := Some (lit "user") |}
              (Example.stocked (JObj [])) eq_refl)
    as (_ & _ & H & _).
  - discriminate.
  - exact H.
Defined.

(* ================================================================== *)
(** * The locator of an object *)

(** X5: the key the delete route reads from a locator is the key the
    upload route built the locator for, as long as the separator text
    occurs neither before the key (in bucket or region) nor in the key. *)
Theorem locator_round_trip (env : Env) (s3Key : str) :
  AssetReads.clear_of AssetReads.amazonaws
    (lit "https://" ++ env_text (AWS_S3_BUCKET env) ++ lit ".s3."
       ++ env_text (AWS_REGION env))
    (AssetReads.amazonaws ++ s3Key) = true ->
  AssetReads.clear_of AssetReads.amazonaws s3Key [] = true ->
  Assets.key_of_locator (AssetReads.file_url env s3Key) = Some s3Key.
Proof.
  intros Ha Hk. unfold Assets.key_of_locator, AssetReads.file_url.
  change (lit ".amazonaws.com/") with AssetReads.amazonaws.
  replace (lit "https://" ++ env_text (AWS_S3_BUCKET env) ++ lit ".s3."
             ++ env_text (AWS_REGION env) ++ AssetReads.amazonaws ++ s3Key)
    with ((lit "https://" ++ env_text (AWS_S3_BUCKET env) ++ lit ".s3."
             ++ env_text (AWS_REGION env)) ++ AssetReads.amazonaws ++ s3Key)
    by now rewrite <- !app_assoc.
  rewrite (split_once AssetReads.amazonaws _ s3Key); [reflexivity | discriminate | exact Ha | exact Hk].
Qed.

Lemma locator_round_trip_witness :
  let key := AssetReads.s3_key Example.env (lit "1700000000000-dog.jpg") in
  AssetReads.file_url Example.env key
  = lit "https://vault.s3.ap-south-1.amazonaws.com/uploads/1700000000005-1700000000000-dog.jpg"
  /\ Assets.key_of_locator (AssetReads.file_url Example.env key) = Some key.
Proof.
  split; [reflexivity|].
  apply (locator_round_trip Example.env
           (AssetReads.s3_key Example.env (lit "1700000000000-dog.jpg")));
    reflexivity.
Defined.

(* ================================================================== *)
(** * Registration and login *)

Section Accounts.

Variable env : Env.

(** An INSERT into [users] that succeeds adds a row whose id and email no
    row had; the row holds the values as their columns take them. *)
Lemma insert_user_fresh now nm em pw rl d u d' :
  Pg.insert_user now nm em pw rl d = (inr u, d') ->
  Pg.users d' = Pg.users d ++ [u]
  /\ Pg.assets d' = Pg.assets d
  /\ ~ In (Pg.u_id u) (map Pg.u_id (Pg.users d))
  /\ ~ In (Pg.u_email u) (map Pg.u_email (Pg.users d))
  /\ Pg.varchar 255 em = Some (Some (Pg.u_email u))
  /\ Pg.varchar 255 pw = Some (Some (Pg.u_password u))
  /\ Pg.varchar 50 rl = Some (Pg.u_role u)
  /\ Pg.u_id u = (Pg.users_id_seq d + 1)%Z.
Proof.
  unfold Pg.insert_user; cbv zeta.
  destruct (Pg.varchar 100 nm) as [nm'|]; [|discriminate].
  destruct (Pg.varchar 255 em) as [em'|]; [|discriminate].
  destruct (Pg.varchar 255 pw) as [pw'|]; [|discriminate].
  destruct (Pg.varchar 50 rl) as [rl'|]; [|discriminate].
  destruct (2147483647 <? Pg.users_id_seq d + 1)%Z; [discriminate|].
  destruct em' as [e|]; [|discriminate].
  destruct pw' as [p|]; [|discriminate].
  destruct (existsb _ (Pg.users d)) eqn:Hid; [discriminate|].
  destruct (existsb (fun u0 => eqb (Pg.u_email u0) e) (Pg.users d)) eqn:Hem;
    [discriminate|].
  intros [= <- <-]. cbn. repeat split; try reflexivity.
  - intros Hin. apply in_map_iff in Hin as (x & Hx & Hin).
    assert (existsb (fun u0 => (Pg.u_id u0 =? Pg.users_id_seq d + 1)%Z)
              (Pg.users d) = true) as Ht
      by (apply existsb_exists; exists x; split; [assumption | now apply Z.eqb_eq]).
    congruence.
  - intros Hin. apply in_map_iff in Hin as (x & Hx & Hin).
    assert (existsb (fun u0 => eqb (Pg.u_email u0) e) (Pg.users d) = true) as Ht
      by (apply existsb_exists; exists x; split; [assumption | now apply eqb_eq]).
    congruence.
Qed.

(** What registration does to the [users] table: nothing, or the one
    INSERT of the route, with the literal role. *)
Lemma register_users (b : Auth.RegisterBody) (w : World) :
  let out := Auth.register env b w in
  (status (fst out) <> 201%N /\ Pg.users (db (snd out)) = Pg.users (db w))
  \/ (exists p u d',
        Auth.password b = Some p
        /\ Pg.select_users_by_email (Auth.email b) (db w) = []
        /\ Pg.insert_user (current_timestamp env) (Auth.name b) (Auth.email b)
             (Some (bcrypt_hash env p 10)) (Some (lit "user")) (db w)
           = (inr u, d')
        /\ db (snd out) = d'
        /\ queries (snd out) = S (S (queries w))
        /\ status (fst out) = 201%N).
Proof.
  unfold Auth.register, respond, Auth.register_handler, try_catch, bind, query.
  cbn.
  destruct (db_fault env (queries w)) as [m|]; cbn.
  { left; split; [discriminate | reflexivity]. }
  destruct (Pg.select_users_by_email (Auth.email b) (db w)) eqn:Hsel; cbn.
  2:{ left; split; [discriminate | reflexivity]. }
  destruct (Auth.password b) as [p|]; cbn.
  2:{ left; split; [discriminate | reflexivity]. }
  destruct (db_fault env (S (queries w))) as [m|]; cbn.
  { left; split; [discriminate | reflexivity]. }
  pose proof (insert_user_cases (current_timestamp env) (Auth.name b)
                (Auth.email b) (Some (bcrypt_hash env p 10))
                (Some (lit "user")) (db w)) as H.
  cbv zeta in H.
  destruct (Pg.insert_user _ _ _ _ _ (db w)) as [[e|u] d] eqn:Hins; cbn in *.
  - left; split; [discriminate|].
    destruct H as [(e' & _ & H) | (u & H & _)]; [exact H | discriminate].
  - right. exists p, u, d. repeat split; try reflexivity. exact Hins.
Qed.

End Accounts.

(** X6: registration keeps the keys of [users]: when no two rows share
    an id and no two share an email before a request, the same holds
    after it, whatever the request. *)
Theorem register_keeps_keys (env : Env) (b : Auth.RegisterBody) (w : World) :
  NoDup (map Pg.u_id (Pg.users (db w))) ->
  NoDup (map Pg.u_email (Pg.users (db w))) ->
  let after := Pg.users (db (snd (Auth.register env b w))) in
  NoDup (map Pg.u_id after) /\ NoDup (map Pg.u_email after).
Proof.
  intros Hid Hem. cbv zeta.
  destruct (register_users env b w)
    as [[_ H] | (p & u & d' & _ & _ & Hins & Hdb & _)].
  - rewrite H. now split.
  - rewrite Hdb.
    apply insert_user_fresh in Hins as (Hu & _ & Hfid & Hfem & _).
    rewrite Hu, !map_app. cbn [map].
    split; apply NoDup_app; try assumption;
      try (constructor; [intros [] | constructor]);
      intros x Hx [<- | []]; contradiction.
Qed.

Lemma register_keeps_keys_witness :
  let after := Pg.users (db (snd (Auth.register Example.env Example.newcomer
                                    Example.empty))) in
  List.length after = 3
  /\ NoDup (map Pg.u_id after) /\ NoDup (map Pg.u_email after).
Proof.
  split; [reflexivity|].
  apply (register_keeps_keys Example.env Example.newcomer Example.empty).
  - repeat constructor; cbn; intuition discriminate.
  - repeat constructor; cbn; intuition discriminate.
Defined.

(** X7: a registration whose email a user already has is answered 400
    "User already exists" after the one SELECT: no password is hashed and
    nothing is written. *)
Theorem register_existing_email
    (env : Env) (b : Auth.RegisterBody) (w : World) (u : Pg.User) :
  db_fault env (queries w) = None ->
  In u (Pg.users (db w)) ->
  Auth.email b = Some (Pg.u_email u) ->
  Auth.register env b w
  = (json_message 400 "User already exists", sent Auth.select_user_statement w).
Proof.
  intros Hdb Hin Hem.
  unfold Auth.register, respond, Auth.register_handler, try_catch, bind, query.
  rewrite Hdb. cbn.
  destruct (Pg.select_users_by_email (Auth.email b) (db w)) eqn:Hsel.
  - exfalso. assert (In u []) as []. rewrite <- Hsel.
    apply filter_In. split; [assumption|].
    rewrite Hem. cbn. apply eqb_refl.
  - cbn. unfold with_db, sent. cbn. now destruct (db w).
Qed.

(** Somebody registers with Alice's address. *)
Lemma register_existing_email_witness :
  Auth.register Example.env
    {| Auth.name := Some (lit "Eve"); Auth.email := Some (lit "alice@example.org");
       Auth.password := Some (lit "pw"); Auth.role := None |}
    Example.empty
  = (json_message 400 "User already exists",
     sent Auth.select_user_statement Example.empty).
Proof.
  apply (register_existing_email Example.env _ Example.empty Example.alice).
  - reflexivity.
  - now left.
  - reflexivity.
Defined.

(** X8: login only reads: whatever the request and whatever the answer,
    the one thing it does to the world is to send its SELECT. *)
Theorem login_reads_only
    (env : Env) (tk : Tokens) (b : Login.LoginBody) (w : World) :
  snd (Login.login env tk b w) = sent Login.select_statement w.
Proof.
  unfold Login.login, answer, Login.login_handler, try_catch, bind, query.
  destruct (db_fault env (queries w)); cbn; [reflexivity|].
  destruct (Pg.select_users_by_email _ _) as [|first rest]; cbn;
    [reflexivity|].
  destruct (Login.password b) as [p|]; cbn; [|reflexivity].
  destruct (bcrypt_compare tk p (Pg.u_password first)); cbn; [|reflexivity].
  destruct (jwt_sign tk _); reflexivity.
Qed.

(** X9: an email nobody has and a wrong password for an email somebody
    has are answered alike, 400 "Invalid email or password": the reply
    does not tell whether the account exists. *)
Theorem login_failures_alike
    (env : Env) (tk : Tokens) (b : Login.LoginBody) (w : World) :
  db_fault env (queries w) = None ->
  Pg.select_users_by_email (Login.email b) (db w) = []
  \/ (exists first rest p,
        Pg.select_users_by_email (Login.email b) (db w) = first :: rest
        /\ Login.password b = Some p
        /\ bcrypt_compare tk p (Pg.u_password first) = false) ->
  fst (Login.login env tk b w)
  = reply_of (json_message 400 "Invalid email or password").
Proof.
  intros Hdb H.
  unfold Login.login, answer, Login.login_handler, try_catch, bind, query.
  rewrite Hdb.
  destruct H as [-> | (first & rest & p & -> & -> & Hp)]; cbn; [reflexivity|].
  now rewrite Hp.
Qed.

(** An unknown address, and Alice's address with a wrong password. *)
Lemma login_failures_alike_witness :
  fst (Login.login Demo.env Demo.tokens
         {| Login.email := Some (lit "nobody@example.org");
            Login.password := Some (lit "pw") |} Example.empty)
  = fst (Login.login Demo.env Demo.tokens
           {| Login.email := Some (lit "alice@example.org");
              Login.password := Some (lit "guess") |} Example.empty).
Proof.
  rewrite (login_failures_alike Demo.env Demo.tokens
             {| Login.email := Some (lit "nobody@example.org");
                Login.password := Some (lit "pw") |} Example.empty eq_refl
             (or_introl eq_refl)).
  symmetry.
  apply (login_failures_alike Demo.env Demo.tokens
           {| Login.email := Some (lit "alice@example.org");
              Login.password := Some (lit "guess") |} Example.empty eq_refl).
  right. exists Example.alice, [], (lit "guess"). repeat split.
Defined.

Section Journey.

Variables (env : Env) (tk : Tokens).

(** After a registration answered 201 with an email and a hash that are
    within the length of their columns, the table holds the new row,
    last, and it is the only one with the email that was sent. *)
Lemma register_then_select (b : Auth.RegisterBody) (w : World) :
  status (fst (Auth.register env b w)) = 201%N ->
  (forall e, Auth.email b = Some e -> (Pg.char_length e <= 255)%nat) ->
  (forall p, Auth.password b = Some p ->
     (Pg.char_length (bcrypt_hash env p 10) <= 255)%nat) ->
  exists p e u,
    Auth.password b = Some p /\ Auth.email b = Some e
    /\ Pg.select_users_by_email (Some e) (db (snd (Auth.register env b w))) = [u]
    /\ Pg.u_password u = bcrypt_hash env p 10
    /\ Pg.u_role u = Some (lit "user")
    /\ Pg.u_id u = (Pg.users_id_seq (db w) + 1)%Z
    /\ queries (snd (Auth.register env b w)) = S (S (queries w)).
Proof.
  intros H201 Hemail Hhash.
  destruct (register_users env b w)
    as [[Hn _] | (p & u & d' & Hp & Hsel & Hins & Hdb & Hq & _)];
    [contradiction|].
  apply insert_user_fresh in Hins
    as (Hu & _ & _ & _ & Hem & Hpw & Hrole & Hid).
  destruct (Auth.email b) as [e|] eqn:He; [|discriminate].
  rewrite (varchar_fits 255 e (Hemail e eq_refl)) in Hem.
  rewrite (varchar_fits 255 _ (Hhash p Hp)) in Hpw.
  injection Hem as Hem. injection Hpw as Hpw.
  assert (Hr : Some (Pg.u_role u) = Some (Some (lit "user")))
    by (rewrite <- Hrole; now vm_compute).
  injection Hr as Hr.
  exists p, e, u. rewrite Hdb.
  repeat split; try assumption; try congruence.
  unfold Pg.select_users_by_email in *. rewrite Hu, filter_app.
  rewrite Hsel. cbn. rewrite <- Hem. now rewrite eqb_refl.
Qed.

(** The whole journey of a new account, up to the token. *)
Lemma register_then_login (b : Auth.RegisterBody) (w : World) (token : str) :
  status (fst (Auth.register env b w)) = 201%N ->
  db_fault env (S (S (queries w))) = None ->
  (forall e, Auth.email b = Some e -> (Pg.char_length e <= 255)%nat) ->
  (forall p, Auth.password b = Some p ->
     (Pg.char_length (bcrypt_hash env p 10) <= 255)%nat
     /\ bcrypt_compare tk p (bcrypt_hash env p 10) = true) ->
  jwt_sign tk {| c_id := Some (Pg.users_id_seq (db w) + 1)%Z;
                 c_role := Some (lit "user") |} = Some token ->
  fst (Login.login env tk
         {| Login.email := Auth.email b; Login.password := Auth.password b |}
         (snd (Auth.register env b w)))
  = {| code := 200;
       payload := PObject [("message", IText "Login successful");
                           ("token", IStr token)]%string |}.
Proof.
  intros H201 Hdb Hemail Hlaw Hsign.
  destruct (register_then_select b w H201 Hemail (fun p Hp => proj1 (Hlaw p Hp)))
    as (p & e & u & Hp & He & Hsel & Hpw & Hrole & Hid & Hq).
  unfold Login.login, answer, Login.login_handler, try_catch, bind, query.
  cbn [Login.email Login.password].
  rewrite Hq, Hdb, He, Hsel, Hp. cbn.
  rewrite Hpw, (proj2 (Hlaw p Hp)). cbn. now rewrite Hrole, Hid, Hsign.
Qed.

End Journey.

(** X10: an account that registration has just created (201), with an
    email and a password hash that are within the 255 characters of their
    columns, can log in with the same email and password, provided
    [bcrypt.compare] accepts the password against its own hash and
    [jwt.sign] issues a token: the reply is 200 with the token signed for
    the new id and the role "user". *)
Theorem login_after_register
    (env : Env) (tk : Tokens) (b : Auth.RegisterBody) (w : World)
    (token : str) :
  status (fst (Auth.register env b w)) = 201%N ->
  db_fault env (S (S (queries w))) = None ->
  (forall e, Auth.email b = Some e -> (Pg.char_length e <= 255)%nat) ->
  (forall p, Auth.password b = Some p ->
     (Pg.char_length (bcrypt_hash env p 10) <= 255)%nat
     /\ bcrypt_compare tk p (bcrypt_hash env p 10) = true) ->
  jwt_sign tk {| c_id := Some (Pg.users_id_seq (db w) + 1)%Z;
                 c_role := Some (lit "user") |} = Some token ->
  fst (Login.login env tk
         {| Login.email := Auth.email b; Login.password := Auth.password b |}
         (snd (Auth.register env b w)))
  = {| code := 200;
       payload := PObject [("message", IText "Login successful");
                           ("token", IStr token)]%string |}.
Proof. exact (register_then_login env tk b w token). Qed.

(** Mallory registers, asking for the role "admin", and logs in. *)
Lemma login_after_register_witness :
  fst (Login.login Demo.env Demo.tokens
         {| Login.email := Some (lit "mallory@example.org");
            Login.password := Some (lit "pw") |}
         (snd (Auth.register Demo.env Example.newcomer Example.empty)))
  = {| code := 200;
       payload := PObject [("message", IText "Login successful");
                           ("token", IStr (lit "jwt.user.3"))]%string |}.
Proof.
  apply (login_after_register Demo.env Demo.tokens Example.newcomer
           Example.empty (lit "jwt.user.3")).
  - reflexivity.
  - reflexivity.
  - intros e [= <-]. vm_compute. lia.
  - intros p [= <-]. split; [vm_compute; lia | reflexivity].
  - reflexivity.
Defined.

(** X11: an account made by registration never gets into an admin route.
    When registration answered 201, with an email and a password hash
    within the length of their columns, and the token that login then
    issues verifies to the claims it was signed for, that token,
    presented as a Bearer token, is answered 403 by every admin route, in
    any world, and the world is untouched. *)
Theorem fresh_account_is_no_admin
    (env : Env) (tk : Tokens) (b : Auth.RegisterBody) (w : World)
    (token : str) :
  status (fst (Auth.register env b w)) = 201%N ->
  db_fault env (S (S (queries w))) = None ->
  (forall e, Auth.email b = Some e -> (Pg.char_length e <= 255)%nat) ->
  (forall p, Auth.password b = Some p ->
     (Pg.char_length (bcrypt_hash env p 10) <= 255)%nat
     /\ bcrypt_compare tk p (bcrypt_hash env p 10) = true) ->
  let claims := {| c_id := Some (Pg.users_id_seq (db w) + 1)%Z;
                   c_role := Some (lit "user") |} in
  jwt_sign tk claims = Some token ->
  jwt_verify env token = Some claims ->
  ~ In 32%N token -> token <> [] ->
  member "token"
    match payload (fst (Login.login env tk
                          {| Login.email := Auth.email b;
                             Login.password := Auth.password b |}
                          (snd (Auth.register env b w)))) with
    | PObject o => o
    | _ => []
    end = Some (IStr token)
  /\ forall w',
       let auth := Some (lit "Bearer" ++ 32%N :: token) in
       let refusal := json_message 403 "Forbidden: insufficient role" in
       (forall filename, Admin.delete_route env auth filename w' = (refusal, w'))
       /\ Admin.visibility_route env auth w' = (refusal, w')
       /\ AdminReads.users_route env auth w' = (reply_of refusal, w')
       /\ AdminReads.assets_route env auth w' = (reply_of refusal, w')
       /\ AdminReads.count_users_route env auth w' = (reply_of refusal, w')
       /\ AdminReads.count_assets_route env auth w' = (reply_of refusal, w')
       /\ AdminReads.storage_route env auth w' = (reply_of refusal, w').
Proof.
  intros H201 Hdb Hemail Hlaw claims Hsign Hverify Hspace Hne. split.
  - now rewrite (register_then_login env tk b w token H201 Hdb Hemail Hlaw Hsign).
  - intros w'.
    assert (Hauth : Middleware.authenticateToken env
                      (Some (lit "Bearer" ++ 32%N :: token)) = inr claims).
    { rewrite authenticate_header; try assumption.
      - now rewrite Hverify.
      - cbn. intuition discriminate. }
    apply (admin_routes_refuse env _ claims w' Hauth). discriminate.
Qed.

(** Mallory, registered while asking for the role "admin", takes the
    token of the login to the list of users. *)
Lemma fresh_account_is_no_admin_witness :
  AdminReads.users_route Demo.env (Some (lit "Bearer jwt.user.3")) Demo.library
  = (reply_of (json_message 403 "Forbidden: insufficient role"), Demo.library).
Proof.
  destruct (fresh_account_is_no_admin Demo.env Demo.tokens Example.newcomer
              Example.empty (lit "jwt.user.3")) as (_ & H).
  - reflexivity.
  - reflexivity.
  - intros e [= <-]. vm_compute. lia.
  - intros p [= <-]. split; [vm_compute; lia | reflexivity].
  - reflexivity.
  - reflexivity.
  - cbn. intuition discriminate.
  - discriminate.
  - destruct (H Demo.library) as (_ & _ & Hu & _). exact Hu.
Defined.

(* ================================================================== *)
(** * Ordered results *)

Section Sorting.

Context {A : Type} (le : A -> A -> bool).

Hypothesis le_total : forall x y, le x y = true \/ le y x = true.

Lemma insert_by_perm (x : A) (l : list A) :
  Permutation (PgRead.insert_by le x l) (x :: l).
Proof.
  induction l as [|y l IH]; simpl; [reflexivity|].
  destruct (le x y); [reflexivity|].
  rewrite IH. apply perm_swap.
Qed.

Lemma sort_by_perm (l : list A) : Permutation (PgRead.sort_by le l) l.
Proof.
  induction l as [|x l IH]; simpl; [reflexivity|].
  rewrite insert_by_perm. now constructor.
Qed.

Lemma insert_by_head (y x : A) (l : list A) :
  HdRel (fun a b => le a b = true) y l -> le y x = true ->
  HdRel (fun a b => le a b = true) y (PgRead.insert_by le x l).
Proof.
  intros Hl Hyx. destruct l as [|z l]; simpl; [now constructor|].
  destruct (le x z); constructor; [assumption|].
  now inversion Hl.
Qed.

Lemma insert_by_ordered (x : A) (l : list A) :
  PgRead.ordered le l -> PgRead.ordered le (PgRead.insert_by le x l).
Proof.
  unfold PgRead.ordered. induction l as [|y l IH]; intros Hs; simpl.
  - repeat constructor.
  - destruct (le x y) eqn:Hxy.
    + constructor; [assumption | now constructor].
    + inversion Hs as [|? ? Hl Hy]; subst. constructor; [now apply IH|].
      apply insert_by_head; [assumption|].
      destruct (le_total x y) as [H | H]; [congruence | exact H].
Qed.

Lemma sort_by_ordered (l : list A) : PgRead.ordered le (PgRead.sort_by le l).
Proof.
  induction l as [|x l IH]; simpl; [constructor|].
  now apply insert_by_ordered.
Qed.

End Sorting.

Lemma newer_total (a b : Pg.Asset) :
  PgRead.newer a b = true \/ PgRead.newer b a = true.
Proof.
  unfold PgRead.newer.
  destruct (Pg.a_created_at a) as [x|], (Pg.a_created_at b) as [y|]; auto.
  destruct (N.leb_spec y x); [now left|]. right. apply N.leb_le. lia.
Qed.

Lemma by_id_total (u v : Pg.User) :
  PgRead.by_id u v = true \/ PgRead.by_id v u = true.
Proof.
  unfold PgRead.by_id.
  destruct (Z.leb_spec (Pg.u_id u) (Pg.u_id v)); [now left|].
  right. apply Z.leb_le. lia.
Qed.

Lemma heavier_total (x y : PgRead.owner_key * Z) :
  PgRead.heavier x y = true \/ PgRead.heavier y x = true.
Proof.
  unfold PgRead.heavier.
  destruct (Z.leb_spec (snd y) (snd x)); [now left|].
  right. apply Z.leb_le. lia.
Qed.

Lemma uploaded_by_spec (uploader : option Z) (a : Pg.Asset) :
  PgRead.uploaded_by uploader a = true <->
  exists id, uploader = Some id /\ Pg.a_uploader_id a = Some id.
Proof.
  unfold PgRead.uploaded_by, Pg.sql_eq_int.
  destruct (Pg.a_uploader_id a) as [x|], uploader as [y|]; split;
    try discriminate; try (intros (id & H1 & H2); discriminate).
  - intros H. apply Z.eqb_eq in H. subst. now exists y.
  - intros (id & [= ->] & [= ->]). apply Z.eqb_refl.
Qed.

(* ================================================================== *)
(** * Reading one's own assets *)

Arguments PgRead.select_assets_of : simpl never.
Arguments PgRead.select_assets : simpl never.
Arguments PgRead.select_asset : simpl never.
Arguments PgRead.select_user_stats : simpl never.
Arguments PgRead.select_users : simpl never.
Arguments PgRead.select_profile : simpl never.
Arguments PgRead.select_storage : simpl never.

Section OwnAssets.

Variables (env : Env) (auth : option str) (user : Claims).

Hypothesis Hauth : Middleware.authenticateToken env auth = inr user.

Lemma list_route_reply (w : World) :
  db_fault env (queries w) = None ->
  AssetReads.list_route env auth w
  = ({| code := 200;
        payload := PRows (map Pg.asset_row
                            (PgRead.select_assets_of (c_id user) (db w))) |},
     sent AssetReads.list_statement w).
Proof.
  intros Hdb. unfold AssetReads.list_route. rewrite Hauth.
  unfold answer, AssetReads.list_handler, try_catch, bind, query.
  rewrite Hdb. cbn. unfold with_db, sent. cbn. now destruct (db w).
Qed.

Lemma stats_route_reply (w : World) :
  db_fault env (queries w) = None ->
  AssetReads.stats_route env auth w
  = ({| code := 200;
        payload :=
          PObject
            [("total_files",
              IDatum (VBig (fst (PgRead.select_user_stats (c_id user) (db w)))));
             ("total_storage_bytes",
              IDatum (VBig (snd (PgRead.select_user_stats (c_id user) (db w)))))]%string |},
     sent AssetReads.stats_statement w).
Proof.
  intros Hdb. unfold AssetReads.stats_route. rewrite Hauth.
  unfold answer, AssetReads.stats_handler, try_catch, bind, query.
  rewrite Hdb. cbn. unfold with_db, sent. cbn. now destruct (db w).
Qed.

Lemma info_route_reply (filename : str) (w : World) :
  filename <> [] -> AssetReads.is_stats filename = false ->
  db_fault env (queries w) = None ->
  AssetReads.info_route env auth filename w
  = (match PgRead.select_asset filename (c_id user) (db w) with
     | [] => reply_of (json_message 404 "File not found or not owned by user")
     | file :: _ =>
         {| code := 200;
            payload := PObject
                         [("message", IText "✅ File found");
                          ("file", IRow (Pg.asset_row file));
                          ("s3_url", IStr (Pg.a_filepath file))]%string |}
     end,
     sent AssetReads.info_statement w).
Proof.
  intros Hne Hstats Hdb. unfold AssetReads.info_route.
  destruct filename as [|c filename]; [contradiction|].
  rewrite Hstats, Hauth.
  unfold answer, AssetReads.info_handler, try_catch, bind, query.
  rewrite Hdb. cbn.
  destruct (PgRead.select_asset (c :: filename) (c_id user) (db w)); cbn;
    unfold with_db, sent; cbn; now destruct (db w).
Qed.

End OwnAssets.

Lemma sql_sum_total (l : list Pg.Asset) :
  PgRead.coalesce0 (PgRead.sql_sum (map Pg.a_size l)) = PgRead.total_size l.
Proof.
  induction l as [|a l IH]; [reflexivity|].
  cbn [map PgRead.sql_sum PgRead.total_size fold_right].
  fold (PgRead.total_size l). rewrite <- IH.
  destruct (Pg.a_size a) as [n|], (PgRead.sql_sum (map Pg.a_size l)) as [m|];
    cbn; lia.
Qed.

Lemma total_size_perm (l l' : list Pg.Asset) :
  Permutation l l' -> PgRead.total_size l = PgRead.total_size l'.
Proof.
  unfold PgRead.total_size. induction 1; cbn in *; lia.
Qed.

(** X12: the listing of [GET /assets] holds the requester's assets, each
    once and no other, the newest first; the route only reads. *)
Theorem list_shows_own_assets
    (env : Env) (auth : option str) (user : Claims) (w : World) :
  Middleware.authenticateToken env auth = inr user ->
  db_fault env (queries w) = None ->
  exists rows,
    AssetReads.list_route env auth w
    = ({| code := 200; payload := PRows (map Pg.asset_row rows) |},
       sent AssetReads.list_statement w)
    /\ Permutation rows
         (filter (PgRead.uploaded_by (c_id user)) (Pg.assets (db w)))
    /\ PgRead.ordered PgRead.newer rows
    /\ forall a, In a rows ->
         In a (Pg.assets (db w))
         /\ exists id, c_id user = Some id /\ Pg.a_uploader_id a = Some id.
Proof.
  intros Hauth Hdb.
  exists (PgRead.select_assets_of (c_id user) (db w)).
  split; [exact (list_route_reply env auth user Hauth w Hdb)|].
  unfold PgRead.select_assets_of.
  pose proof (sort_by_perm PgRead.newer
                (filter (PgRead.uploaded_by (c_id user)) (Pg.assets (db w)))) as Hp.
  split; [exact Hp|]. split; [apply sort_by_ordered, newer_total|].
  intros a H. eapply Permutation_in in H; [|exact Hp].
  apply filter_In in H as [Hin H]. split; [exact Hin|].
  now apply uploaded_by_spec.
Qed.

(** Alice's listing in the example library: Alice's two assets, and not the
    administrator's plan. *)
Lemma list_shows_own_assets_witness :
  exists rows,
    fst (AssetReads.list_route Demo.env (Example.bearer "alice") Demo.library)
    = {| code := 200; payload := PRows (map Pg.asset_row rows) |}
    /\ Permutation rows
         [Demo.dog; Example.cat (JObj [(lit "public", JBool false)])].
Proof.
  destruct (list_shows_own_assets Demo.env (Example.bearer "alice")
              {| c_id := Some 1%Z; c_role := Some (lit "user") |}
              Demo.library eq_refl eq_refl) as (rows & Hr & Hp & _).
  exists rows. split; [now rewrite Hr | exact Hp].
Defined.

(** X13: the figures of [GET /assets/stats] are those of the listing of
    [GET /assets]: the number of its rows and the sum of their sizes, a
    size that is NULL counting nothing; without assets both are 0. *)
Theorem stats_are_those_of_the_listing
    (env : Env) (auth : option str) (user : Claims) (w : World) :
  Middleware.authenticateToken env auth = inr user ->
  db_fault env (queries w) = None ->
  exists rows,
    fst (AssetReads.list_route env auth w)
    = {| code := 200; payload := PRows (map Pg.asset_row rows) |}
    /\ fst (AssetReads.stats_route env auth w)
       = {| code := 200;
            payload :=
              PObject
                [("total_files", IDatum (VBig (Z.of_nat (List.length rows))));
                 ("total_storage_bytes",
                  IDatum (VBig (PgRead.total_size rows)))]%string |}
    /\ (rows = [] ->
        fst (AssetReads.stats_route env auth w)
        = {| code := 200;
             payload := PObject [("total_files", IDatum (VBig 0));
                                 ("total_storage_bytes", IDatum (VBig 0))]%string |}).
Proof.
  intros Hauth Hdb.
  exists (PgRead.select_assets_of (c_id user) (db w)).
  rewrite (list_route_reply env auth user Hauth w Hdb).
  rewrite (stats_route_reply env auth user Hauth w Hdb).
  pose proof (sort_by_perm PgRead.newer
                (filter (PgRead.uploaded_by (c_id user)) (Pg.assets (db w)))) as Hp.
  assert (Heq : PgRead.select_user_stats (c_id user) (db w)
                = (Z.of_nat (List.length (PgRead.select_assets_of (c_id user) (db w))),
                   PgRead.total_size (PgRead.select_assets_of (c_id user) (db w)))).
  { unfold PgRead.select_user_stats, PgRead.select_assets_of. cbv zeta.
    rewrite sql_sum_total, (Permutation_length Hp), (total_size_perm _ _ Hp).
    reflexivity. }
  rewrite Heq. cbn [fst snd]. split; [reflexivity|]. split; [reflexivity|].
  intros ->. reflexivity.
Qed.

(** Alice has two assets, of 10 bytes and of unknown size. *)
Lemma stats_are_those_of_the_listing_witness :
  fst (AssetReads.stats_route Demo.env (Example.bearer "alice") Demo.library)
  = {| code := 200;
       payload := PObject [("total_files", IDatum (VBig 2));
                           ("total_storage_bytes", IDatum (VBig 10))]%string |}
  /\ exists rows,
       fst (AssetReads.list_route Demo.env (Example.bearer "alice") Demo.library)
       = {| code := 200; payload := PRows (map Pg.asset_row rows) |}
       /\ fst (AssetReads.stats_route Demo.env (Example.bearer "alice") Demo.library)
          = {| code := 200;
               payload :=
                 PObject
                   [("total_files", IDatum (VBig (Z.of_nat (List.length rows))));
                    ("total_storage_bytes",
                     IDatum (VBig (PgRead.total_size rows)))]%string |}.
Proof.
  split; [reflexivity|].
  destruct (stats_are_those_of_the_listing Demo.env (Example.bearer "alice")
              {| c_id := Some 1%Z; c_role := Some (lit "user") |}
              Demo.library eq_refl eq_refl) as (rows & Hl & Hs & _).
  exists rows. split; assumption.
Defined.

Lemma owned_by_spec (filename : str) (uploader : option Z) (a : Pg.Asset) :
  Pg.owned_by filename uploader a = true <->
  Pg.a_filename a = filename
  /\ exists id, uploader = Some id /\ Pg.a_uploader_id a = Some id.
Proof.
  unfold Pg.owned_by. rewrite andb_true_iff, eqb_eq.
  now rewrite <- (uploaded_by_spec uploader a).
Qed.

(** X14: [GET /assets/:filename], for a name that is not empty and is
    not stats in any letter case (those paths belong to the routes
    registered before), answers 200 only with an asset of that name that
    the requester uploaded, giving its locator as [s3_url]; when the
    requester has none of that name, whether or not somebody else has,
    the answer is the same 404. *)
Theorem info_shows_own_asset
    (env : Env) (auth : option str) (user : Claims) (filename : str)
    (w : World) :
  Middleware.authenticateToken env auth = inr user ->
  filename <> [] -> AssetReads.is_stats filename = false ->
  db_fault env (queries w) = None ->
  let reply := fst (AssetReads.info_route env auth filename w) in
  snd (AssetReads.info_route env auth filename w)
  = sent AssetReads.info_statement w
  /\ ((forall a, In a (Pg.assets (db w)) ->
         Pg.owned_by filename (c_id user) a = false) ->
      reply = reply_of (json_message 404 "File not found or not owned by user"))
  /\ (code reply = 200%N ->
      exists file id,
        In file (Pg.assets (db w))
        /\ Pg.a_filename file = filename
        /\ c_id user = Some id /\ Pg.a_uploader_id file = Some id
        /\ payload reply
           = PObject [("message", IText "✅ File found");
                      ("file", IRow (Pg.asset_row file));
                      ("s3_url", IStr (Pg.a_filepath file))]%string).
Proof.
  intros Hauth Hne Hstats Hdb. cbv zeta.
  rewrite (info_route_reply env auth user Hauth filename w Hne Hstats Hdb).
  cbn [fst snd]. split; [reflexivity|]. unfold PgRead.select_asset. split.
  - intros Hnone. now rewrite (filter_none _ _ Hnone).
  - destruct (filter _ (Pg.assets (db w))) as [|file rest] eqn:Hf;
      [discriminate|].
    intros _.
    assert (Hin : In file (filter (Pg.owned_by filename (c_id user))
                             (Pg.assets (db w))))
      by (rewrite Hf; now left).
    apply filter_In in Hin as [Hin Hown].
    apply owned_by_spec in Hown as (Hname & id & Hid & Hup).
    exists file, id. repeat split; assumption.
Qed.

(** The administrator asks for Alice's cat through the owner's route. *)
Lemma info_shows_own_asset_witness :
  fst (AssetReads.info_route Demo.env (Example.bearer "root")
         (lit "1690000000000-cat.png") Demo.library)
  = reply_of (json_message 404 "File not found or not owned by user").
Proof.
  destruct (info_shows_own_asset Demo.env (Example.bearer "root")
              {| c_id := Some 2%Z; c_role := Some (lit "admin") |}
              (lit "1690000000000-cat.png") Demo.library eq_refl)
    as (_ & H & _).
  - discriminate.
  - reflexivity.
  - reflexivity.
  - apply H. intros a [<- | [<- | [<- | []]]]; reflexivity.
Defined.

(** The path /stats, in any letter case, is answered by the statistics,
    whatever assets there are. *)
Example stats_is_no_filename :
  AssetReads.info_route Demo.env (Example.bearer "alice") (lit "stats")
    Demo.library
  = AssetReads.stats_route Demo.env (Example.bearer "alice") Demo.library
  /\ AssetReads.info_route Demo.env (Example.bearer "alice") (lit "Stats")
       Demo.library
     = AssetReads.stats_route Demo.env (Example.bearer "alice") Demo.library
  /\ code (fst (AssetReads.info_route Demo.env (Example.bearer "alice")
                  (lit "stats") Demo.library)) = 200%N.
Proof. repeat split; reflexivity. Qed.

(** The owner's delete sends one query, whatever comes of it. *)
Lemma delete_route_queries
    (env : Env) (auth : option str) (user : Claims) (filename : str)
    (w : World) :
  Middleware.authenticateToken env auth = inr user ->
  queries (snd (Assets.delete_route env auth filename w)) = S (queries w).
Proof.
  intros Hauth. unfold Assets.delete_route. rewrite Hauth.
  unfold respond, Assets.delete_handler, try_catch, bind, query.
  destruct (db_fault env (queries w)); cbn; [reflexivity|].
  destruct (filter _ (Pg.assets (db w))) as [|first rest]; cbn; [reflexivity|].
  unfold s3_delete.
  destruct (Assets.key_of_locator (Pg.a_filepath first)) as [k|]; cbn;
    try reflexivity.
  destruct (s3_delete_fault env); reflexivity.
Qed.

(** X15: once the owner's delete has run its statement, whatever it went
    on to answer, the file is gone for its owner: for a name that is not
    empty and is not stats in any letter case, [GET /assets/:filename]
    answers 404; and, whatever the name, the listing has no row of it. *)
Theorem deleted_asset_is_gone
    (env : Env) (auth : option str) (user : Claims) (filename : str)
    (w : World) :
  Middleware.authenticateToken env auth = inr user ->
  db_fault env (queries w) = None ->
  db_fault env (S (queries w)) = None ->
  let w1 := snd (Assets.delete_route env auth filename w) in
  (filename <> [] -> AssetReads.is_stats filename = false ->
   fst (AssetReads.info_route env auth filename w1)
   = reply_of (json_message 404 "File not found or not owned by user"))
  /\ exists rows,
       fst (AssetReads.list_route env auth w1)
       = {| code := 200; payload := PRows (map Pg.asset_row rows) |}
       /\ forall a, In a rows -> Pg.a_filename a <> filename.
Proof.
  intros Hauth Hdb Hdb1 w1.
  pose proof (delete_route_leaves_no_match env auth filename user w Hauth Hdb)
    as Hgone.
  pose proof (delete_route_queries env auth user filename w Hauth) as Hq.
  fold w1 in Hgone, Hq. rewrite <- Hq in Hdb1. split.
  - intros Hne Hstats.
    rewrite (info_route_reply env auth user Hauth filename w1 Hne Hstats Hdb1).
    cbn [fst]. unfold PgRead.select_asset. now rewrite (filter_none _ _ Hgone).
  - exists (PgRead.select_assets_of (c_id user) (db w1)).
    rewrite (list_route_reply env auth user Hauth w1 Hdb1).
    split; [reflexivity|]. intros a Ha Hname.
    unfold PgRead.select_assets_of in Ha.
    eapply Permutation_in in Ha; [|apply sort_by_perm].
    apply filter_In in Ha as [Hin Hup].
    specialize (Hgone a Hin). unfold Pg.owned_by in Hgone.
    unfold PgRead.uploaded_by in Hup.
    rewrite Hname, eqb_refl, Hup in Hgone. discriminate.
Qed.

(** Alice deletes the picture of the cat and looks for it. *)
Lemma deleted_asset_is_gone_witness :
  let w1 := snd (Assets.delete_route Demo.env (Example.bearer "alice")
                   (lit "1690000000000-cat.png") Demo.library) in
  fst (AssetReads.info_route Demo.env (Example.bearer "alice")
         (lit "1690000000000-cat.png") w1)
  = reply_of (json_message 404 "File not found or not owned by user")
  /\ exists rows,
       fst (AssetReads.list_route Demo.env (Example.bearer "alice") w1)
       = {| code := 200; payload := PRows (map Pg.asset_row rows) |}
       /\ forall a, In a rows -> Pg.a_filename a <> lit "1690000000000-cat.png".
Proof.
  destruct (deleted_asset_is_gone Demo.env (Example.bearer "alice")
              {| c_id := Some 1%Z; c_role := Some (lit "user") |}
              (lit "1690000000000-cat.png") Demo.library eq_refl eq_refl eq_refl)
    as (Hinfo & Hlist).
  split; [|exact Hlist]. apply Hinfo; [discriminate | reflexivity].
Defined.

(** X16: the owner's delete, when the ledger has rows of the name and the
    requester and the first one's locator gives a key: the route answers
    200 with a bare message, the bucket loses the objects of that key and
    no other, and the ledger loses the rows of that name and owner and no
    other. *)
Theorem owner_delete_removes_object
    (env : Env) (auth : option str) (user : Claims) (filename : str)
    (w : World) (first : Pg.Asset) (rest : list Pg.Asset) (c : N) (k : str) :
  Middleware.authenticateToken env auth = inr user ->
  db_fault env (queries w) = None ->
  s3_delete_fault env = None ->
  filter (Pg.owned_by filename (c_id user)) (Pg.assets (db w)) = first :: rest ->
  Assets.key_of_locator (Pg.a_filepath first) = Some (c :: k) ->
  let out := Assets.delete_route env auth filename w in
  fst out = json_message 200 "🗑️ File deleted successfully from S3"
  /\ (forall o, In o (bucket (snd out)) <->
                In o (bucket w) /\ o_key o <> c :: k)
  /\ (forall a, In a (Pg.assets (db (snd out))) <->
                In a (Pg.assets (db w))
                /\ Pg.owned_by filename (c_id user) a = false).
Proof.
  intros Hauth Hdb Hs3 Hf Hkey. cbv zeta.
  unfold Assets.delete_route. rewrite Hauth.
  unfold respond, Assets.delete_handler, try_catch, bind, query.
  rewrite Hdb. cbn. rewrite Hf. cbn.
  unfold s3_delete. rewrite Hkey, Hs3. cbn.
  split; [reflexivity|]. split.
  - intros o. unfold without_key. rewrite filter_In, negb_true_iff, eqb_neq.
    reflexivity.
  - intros a. rewrite filter_In, negb_true_iff. reflexivity.
Qed.

(** Alice deletes the picture of the cat: its object leaves the bucket. *)
Lemma owner_delete_removes_object_witness :
  let out := Assets.delete_route Example.env (Example.bearer "alice")
               (lit "1690000000000-cat.png") (Example.stocked (JObj [])) in
  fst out = json_message 200 "🗑️ File deleted successfully from S3"
  /\ bucket (snd out) = [].
Proof.
  destruct (owner_delete_removes_object Example.env (Example.bearer "alice")
              {| c_id := Some 1%Z; c_role := Some (lit "user") |}
              (lit "1690000000000-cat.png") (Example.stocked (JObj []))
              (Example.cat (JObj [])) []
              117%N (lit "ploads/1690000000005-1690000000000-cat.png")
              eq_refl eq_refl eq_refl eq_refl eq_refl) as (Hr & _).
  split; [exact Hr | reflexivity].
Defined.

(* ================================================================== *)
(** * The administrator's routes *)

Lemma requireRole_passes_admin (user : Claims) :
  c_role user = Some (lit "admin") ->
  Middleware.requireRole [lit "admin"] user = None.
Proof. intros H. unfold Middleware.requireRole. now rewrite H. Qed.

Section Administrator.

Variables (env : Env) (auth : option str) (user : Claims).

Hypothesis Hauth : Middleware.authenticateToken env auth = inr user.
Hypothesis Hrole : c_role user = Some (lit "admin").

Lemma admin_only_answers (handler : M Reply) (w : World) :
  AdminReads.admin_only env auth handler w = answer handler w.
Proof.
  unfold AdminReads.admin_only.
  now rewrite Hauth, (requireRole_passes_admin user Hrole).
Qed.

Lemma users_route_reply (w : World) :
  db_fault env (queries w) = None ->
  AdminReads.users_route env auth w
  = ({| code := 200; payload := PRows (PgRead.select_users (db w)) |},
     sent AdminReads.users_statement w).
Proof.
  intros Hdb. unfold AdminReads.users_route. rewrite admin_only_answers.
  unfold answer, AdminReads.users_handler, try_catch, bind, query.
  rewrite Hdb. cbn. unfold with_db, sent. cbn. now destruct (db w).
Qed.

Lemma assets_route_reply (w : World) :
  db_fault env (queries w) = None ->
  AdminReads.assets_route env auth w
  = ({| code := 200;
        payload := PRows (map Pg.asset_row (PgRead.select_assets (db w))) |},
     sent AdminReads.assets_statement w).
Proof.
  intros Hdb. unfold AdminReads.assets_route. rewrite admin_only_answers.
  unfold answer, AdminReads.assets_handler, try_catch, bind, query.
  rewrite Hdb. cbn. unfold with_db, sent. cbn. now destruct (db w).
Qed.

Lemma storage_route_reply (w : World) :
  db_fault env (queries w) = None ->
  AdminReads.storage_route env auth w
  = ({| code := 200;
        payload := PRows (map PgRead.storage_row (PgRead.select_storage (db w))) |},
     sent AdminReads.storage_statement w).
Proof.
  intros Hdb. unfold AdminReads.storage_route. rewrite admin_only_answers.
  unfold answer, AdminReads.storage_handler, try_catch, bind, query.
  rewrite Hdb. cbn. unfold with_db, sent. cbn. now destruct (db w).
Qed.

Lemma admin_delete_reply (filename : str) (w : World) (first : Pg.Asset)
    (rest : list Pg.Asset) :
  db_fault env (queries w) = None ->
  filter (Pg.named filename) (Pg.assets (db w)) = first :: rest ->
  let out := Admin.delete_route env auth filename w in
  fst out = {| status := 200;
               body := BMessageAsset "Asset deleted by admin" (Pg.asset_row first) |}
  /\ Pg.assets (db (snd out))
     = filter (fun a => negb (Pg.named filename a)) (Pg.assets (db w))
  /\ Pg.users (db (snd out)) = Pg.users (db w)
  /\ bucket (snd out) = bucket w.
Proof.
  intros Hdb Hf. cbv zeta. unfold Admin.delete_route.
  rewrite Hauth, (requireRole_passes_admin user Hrole).
  unfold respond, Admin.delete_handler, try_catch, bind, query.
  rewrite Hdb. cbn. rewrite Hf. cbn.
  unfold exists_sync, unlink_sync.
  destruct (nonempty (Pg.a_filepath first)); cbn; [|repeat split].
  destruct (existsb (eqb (Pg.a_filepath first)) (disk w)) eqn:Hex; cbn;
    [rewrite Hex; cbn|]; repeat split.
Qed.

End Administrator.

(** X17: the administrator's delete does not look at the owner: when the
    ledger has a row of the name, whoever uploaded it, the route answers
    200 echoing the first such row, and afterwards the ledger holds the
    rows of every other name and none of this one. *)
Theorem admin_delete_any_owner
    (env : Env) (auth : option str) (user : Claims) (filename : str)
    (w : World) (a : Pg.Asset) :
  Middleware.authenticateToken env auth = inr user ->
  c_role user = Some (lit "admin") ->
  db_fault env (queries w) = None ->
  In a (Pg.assets (db w)) -> Pg.a_filename a = filename ->
  let out := Admin.delete_route env auth filename w in
  (exists first,
     fst out = {| status := 200;
                  body := BMessageAsset "Asset deleted by admin"
                            (Pg.asset_row first) |}
     /\ In first (Pg.assets (db w)) /\ Pg.a_filename first = filename)
  /\ (forall x, In x (Pg.assets (db (snd out))) <->
                In x (Pg.assets (db w)) /\ Pg.a_filename x <> filename).
Proof.
  intros Hauth Hrole Hdb Hin Hname. cbv zeta.
  destruct (filter (Pg.named filename) (Pg.assets (db w))) as [|first rest] eqn:Hf.
  { exfalso. assert (In a []) as []. rewrite <- Hf. apply filter_In.
    split; [assumption|]. unfold Pg.named. rewrite Hname. apply eqb_refl. }
  destruct (admin_delete_reply env auth user Hauth Hrole filename w first rest
              Hdb Hf) as (Hr & Ha & _).
  split.
  - exists first. split; [exact Hr|].
    assert (Hfirst : In first (filter (Pg.named filename) (Pg.assets (db w))))
      by (rewrite Hf; now left).
    apply filter_In in Hfirst as [H1 H2]. split; [exact H1|].
    now apply eqb_eq in H2.
  - intros x. rewrite Ha, filter_In. unfold Pg.named.
    rewrite negb_true_iff, eqb_neq. reflexivity.
Qed.

(** The administrator deletes Alice's cat; the dog and the plan stay. *)
Lemma admin_delete_any_owner_witness :
  let out := Admin.delete_route Demo.env (Example.bearer "root")
               (lit "1690000000000-cat.png") Demo.library in
  (exists first,
     fst out = {| status := 200;
                  body := BMessageAsset "Asset deleted by admin"
                            (Pg.asset_row first) |}
     /\ In first (Pg.assets (db Demo.library))
     /\ Pg.a_filename first = lit "1690000000000-cat.png")
  /\ (forall x, In x (Pg.assets (db (snd out))) <->
                In x (Pg.assets (db Demo.library))
                /\ Pg.a_filename x <> lit "1690000000000-cat.png").
Proof.
  apply (admin_delete_any_owner Demo.env (Example.bearer "root")
           {| c_id := Some 2%Z; c_role := Some (lit "admin") |}
           (lit "1690000000000-cat.png") Demo.library
           (Example.cat (JObj [(lit "public", JBool false)]))
           eq_refl eq_refl eq_refl).
  - right. now left.
  - reflexivity.
Defined.

(** X18: the administrator's list of users has one row a user, in the
    order of the ids, with the columns id, name, email, role and
    created_at: no row carries a password. *)
Theorem users_listing_hides_passwords
    (env : Env) (auth : option str) (user : Claims) (w : World) :
  Middleware.authenticateToken env auth = inr user ->
  c_role user = Some (lit "admin") ->
  db_fault env (queries w) = None ->
  exists l rows,
    AdminReads.users_route env auth w
    = ({| code := 200; payload := PRows rows |},
       sent AdminReads.users_statement w)
    /\ Permutation l (Pg.users (db w))
    /\ PgRead.ordered PgRead.by_id l
    /\ rows = map (fun u => [ ("id", VNum (Pg.u_id u));
                              ("name", Pg.opt VStr (Pg.u_name u));
                              ("email", VStr (Pg.u_email u));
                              ("role", Pg.opt VStr (Pg.u_role u));
                              ("created_at", Pg.opt VDate (Pg.u_created_at u))
                            ]%string) l
    /\ forall r, In r rows -> field "password" r = None.
Proof.
  intros Hauth Hrole Hdb.
  exists (PgRead.sort_by PgRead.by_id (Pg.users (db w))), (PgRead.select_users (db w)).
  split; [exact (users_route_reply env auth user Hauth Hrole w Hdb)|].
  split; [apply sort_by_perm|].
  split; [apply sort_by_ordered, by_id_total|].
  split; [reflexivity|].
  intros r Hr. apply in_map_iff in Hr as (u & <- & _). reflexivity.
Qed.

Lemma users_listing_hides_passwords_witness :
  exists rows,
    fst (AdminReads.users_route Demo.env (Example.bearer "root") Demo.library)
    = {| code := 200; payload := PRows rows |}
    /\ List.length rows = 2%nat
    /\ forall r, In r rows -> field "password" r = None.
Proof.
  destruct (users_listing_hides_passwords Demo.env (Example.bearer "root")
              {| c_id := Some 2%Z; c_role := Some (lit "admin") |}
              Demo.library eq_refl eq_refl eq_refl)
    as (l & rows & Hr & Hp & _ & Hrows & Hf).
  exists rows. repeat split; [now rewrite Hr | | exact Hf].
  rewrite Hrows, length_map. exact (Permutation_length Hp).
Defined.

(** X19: the administrator's list of assets holds every row of the ledger
    once, whoever uploaded it, the newest first. *)
Theorem assets_listing_is_complete
    (env : Env) (auth : option str) (user : Claims) (w : World) :
  Middleware.authenticateToken env auth = inr user ->
  c_role user = Some (lit "admin") ->
  db_fault env (queries w) = None ->
  exists rows,
    AdminReads.assets_route env auth w
    = ({| code := 200; payload := PRows (map Pg.asset_row rows) |},
       sent AdminReads.assets_statement w)
    /\ Permutation rows (Pg.assets (db w))
    /\ PgRead.ordered PgRead.newer rows.
Proof.
  intros Hauth Hrole Hdb. exists (PgRead.select_assets (db w)).
  split; [exact (assets_route_reply env auth user Hauth Hrole w Hdb)|].
  split; [apply sort_by_perm | apply sort_by_ordered, newer_total].
Qed.

Lemma assets_listing_is_complete_witness :
  exists rows,
    fst (AdminReads.assets_route Demo.env (Example.bearer "root") Demo.library)
    = {| code := 200; payload := PRows (map Pg.asset_row rows) |}
    /\ Permutation rows (Pg.assets (db Demo.library)).
Proof.
  destruct (assets_listing_is_complete Demo.env (Example.bearer "root")
              {| c_id := Some 2%Z; c_role := Some (lit "admin") |}
              Demo.library eq_refl eq_refl eq_refl) as (rows & Hr & Hp & _).
  exists rows. split; [now rewrite Hr | exact Hp].
Defined.

(* ================================================================== *)
(** * The profile *)

Arguments PgRead.select_profile : simpl never.

Lemma profile_reply (env : Env) (auth : option str) (user : Claims) (w : World) :
  Middleware.authenticateToken env auth = inr user ->
  db_fault env (queries w) = None ->
  Server.profile env auth w
  = ({| code := 200;
        payload :=
          PObject
            (("message", IText "Protected route accessed successfully")
             :: match PgRead.select_profile (c_id user) (db w) with
                | first :: _ => [("user", IRow first)]
                | [] => []
                end)%string |},
     sent Server.profile_statement w).
Proof.
  intros Hauth Hdb. unfold Server.profile. rewrite Hauth.
  unfold answer, Server.profile_handler, try_catch, bind, query.
  rewrite Hdb. cbn. unfold with_db, sent. cbn. now destruct (db w).
Qed.

(** X20: the profile of a requester whose account is in the table: 200
    with the id, name, email and role of a row of the requester's id, and
    no other column; the route reads only. *)
Theorem profile_shows_own_row
    (env : Env) (auth : option str) (user : Claims) (i : Z) (w : World)
    (u : Pg.User) :
  Middleware.authenticateToken env auth = inr user ->
  c_id user = Some i ->
  db_fault env (queries w) = None ->
  In u (Pg.users (db w)) -> Pg.u_id u = i ->
  exists v,
    In v (Pg.users (db w)) /\ Pg.u_id v = i
    /\ Server.profile env auth w
       = ({| code := 200;
             payload :=
               PObject
                 [ ("message", IText "Protected route accessed successfully");
                   ("user", IRow [ ("id", VNum i);
                                   ("name", Pg.opt VStr (Pg.u_name v));
                                   ("email", VStr (Pg.u_email v));
                                   ("role", Pg.opt VStr (Pg.u_role v)) ])
                 ]%string |},
          sent Server.profile_statement w).
Proof.
  intros Hauth Hid Hdb Hin Hu.
  rewrite (profile_reply env auth user w Hauth Hdb), Hid.
  unfold PgRead.select_profile.
  destruct (filter _ (Pg.users (db w))) as [|v rest] eqn:Hf.
  - exfalso. assert (H : In u []); [|destruct H].
    rewrite <- Hf. apply filter_In. split; [exact Hin|].
    cbn. rewrite Hu. apply Z.eqb_refl.
  - assert (Hv : In v (filter (fun u0 => Pg.sql_eq_int (Some (Pg.u_id u0)) (Some i))
                         (Pg.users (db w)))) by (rewrite Hf; now left).
    apply filter_In in Hv as [Hv1 Hv2]. cbn in Hv2. apply Z.eqb_eq in Hv2.
    exists v. split; [exact Hv1|]. split; [exact Hv2|].
    cbn. now rewrite Hv2.
Qed.

Lemma profile_shows_own_row_witness :
  exists v,
    In v (Pg.users (db Demo.library)) /\ Pg.u_id v = 1%Z
    /\ fst (Server.profile Demo.env (Example.bearer "alice") Demo.library)
       = {| code := 200;
            payload :=
              PObject
                [ ("message", IText "Protected route accessed successfully");
                  ("user", IRow [ ("id", VNum 1%Z);
                                  ("name", Pg.opt VStr (Pg.u_name v));
                                  ("email", VStr (Pg.u_email v));
                                  ("role", Pg.opt VStr (Pg.u_role v)) ])
                ]%string |}.
Proof.
  destruct (profile_shows_own_row Demo.env (Example.bearer "alice")
              {| c_id := Some 1%Z; c_role := Some (lit "user") |} 1%Z
              Demo.library Example.alice eq_refl eq_refl eq_refl
              (or_introl eq_refl) eq_refl) as (v & H1 & H2 & H3).
  exists v. repeat split; [exact H1 | exact H2 | now rewrite H3].
Defined.

(** X21: a valid token whose account is not in the table is answered 200
    all the same, by the message alone: the response has no user member. *)
Theorem profile_without_account
    (env : Env) (auth : option str) (user : Claims) (w : World) :
  Middleware.authenticateToken env auth = inr user ->
  db_fault env (queries w) = None ->
  (forall u, In u (Pg.users (db w)) -> Some (Pg.u_id u) <> c_id user) ->
  Server.profile env auth w
  = ({| code := 200;
        payload :=
          PObject [("message",
                    IText "Protected route accessed successfully")]%string |},
     sent Server.profile_statement w).
Proof.
  intros Hauth Hdb Hnone.
  rewrite (profile_reply env auth user w Hauth Hdb).
  unfold PgRead.select_profile.
  rewrite filter_none; [reflexivity|].
  intros u Hu. specialize (Hnone u Hu). unfold Pg.sql_eq_int.
  destruct (c_id user) as [i|]; [|reflexivity].
  apply Z.eqb_neq. congruence.
Qed.

(** Mallory's token is good, Mallory's account is not in the table. *)
Lemma profile_without_account_witness :
  fst (Server.profile Demo.env (Example.bearer "jwt.user.3") Demo.library)
  = {| code := 200;
       payload :=
         PObject [("message",
                   IText "Protected route accessed successfully")]%string |}.
Proof.
  rewrite (profile_without_account Demo.env (Example.bearer "jwt.user.3")
             Demo.mallory Demo.library eq_refl eq_refl).
  - reflexivity.
  - intros u [<- | [<- | []]]; discriminate.
Defined.

(* ================================================================== *)
(** * The storage report *)

Lemma key_eqb_refl (k : PgRead.owner_key) : PgRead.key_eqb k k = true.
Proof.
  destruct k as [[i n] e]. cbn. rewrite Z.eqb_refl, eqb_refl.
  destruct n as [n|]; cbn; [now rewrite eqb_refl | reflexivity].
Qed.

Lemma key_eqb_id (u v : Pg.User) :
  PgRead.key_eqb (PgRead.key_of u) (PgRead.key_of v) = true ->
  Pg.u_id u = Pg.u_id v.
Proof.
  unfold PgRead.key_of. cbn. intros H.
  apply andb_true_iff in H as [H _]. apply andb_true_iff in H as [H _].
  now apply Z.eqb_eq.
Qed.

Lemma distinct_incl (l : list PgRead.owner_key) (k : PgRead.owner_key) :
  In k (PgRead.distinct l) -> In k l.
Proof.
  induction l as [|x l IH]; cbn; [tauto|].
  intros [H | H]; [now left|]. apply filter_In in H as [H _]. right. now apply IH.
Qed.

Lemma filter_twice {A} (f : A -> bool) (l : list A) :
  filter f (filter f l) = filter f l.
Proof.
  induction l as [|x l IH]; cbn; [reflexivity|].
  destruct (f x) eqn:E; cbn; [rewrite E; now f_equal | exact IH].
Qed.

Section Storage.

Variable d : Pg.Db.

Lemma joined_groups : PgRead.joined d = flat_map (PgRead.group d) (Pg.users d).
Proof. reflexivity. Qed.

Lemma group_keys (u : Pg.User) :
  exists n, map fst (PgRead.group d u) = repeat (PgRead.key_of u) (S n).
Proof.
  unfold PgRead.group.
  destruct (filter _ (Pg.assets d)) as [|a l]; [now exists 0%nat|].
  exists (List.length l). cbn. f_equal.
  induction l as [|b l IH]; cbn; [reflexivity | now f_equal].
Qed.

Lemma group_total (u : Pg.User) :
  PgRead.coalesce0 (PgRead.sql_sum (map snd (PgRead.group d u)))
  = PgRead.total_size
      (filter (PgRead.uploaded_by (Some (Pg.u_id u))) (Pg.assets d)).
Proof.
  unfold PgRead.group.
  destruct (filter _ (Pg.assets d)) as [|a l] eqn:E; [reflexivity|].
  rewrite map_map. cbn [snd]. apply sql_sum_total.
Qed.

Lemma distinct_repeat (k : PgRead.owner_key) (n : nat)
    (l : list PgRead.owner_key) :
  PgRead.distinct (repeat k (S n) ++ l)
  = k :: filter (fun k' => negb (PgRead.key_eqb k k')) (PgRead.distinct l).
Proof.
  induction n as [|n IH]; [reflexivity|].
  change (repeat k (S (S n)) ++ l) with (k :: (repeat k (S n) ++ l)).
  cbn [PgRead.distinct]. rewrite IH. cbn [filter].
  rewrite key_eqb_refl. cbn [negb]. now rewrite filter_twice.
Qed.

Lemma keys_of_groups (us : list Pg.User) (k : PgRead.owner_key) :
  In k (map fst (flat_map (PgRead.group d) us)) -> exists v, In v us /\ k = PgRead.key_of v.
Proof.
  induction us as [|v us IH]; cbn; [tauto|].
  rewrite map_app, in_app_iff. intros [H | H].
  - exists v. split; [now left|].
    destruct (group_keys v) as [n Hn]. rewrite Hn in H.
    now apply repeat_spec in H.
  - destruct (IH H) as (x & Hx & ->). exists x. split; [now right | reflexivity].
Qed.

Lemma distinct_groups (us : list Pg.User) :
  NoDup (map Pg.u_id us) ->
  PgRead.distinct (map fst (flat_map (PgRead.group d) us)) = map PgRead.key_of us.
Proof.
  induction us as [|u us IH]; cbn; [reflexivity|].
  intros Hnd. inversion Hnd as [|i l Hnot Hnd']; subst.
  rewrite map_app. destruct (group_keys u) as [n ->].
  rewrite distinct_repeat, (IH Hnd'). f_equal.
  apply filter_all. intros k Hk. apply in_map_iff in Hk as (v & <- & Hv).
  apply negb_true_iff. destruct (PgRead.key_eqb _ _) eqn:E; [|reflexivity].
  exfalso. apply Hnot. apply key_eqb_id in E. rewrite E. now apply in_map.
Qed.

Lemma other_groups (u : Pg.User) (us : list Pg.User) :
  (forall v, In v us -> Pg.u_id v <> Pg.u_id u) ->
  filter (fun r => PgRead.key_eqb (PgRead.key_of u) (fst r)) (flat_map (PgRead.group d) us)
  = [].
Proof.
  intros H. apply filter_none. intros r Hr.
  assert (Hk : In (fst r) (map fst (flat_map (PgRead.group d) us))) by now apply in_map.
  apply keys_of_groups in Hk as (v & Hv & ->).
  destruct (PgRead.key_eqb _ _) eqn:E; [|reflexivity].
  exfalso. apply (H v Hv). symmetry. now apply key_eqb_id.
Qed.

Lemma own_group (u : Pg.User) :
  filter (fun r => PgRead.key_eqb (PgRead.key_of u) (fst r)) (PgRead.group d u) = PgRead.group d u.
Proof.
  apply filter_all. intros r Hr.
  assert (Hk : In (fst r) (map fst (PgRead.group d u))) by now apply in_map.
  destruct (group_keys u) as [n Hn]. rewrite Hn in Hk.
  apply repeat_spec in Hk. rewrite Hk. apply key_eqb_refl.
Qed.

Lemma group_of (u : Pg.User) (us : list Pg.User) :
  NoDup (map Pg.u_id us) -> In u us ->
  filter (fun r => PgRead.key_eqb (PgRead.key_of u) (fst r)) (flat_map (PgRead.group d) us)
  = PgRead.group d u.
Proof.
  induction us as [|v us IH]; cbn [flat_map map In]; [tauto|].
  intros Hnd Hin. inversion Hnd as [|i l Hnot Hnd']; subst.
  rewrite filter_app. destruct Hin as [-> | Hin].
  - rewrite own_group, other_groups; [apply app_nil_r|].
    intros v Hv E. apply Hnot. rewrite <- E. now apply in_map.
  - rewrite (IH Hnd' Hin).
    pose proof (other_groups u [v]) as Hv. cbn [flat_map] in Hv.
    rewrite app_nil_r in Hv. rewrite Hv; [reflexivity|].
    intros x [<- | []] E. apply Hnot. rewrite E. now apply in_map.
Qed.

Lemma select_storage_groups :
  NoDup (map Pg.u_id (Pg.users d)) ->
  PgRead.select_storage d
  = PgRead.sort_by PgRead.heavier
      (map (fun u =>
              (PgRead.key_of u,
               PgRead.total_size
                 (filter (PgRead.uploaded_by (Some (Pg.u_id u))) (Pg.assets d))))
           (Pg.users d)).
Proof.
  intros Hnd. unfold PgRead.select_storage. cbv zeta.
  rewrite joined_groups, (distinct_groups _ Hnd), map_map.
  f_equal. apply map_ext_in. intros u Hu.
  now rewrite (group_of u _ Hnd Hu), group_total.
Qed.

End Storage.

(** X22: the storage report, the ids of the users being distinct as
    their primary key makes them: one row a user, those without assets
    included, each with the bytes of the assets that user uploaded, a size
    that is NULL counting nothing; the heavier users come first. *)
Theorem storage_report_per_user
    (env : Env) (auth : option str) (user : Claims) (w : World) :
  Middleware.authenticateToken env auth = inr user ->
  c_role user = Some (lit "admin") ->
  db_fault env (queries w) = None ->
  NoDup (map Pg.u_id (Pg.users (db w))) ->
  exists report,
    AdminReads.storage_route env auth w
    = ({| code := 200; payload := PRows (map PgRead.storage_row report) |},
       sent AdminReads.storage_statement w)
    /\ Permutation report
         (map (fun u =>
                 (PgRead.key_of u,
                  PgRead.total_size
                    (filter (PgRead.uploaded_by (Some (Pg.u_id u)))
                       (Pg.assets (db w)))))
              (Pg.users (db w)))
    /\ PgRead.ordered PgRead.heavier report.
Proof.
  intros Hauth Hrole Hdb Hnd. exists (PgRead.select_storage (db w)).
  split; [exact (storage_route_reply env auth user Hauth Hrole w Hdb)|].
  rewrite (select_storage_groups (db w) Hnd).
  split; [apply sort_by_perm | apply sort_by_ordered, heavier_total].
Qed.

(** The library: the administrator's 300 bytes before Alice's 120. *)
Lemma storage_report_per_user_witness :
  exists report,
    fst (AdminReads.storage_route Demo.env (Example.bearer "root") Demo.library)
    = {| code := 200; payload := PRows (map PgRead.storage_row report) |}
    /\ Permutation report
         [ (PgRead.key_of Example.alice,
            PgRead.total_size
              [Demo.dog; Example.cat (JObj [(lit "public", JBool false)])]);
           (PgRead.key_of Example.root, PgRead.total_size [Demo.plan]) ].
Proof.
  destruct (storage_report_per_user Demo.env (Example.bearer "root")
              {| c_id := Some 2%Z; c_role := Some (lit "admin") |}
              Demo.library eq_refl eq_refl eq_refl) as (report & Hr & Hp & _).
  - cbn. repeat constructor; cbn; intuition discriminate.
  - exists report. split; [now rewrite Hr | exact Hp].
Defined.

(* ================================================================== *)
(** * The visibility of a ledger whose rows are flagged *)

Lemma filter_split_length {A} (f : A -> bool) (l : list A) :
  (List.length (filter f l) + List.length (filter (fun a => negb (f a)) l)
   = List.length l)%nat.
Proof.
  induction l as [|x l IH]; cbn; [reflexivity|].
  destruct (f x); cbn; lia.
Qed.

Lemma public_int_flag (a : Pg.Asset) (ms : list (str * json)) (b : bool) :
  Pg.a_permissions a = Some (JObj ms) ->
  last_member (lit "public") ms = Some (JBool b) ->
  Pg.public_int a = inr (Some (if b then 1 else 0)%Z).
Proof.
  intros Hp Hm. unfold Pg.public_int, Pg.arrow_text. rewrite Hp, Hm.
  now destruct b.
Qed.

Lemma sum_public_flags (flag : Pg.Asset -> bool) (rows : list Pg.Asset) :
  (forall a, In a rows ->
     exists ms, Pg.a_permissions a = Some (JObj ms)
                /\ last_member (lit "public") ms = Some (JBool (flag a))) ->
  Pg.sum_public rows
  = inr match rows with
        | [] => None
        | _ :: _ => Some (Z.of_nat (List.length (filter flag rows)))
        end.
Proof.
  induction rows as [|a rows IH]; intros H; [reflexivity|].
  cbn [Pg.sum_public].
  destruct (H a (or_introl eq_refl)) as (ms & Hp & Hm).
  rewrite (public_int_flag a ms (flag a) Hp Hm).
  rewrite IH by (intros x Hx; apply H; now right).
  cbn [filter]. f_equal.
  destruct rows as [|b rows]; destruct (flag a); cbn [List.length filter];
    f_equal; lia.
Qed.

Lemma sum_public_fails (rows : list Pg.Asset) (a : Pg.Asset) (e : exn) :
  In a rows -> Pg.public_int a = inl e ->
  exists e', Pg.sum_public rows = inl e'.
Proof.
  induction rows as [|x rows IH]; [intros []|].
  intros [-> | Hin] He; cbn [Pg.sum_public].
  - rewrite He. eauto.
  - destruct (Pg.public_int x) as [e0|v]; [eauto|].
    destruct (IH Hin He) as [e' ->]. eauto.
Qed.

(** X23: on a ledger that is not empty and whose rows all carry a boolean
    public flag, the report counts the rows flagged true as public and
    the rows flagged false as private. *)
Theorem visibility_counts_flags
    (env : Env) (auth : option str) (user : Claims) (w : World)
    (flag : Pg.Asset -> bool) :
  Middleware.authenticateToken env auth = inr user ->
  c_role user = Some (lit "admin") ->
  db_fault env (queries w) = None ->
  Pg.assets (db w) <> [] ->
  (forall a, In a (Pg.assets (db w)) ->
     exists ms, Pg.a_permissions a = Some (JObj ms)
                /\ last_member (lit "public") ms = Some (JBool (flag a))) ->
  fst (Admin.visibility_route env auth w)
  = {| status := 200;
       body :=
         BVisibility
           (VBig (Z.of_nat (List.length (filter flag (Pg.assets (db w))))))
           (VBig (Z.of_nat (List.length (filter (fun a => negb (flag a))
                                           (Pg.assets (db w)))))) |}.
Proof.
  intros Hauth Hrole Hdb Hne Hflags.
  unfold Admin.visibility_route.
  rewrite Hauth, (requireRole_passes_admin user Hrole).
  unfold respond, Admin.visibility_handler, try_catch, bind, query.
  rewrite Hdb. unfold Pg.select_visibility, Pg.count_assets.
  rewrite (sum_public_flags flag _ Hflags).
  pose proof (filter_split_length flag (Pg.assets (db w))) as Hlen.
  destruct (Pg.assets (db w)) as [|a rows] eqn:E; [congruence|].
  unfold ret. cbn [fst snd Admin.or_zero]. do 3 f_equal. lia.
Qed.

(** The library holds one public and two private assets. *)
Lemma visibility_counts_flags_witness :
  fst (Admin.visibility_route Demo.env (Example.bearer "root") Demo.library)
  = {| status := 200; body := BVisibility (VBig 1) (VBig 2) |}.
Proof.
  rewrite (visibility_counts_flags Demo.env (Example.bearer "root")
             {| c_id := Some 2%Z; c_role := Some (lit "admin") |} Demo.library
             (fun a => eqb (Pg.a_filename a) (lit "1680000000000-dog.jpg"))
             eq_refl eq_refl eq_refl).
  - reflexivity.
  - discriminate.
  - intros a [<- | [<- | [<- | []]]]; eexists; split; reflexivity.
Defined.

(** X24: one row whose public flag the database cannot read as a boolean
    (a text such as maybe, an array, an object) fails the whole report:
    the route answers 500, whatever the other rows hold. *)
Theorem visibility_fails_on_unreadable_flag
    (env : Env) (auth : option str) (user : Claims) (w : World)
    (a : Pg.Asset) (e : exn) :
  Middleware.authenticateToken env auth = inr user ->
  c_role user = Some (lit "admin") ->
  db_fault env (queries w) = None ->
  In a (Pg.assets (db w)) ->
  Pg.public_int a = inl e ->
  fst (Admin.visibility_route env auth w)
  = json_message 500 "Error fetching visibility stats".
Proof.
  intros Hauth Hrole Hdb Hin He.
  unfold Admin.visibility_route.
  rewrite Hauth, (requireRole_passes_admin user Hrole).
  unfold respond, Admin.visibility_handler, try_catch, bind, query.
  rewrite Hdb. unfold Pg.select_visibility.
  destruct (sum_public_fails _ a e Hin He) as [e' ->]. reflexivity.
Qed.

(** The cat's flag is the text maybe. *)
Lemma visibility_fails_on_unreadable_flag_witness :
  fst (Admin.visibility_route Example.env (Example.bearer "root")
         (Example.stocked (JObj [(lit "public", JStr (lit "maybe"))])))
  = json_message 500 "Error fetching visibility stats".
Proof.
  apply (visibility_fails_on_unreadable_flag Example.env (Example.bearer "root")
           {| c_id := Some 2%Z; c_role := Some (lit "admin") |}
           (Example.stocked (JObj [(lit "public", JStr (lit "maybe"))]))
           (Example.cat (JObj [(lit "public", JStr (lit "maybe"))]))
           Pg.invalid_boolean eq_refl eq_refl eq_refl).
  - now left.
  - reflexivity.
Defined.

(* ================================================================== *)
(** * The upload, step by step *)

Lemma staged_then_found (p : str) (l : list str) :
  existsb (eqb p) (remove_path p l ++ [p]) = true.
Proof. apply existsb_eqb_in, in_or_app. right. now left. Qed.

(** X25: an upload that passes multer, with permissions that are not
    null, the object store and the database both up: the object is
    stored under uploads/ with the time and the staged name, the staged
    file is unlinked, and then the insert fails; the route answers 500,
    the ledger is as it was and the object stays in the bucket. *)
Theorem upload_orphans_object
    (env : Env) (req : Assets.UploadRequest) (w : World) (user : Claims)
    (file : Assets.FilePart) :
  Middleware.authenticateToken env (Assets.up_authorization req) = inr user ->
  Assets.up_file req = Some file ->
  existsb (eqb (Assets.mimetype file)) Assets.allowed = true ->
  (Assets.size file <= Assets.fileSize)%N ->
  get_public (Assets.parse_permissions (Assets.up_permissions req)) <> None ->
  s3_put_fault env = None ->
  db_fault env (queries w) = None ->
  let out := Assets.upload_route env req w in
  let key := lit "uploads/" ++ of_N (date_now env) ++ lit "-"
               ++ Assets.staged_name env file in
  status (fst out) = 500%N
  /\ db (snd out) = db w
  /\ (exists o, In o (bucket (snd out)) /\ o_key o = key
                /\ o_size o = Assets.size file
                /\ o_content_type o = Assets.mimetype file)
  /\ ~ In (Assets.staged_path env file) (disk (snd out))
  /\ exists acl,
       trace (snd out)
       = trace w ++ [EvStage (Assets.staged_path env file);
                     EvS3Put key acl;
                     EvUnlink (Assets.staged_path env file);
                     EvQuery Assets.insert_statement].
Proof.
  intros Hauth Hfile Htype Hsize Hperm Hs3 Hdb. cbv zeta.
  unfold Assets.upload_route. rewrite Hauth, Hfile.
  unfold respond, bind, Assets.upload_single, Assets.fileFilter.
  rewrite Htype. cbn.
  unfold bind, write_file.
  apply N.ltb_ge in Hsize. rewrite Hsize. cbn.
  unfold Assets.upload_handler, try_catch; cbn.
  destruct (get_public _) as [public|]; [|contradiction]. cbn.
  unfold bind, s3_upload. rewrite Hs3. cbn.
  unfold unlink_sync. cbn. rewrite staged_then_found. cbn.
  unfold query. cbn. rewrite Hdb.
  match goal with
  | |- context [Pg.insert_asset ?n ?v ?d] =>
      destruct (insert_asset_without_id n v d eq_refl) as [e ->]
  end.
  cbn. split; [reflexivity|]. split; [now destruct (db w)|].
  split; [|split].
  - eexists. split; [apply in_or_app; right; now left|]. now repeat split.
  - apply remove_path_not_in.
  - eexists. rewrite <- !app_assoc. reflexivity.
Qed.

Lemma upload_orphans_object_witness :
  let out := Assets.upload_route Example.env
               (Example.upload_of Example.jpeg None None) Example.empty in
  status (fst out) = 500%N
  /\ map o_key (bucket (snd out))
     = [lit "uploads/1700000000005-1700000000000-dog.jpg"]
  /\ disk (snd out) = [].
Proof.
  destruct (upload_orphans_object Example.env
              (Example.upload_of Example.jpeg None None) Example.empty
              {| c_id := Some 1%Z; c_role := Some (lit "user") |} Example.jpeg
              eq_refl eq_refl eq_refl) as (H & _).
  - discriminate.
  - discriminate.
  - reflexivity.
  - reflexivity.
  - split; [exact H|]. split; reflexivity.
Defined.

(** X26: permissions whose text is JSON for null pass the parser and fail
    the handler where it reads their public member: the route answers 500
    with the TypeError's message before any transfer, and the file that
    multer staged stays on disk. *)
Theorem upload_null_permissions
    (env : Env) (req : Assets.UploadRequest) (w : World) (user : Claims)
    (file : Assets.FilePart) :
  Middleware.authenticateToken env (Assets.up_authorization req) = inr user ->
  Assets.up_file req = Some file ->
  existsb (eqb (Assets.mimetype file)) Assets.allowed = true ->
  (Assets.size file <= Assets.fileSize)%N ->
  Assets.parse_permissions (Assets.up_permissions req) = JNull ->
  let out := Assets.upload_route env req w in
  fst out
  = json_message 500 "Cannot read properties of null (reading 'public')"
  /\ db (snd out) = db w
  /\ bucket (snd out) = bucket w
  /\ In (Assets.staged_path env file) (disk (snd out))
  /\ trace (snd out) = trace w ++ [EvStage (Assets.staged_path env file)].
Proof.
  intros Hauth Hfile Htype Hsize Hperm. cbv zeta.
  unfold Assets.upload_route. rewrite Hauth, Hfile.
  unfold respond, bind, Assets.upload_single, Assets.fileFilter.
  rewrite Htype. cbn.
  unfold bind, write_file.
  apply N.ltb_ge in Hsize. rewrite Hsize. cbn.
  unfold Assets.upload_handler, try_catch; cbn.
  rewrite Hperm. cbn.
  repeat split. apply in_or_app. right. now left.
Qed.

Lemma upload_null_permissions_witness :
  let out := Assets.upload_route Example.env
               (Example.upload_of Example.jpeg None (Some (lit "null")))
               Example.empty in
  fst out
  = json_message 500 "Cannot read properties of null (reading 'public')"
  /\ disk (snd out) = [lit "/srv/app/uploads/1700000000000-dog.jpg"].
Proof.
  destruct (upload_null_permissions Example.env
              (Example.upload_of Example.jpeg None (Some (lit "null")))
              Example.empty
              {| c_id := Some 1%Z; c_role := Some (lit "user") |} Example.jpeg
              eq_refl eq_refl eq_refl) as (H & _).
  - discriminate.
  - reflexivity.
  - split; [exact H | reflexivity].
Defined.

(** What a route added to the calls of a world. *)
Ltac added_calls :=
  eexists; split;
  [ rewrite <- ?app_assoc; try reflexivity; symmetry; apply app_nil_r
  | cbn; intros key acl Hin;
    repeat match type of Hin with
           | _ \/ _ => destruct Hin as [Hin | Hin]
           | False => destruct Hin
           end; try discriminate ].

(** X27: an upload is private unless its permissions say otherwise: when
    the parsed permissions have no public member that is truthy (none are
    sent, they are empty, they are a word other than public), no request
    puts an object with another ACL than private. *)
Theorem upload_private_unless_flagged
    (env : Env) (req : Assets.UploadRequest) (w : World) :
  (forall v,
     get_public (Assets.parse_permissions (Assets.up_permissions req))
     = Some (Some v) -> truthy v = false) ->
  exists calls,
    trace (snd (Assets.upload_route env req w)) = trace w ++ calls
    /\ forall key acl, In (EvS3Put key acl) calls -> acl = "private"%string.
Proof.
  intros Hflag. unfold Assets.upload_route.
  destruct (Middleware.authenticateToken env _) as [r|user]; cbn.
  { added_calls. }
  unfold respond, bind, Assets.upload_single.
  destruct (Assets.up_file req) as [file|]; cbn.
  2:{ added_calls. }
  destruct (Assets.fileFilter file); cbn.
  { added_calls. }
  unfold bind, write_file.
  destruct (Assets.fileSize <? Assets.size file)%N; cbn.
  { added_calls. }
  unfold Assets.upload_handler, try_catch; cbn.
  destruct (get_public _) as [public|] eqn:Hpub; cbn.
  2:{ added_calls. }
  assert (Hacl : match public with
                 | Some v => if truthy v then "public-read" else "private"
                 | None => "private"
                 end%string = "private"%string).
  { destruct public as [v|]; [|reflexivity]. now rewrite (Hflag v eq_refl). }
  rewrite Hacl.
  unfold bind, s3_upload; cbn.
  destruct (s3_put_fault env); cbn.
  { added_calls. now inversion Hin. }
  unfold unlink_sync; cbn.
  destruct (existsb _ _); cbn.
  2:{ added_calls. now inversion Hin. }
  unfold query; cbn.
  destruct (db_fault env (queries w)); cbn.
  { added_calls. now inversion Hin. }
  match goal with
  | |- context [Pg.insert_asset ?n ?v ?d] =>
      destruct (insert_asset_without_id n v d eq_refl) as [e ->]
  end.
  cbn. added_calls. now inversion Hin.
Qed.

(** No permissions are sent: the one object put is private. *)
Lemma upload_private_unless_flagged_witness :
  exists calls,
    trace (snd (Assets.upload_route Example.env
                  (Example.upload_of Example.jpeg None None) Example.empty))
    = calls
    /\ forall key acl, In (EvS3Put key acl) calls -> acl = "private"%string.
Proof.
  destruct (upload_private_unless_flagged Example.env
              (Example.upload_of Example.jpeg None None) Example.empty)
    as (calls & Hc & Hp).
  - intros v H. vm_compute in H. now inversion H.
  - exists calls. split; [exact Hc | exact Hp].
Defined.

(* ================================================================== *)
(** * The counts *)

Lemma sort_by_length {A} (le : A -> A -> bool) (l : list A) :
  List.length (PgRead.sort_by le l) = List.length l.
Proof. apply Permutation_length, sort_by_perm. Qed.

(** X28: the administrator's counts are those of the administrator's
    listings: on one state of the tables, total_users is the number of
    rows of the users' listing and total_assets the number of rows of the
    assets' listing. *)
Theorem counts_match_listings
    (env : Env) (auth : option str) (user : Claims) (w : World) :
  Middleware.authenticateToken env auth = inr user ->
  c_role user = Some (lit "admin") ->
  db_fault env (queries w) = None ->
  exists users assets,
    fst (AdminReads.users_route env auth w)
    = {| code := 200; payload := PRows users |}
    /\ fst (AdminReads.assets_route env auth w)
       = {| code := 200; payload := PRows assets |}
    /\ fst (AdminReads.count_users_route env auth w)
       = {| code := 200;
            payload :=
              PObject [("total_users",
                        IDatum (VBig (Z.of_nat (List.length users))))]%string |}
    /\ fst (AdminReads.count_assets_route env auth w)
       = {| code := 200;
            payload :=
              PObject [("total_assets",
                        IDatum (VBig (Z.of_nat (List.length assets))))]%string |}.
Proof.
  intros Hauth Hrole Hdb.
  exists (PgRead.select_users (db w)),
         (map Pg.asset_row (PgRead.select_assets (db w))).
  rewrite (users_route_reply env auth user Hauth Hrole w Hdb).
  rewrite (assets_route_reply env auth user Hauth Hrole w Hdb).
  unfold AdminReads.count_users_route, AdminReads.count_assets_route.
  rewrite !(admin_only_answers env auth user Hauth Hrole).
  unfold answer, AdminReads.count_users_handler, AdminReads.count_assets_handler,
    try_catch, bind, query.
  rewrite Hdb. unfold PgRead.select_users, PgRead.select_assets.
  rewrite !length_map, !sort_by_length.
  repeat split.
Qed.

Lemma counts_match_listings_witness :
  exists users assets,
    fst (AdminReads.users_route Demo.env (Example.bearer "root") Demo.library)
    = {| code := 200; payload := PRows users |}
    /\ fst (AdminReads.assets_route Demo.env (Example.bearer "root")
              Demo.library)
       = {| code := 200; payload := PRows assets |}
    /\ fst (AdminReads.count_users_route Demo.env (Example.bearer "root")
              Demo.library)
       = {| code := 200;
            payload :=
              PObject [("total_users",
                        IDatum (VBig (Z.of_nat (List.length users))))]%string |}
    /\ fst (AdminReads.count_assets_route Demo.env (Example.bearer "root")
              Demo.library)
       = {| code := 200;
            payload :=
              PObject [("total_assets",
                        IDatum (VBig (Z.of_nat (List.length assets))))]%string |}.
Proof.
  exact (counts_match_listings Demo.env (Example.bearer "root")
           {| c_id := Some 2%Z; c_role := Some (lit "admin") |}
           Demo.library eq_refl eq_refl eq_refl).
Defined.
